(** * devbanhmi-blog: the WordPress client and the content normaliser

    A shallow embedding of [src/lib/wordpress.ts] (second, current revision:
    the one that imports [marked]), of [src/lib/wordpress-publish.ts] and of
    [src/pages/rss.xml.ts].

    JavaScript strings are sequences of UTF-16 code units, and the regular
    expressions of the source carry no [u] flag, so they match code unit by
    code unit.  A string is therefore a [list N]; [str] turns an ASCII
    literal into one. *)

From Stdlib Require Import Strings.String Strings.Ascii Numbers.DecimalString.
From Stdlib Require Import List NArith ZArith Bool Lia Arith DecimalN.
Import ListNotations.

(** ** Strings *)

Definition char := N.
Definition jsstring := list char.

Definition ch (a : Ascii.ascii) : char := Ascii.N_of_ascii a.
Definition str (s : String.string) : jsstring :=
  map ch (String.list_ascii_of_string s).

Arguments ch a%_char_scope.
Arguments str s%_string_scope.

Definition nl : char := 10%N.
Definition dquote : char := 34%N.

Definition is_ch (a : Ascii.ascii) : char -> bool := fun c => N.eqb c (ch a).
Definition not_ch (a : Ascii.ascii) : char -> bool := fun c => negb (N.eqb c (ch a)).
Definition one_of (l : jsstring) : char -> bool := fun c => existsb (N.eqb c) l.
Arguments is_ch a%_char_scope.
Arguments not_ch a%_char_scope.

Definition between (lo hi : N) : char -> bool :=
  fun c => N.leb lo c && N.leb c hi.

(** ECMAScript LineTerminator: LF, CR, LS, PS. *)
Definition is_line_terminator : char -> bool :=
  one_of [10; 13; 8232; 8233]%N.

(** [\s] and [String.prototype.trim]: WhiteSpace and LineTerminator. *)
Definition is_space (c : char) : bool :=
  one_of [9; 10; 11; 12; 13; 32; 160; 5760; 8232; 8233; 8239; 8287; 12288; 65279]%N c
  || between 8192 8202 c.

(** [\d], [\w], [.] (no [s] flag) and [[\s\S]]. *)
Definition is_digit : char -> bool := between 48 57.
Definition is_word (c : char) : bool :=
  between 97 122 c || between 65 90 c || is_digit c || N.eqb c 95.
Definition dot (c : char) : bool := negb (is_line_terminator c).
Definition any (c : char) : bool := true.

Fixpoint eqs (a b : jsstring) : bool :=
  match a, b with
  | [], [] => true
  | x :: a', y :: b' => N.eqb x y && eqs a' b'
  | _, _ => false
  end.

(** [strip l s]: [s] without its prefix [l], when [l] is a prefix. *)
Fixpoint strip (l s : jsstring) : option jsstring :=
  match l with
  | [] => Some s
  | x :: l' =>
      match s with
      | y :: s' => if N.eqb y x then strip l' s' else None
      | [] => None
      end
  end.

(** [occurs l s]: [l] is a substring of [s] ([s.includes(l)]). *)
Fixpoint occurs (l s : jsstring) : bool :=
  match strip l s with
  | Some _ => true
  | None => match s with [] => false | _ :: s' => occurs l s' end
  end.

Fixpoint drop_space (s : jsstring) : jsstring :=
  match s with
  | c :: s' => if is_space c then drop_space s' else s
  | [] => []
  end.

(** [String.prototype.trim]. *)
Definition trim (s : jsstring) : jsstring :=
  rev (drop_space (rev (drop_space s))).

(** [Array.prototype.join]. *)
Fixpoint join (sep : jsstring) (l : list jsstring) : jsstring :=
  match l with
  | [] => []
  | [x] => x
  | x :: tl => x ++ sep ++ join sep tl
  end.

(** [String(n)] for a non-negative integer. *)
Definition dec (n : N) : jsstring := str (DecimalString.NilZero.string_of_uint (N.to_uint n)).

(** [parseInt] on a run of decimal digits. *)
Definition parseInt (s : jsstring) : N :=
  fold_left (fun acc c => (acc * 10 + (c - 48))%N) s 0%N.

(** ** Regular expressions

    The fragment of ECMAScript regular expressions the source uses, with the
    backtracking semantics of the language: alternatives and quantifiers are
    tried in priority order against a continuation.  Every quantifier of the
    source applies to a single character class, except the one optional
    group, so [Rep] takes a class. *)

Inductive regex : Type :=
| Lit (l : jsstring)                 (* literal text *)
| Cls (p : char -> bool)             (* one character of a class *)
| Rep (greedy : bool) (lo : nat) (hi : option nat) (p : char -> bool)
                                     (* p{lo,hi}, p{lo,hi}? *)
| Seq (r1 r2 : regex)
| Alt (r1 r2 : regex)
| Opt (r : regex)                    (* (r)? greedy *)
| Group (i : nat) (r : regex)        (* i-th capturing group *)
| NotBehind (p : char -> bool)       (* (?<!p) *)
| NotAhead (p : char -> bool)        (* (?!p) *)
| Bol (multiline : bool).            (* ^ *)

Declare Scope regex_scope.
Delimit Scope regex_scope with re.
Bind Scope regex_scope with regex.
Infix ";;" := Seq (at level 61, right associativity) : regex_scope.

Definition captures := list (nat * jsstring).

(** A matcher state: the text already passed (most recent first), the text
    still ahead, and the groups captured so far. *)
Record mstate : Type := MState {
  seen : jsstring;
  rest : jsstring;
  caps : captures
}.

Fixpoint get_cap (i : nat) (cs : captures) : option jsstring :=
  match cs with
  | [] => None
  | (j, v) :: cs' => if Nat.eqb i j then Some v else get_cap i cs'
  end.

(** [$i] in a replacement pattern: the empty string when the group did not
    take part in the match. *)
Definition cap (i : nat) (cs : captures) : jsstring :=
  match get_cap i cs with Some v => v | None => [] end.

(** The text consumed between [rest = s] and [rest = s']. *)
Definition consumed (s s' : jsstring) : jsstring :=
  firstn (length s - length s') s.

Definition cont := mstate -> option mstate.

Fixpoint rep (greedy : bool) (p : char -> bool) (k : cont)
    (lo : nat) (hi : option nat) (sn rs : jsstring) (cs : captures)
    {struct rs} : option mstate :=
  match lo with
  | S lo' =>
      match rs with
      | c :: rs' =>
          if p c then rep greedy p k lo' (option_map pred hi) (c :: sn) rs' cs
          else None
      | [] => None
      end
  | O =>
      match hi with
      | Some O => k (MState sn rs cs)
      | _ =>
          if greedy then
            match
              match rs with
              | c :: rs' =>
                  if p c then rep greedy p k O (option_map pred hi) (c :: sn) rs' cs
                  else None
              | [] => None
              end
            with
            | Some r => Some r
            | None => k (MState sn rs cs)
            end
          else
            match k (MState sn rs cs) with
            | Some r => Some r
            | None =>
                match rs with
                | c :: rs' =>
                    if p c then rep greedy p k O (option_map pred hi) (c :: sn) rs' cs
                    else None
                | [] => None
                end
            end
      end
  end.

Fixpoint m (r : regex) (k : cont) (st : mstate) : option mstate :=
  match r with
  | Lit l =>
      match strip l (rest st) with
      | Some rs' => k (MState (rev l ++ seen st) rs' (caps st))
      | None => None
      end
  | Cls p =>
      match rest st with
      | c :: rs' => if p c then k (MState (c :: seen st) rs' (caps st)) else None
      | [] => None
      end
  | Rep g lo hi p => rep g p k lo hi (seen st) (rest st) (caps st)
  | Seq r1 r2 => m r1 (m r2 k) st
  | Alt r1 r2 =>
      match m r1 k st with
      | Some x => Some x
      | None => m r2 k st
      end
  | Opt r' =>
      match m r' k st with
      | Some x => Some x
      | None => k st
      end
  | Group i r' =>
      m r' (fun st' =>
              k (MState (seen st') (rest st')
                        ((i, consumed (rest st) (rest st')) :: caps st'))) st
  | NotBehind p =>
      match seen st with
      | c :: _ => if p c then None else k st
      | [] => k st
      end
  | NotAhead p =>
      match rest st with
      | c :: _ => if p c then None else k st
      | [] => k st
      end
  | Bol ml =>
      match seen st with
      | [] => k st
      | c :: _ => if ml && is_line_terminator c then k st else None
      end
  end.

(** One match attempt at the current position. *)
Definition exec (r : regex) (sn rs : jsstring) : option mstate :=
  m r (fun st => Some st) (MState sn rs []).

(** ** Scanning a string for all matches (the [g] flag)

    [scan] cuts a string into the characters no match covers and the
    successive matches, leftmost first, as [String.prototype.replace],
    [split] and [RegExp.prototype.exec] with [lastIndex] find them.  [skip]
    counts the characters of the last match still to be passed over. *)

Inductive seg : Type :=
| Keep (c : char)
| Hit (matched : jsstring) (cs : captures).

Fixpoint scan (r : regex) (sn s : jsstring) (skip : nat) : list seg :=
  match skip with
  | S n =>
      match s with
      | c :: s' => scan r (c :: sn) s' n
      | [] => []
      end
  | O =>
      match exec r sn s with
      | Some st' =>
          let mt := consumed s (rest st') in
          Hit mt (caps st') ::
          match s with
          | c :: s' =>
              match length mt with
              | O => Keep c :: scan r (c :: sn) s' 0   (* empty match: advance *)
              | S n => scan r (c :: sn) s' n
              end
          | [] => []
          end
      | None =>
          match s with
          | c :: s' => Keep c :: scan r (c :: sn) s' 0
          | [] => []
          end
      end
  end.

Definition segments (r : regex) (s : jsstring) : list seg := scan r [] s 0.

(** [s.replace(r, f)] for a global [r] and a replacer [f] that may update a
    variable of its closure ([acc]). *)
Fixpoint subst {A : Type} (f : A -> jsstring -> captures -> A * jsstring)
    (acc : A) (segs : list seg) : A * jsstring :=
  match segs with
  | [] => (acc, [])
  | Keep c :: tl =>
      let (a, out) := subst f acc tl in (a, c :: out)
  | Hit mt cs :: tl =>
      let (a1, o1) := f acc mt cs in
      let (a2, o2) := subst f a1 tl in
      (a2, o1 ++ o2)
  end.

Definition replace_with {A : Type} (r : regex)
    (f : A -> jsstring -> captures -> A * jsstring) (acc : A) (s : jsstring)
    : A * jsstring :=
  subst f acc (segments r s).

(** [s.replace(r, f)] for a global [r] and a pure replacer or pattern. *)
Fixpoint fill (f : jsstring -> captures -> jsstring) (segs : list seg) : jsstring :=
  match segs with
  | [] => []
  | Keep c :: tl => c :: fill f tl
  | Hit mt cs :: tl => f mt cs ++ fill f tl
  end.

Definition replace (r : regex) (f : jsstring -> captures -> jsstring)
    (s : jsstring) : jsstring :=
  fill f (segments r s).

(** [s.split(r)], for a separator that matches no empty string. *)
Fixpoint pieces (cur : jsstring) (segs : list seg) : list jsstring :=
  match segs with
  | [] => [rev cur]
  | Keep c :: tl => pieces (c :: cur) tl
  | Hit _ _ :: tl => rev cur :: pieces [] tl
  end.

Definition split (r : regex) (s : jsstring) : list jsstring :=
  pieces [] (segments r s).

(** The first match of a regular expression without the [g] flag:
    the text before it, the final matcher state. *)
Fixpoint search (r : regex) (sn s : jsstring) : option (jsstring * mstate) :=
  match exec r sn s with
  | Some st' => Some (rev sn, st')
  | None =>
      match s with
      | c :: s' => search r (c :: sn) s'
      | [] => None
      end
  end.

(** [r.test(s)]. *)
Definition test (r : regex) (s : jsstring) : bool :=
  match search r [] s with Some _ => true | None => false end.

(** [s.replace(r, pattern)] without the [g] flag. *)
Definition replace_first (r : regex) (f : jsstring -> captures -> jsstring)
    (s : jsstring) : jsstring :=
  match search r [] s with
  | Some (before, st') =>
      before
      ++ f (consumed (skipn (length before) s) (rest st')) (caps st')
      ++ rest st'
  | None => s
  end.

(** ** Errors and the network

    An [async] function either returns or throws; [fetch] either rejects or
    resolves to a response, whose [json()] and [text()] may reject in turn.
    The payload of a response is decoded at the type the caller names in
    [fetchAPI<T>] and [wpFetch<T>]. *)

Module Net.

Inductive exn : Type :=
| Error (message : jsstring).

Inductive result (A : Type) : Type :=
| Return (a : A)
| Throw (e : exn).

Arguments Return {A} a.
Arguments Throw {A} e.

Record Response (T : Type) : Type := {
  ok : bool;
  status : N;
  statusText : jsstring;
  text : result jsstring;
  json : result T
}.

Arguments ok {T} r.
Arguments status {T} r.
Arguments statusText {T} r.
Arguments text {T} r.
Arguments json {T} r.

Inductive Fetched (T : Type) : Type :=
| Rejected (reason : exn)
| Responded (response : Response T).

Arguments Rejected {T} reason.
Arguments Responded {T} response.

(** [URLSearchParams.prototype.set] on the list of pairs of a URL: the first
    pair of that name takes the value and the later ones go; a new name is
    appended. *)
Fixpoint params_without (key : jsstring) (l : list (jsstring * jsstring))
    : list (jsstring * jsstring) :=
  match l with
  | [] => []
  | (k, v) :: l' =>
      if eqs k key then params_without key l' else (k, v) :: params_without key l'
  end.

Fixpoint params_set (key value : jsstring) (l : list (jsstring * jsstring))
    : list (jsstring * jsstring) :=
  match l with
  | [] => [(key, value)]
  | (k, v) :: l' =>
      if eqs k key then (key, value) :: params_without key l'
      else (k, v) :: params_set key value l'
  end.

End Net.

(** ** [src/lib/wordpress.ts]: the content normaliser *)

Module Wordpress.

Import Net.
Open Scope regex_scope.

(** The regular expressions of [processContent], in source order. *)

(* /`([^`]+)`/g *)
Definition re_inline_code : regex :=
  Lit (str "`") ;; Group 1 (Rep true 1 None (not_ch "`")) ;; Lit (str "`").

(* /<p>#{n}\s*(.+?)<\/p>/g *)
Definition re_heading (n : nat) : regex :=
  Lit (str "<p>") ;; Rep true n (Some n) (is_ch "#") ;; Rep true 0 None is_space ;;
  Group 1 (Rep false 1 None dot) ;; Lit (str "</p>").

(* /\*\*(.+?)\*\*/g *)
Definition re_bold : regex :=
  Lit (str "**") ;; Group 1 (Rep false 1 None dot) ;; Lit (str "**").

(* the italic pattern, flag g: a star that is not preceded by a star,
   a group of one or more characters other than a star, and a
   closing star that is not followed by a star:
   negative lookbehind, star, group [^*]+, star, negative lookahead *)
Definition re_italic : regex :=
  NotBehind (is_ch "*") ;; Lit (str "*") ;; Group 1 (Rep true 1 None (not_ch "*")) ;;
  Lit (str "*") ;; NotAhead (is_ch "*").

(* /__CODE_BLOCK_(\d+)__/g *)
Definition re_placeholder : regex :=
  Lit (str "__CODE_BLOCK_") ;; Group 1 (Rep true 1 None is_digit) ;; Lit (str "__").

(* /<p>(```[\s\S]*?```)<\/p>/g and /<p>(~~~[\s\S]*?~~~)<\/p>/g *)
Definition re_wrapped_fence (fence : jsstring) : regex :=
  Lit (str "<p>") ;; Group 1 (Lit fence ;; Rep false 0 None any ;; Lit fence) ;;
  Lit (str "</p>").

(* /```(\w+)?\n?([\s\S]*?)```/g *)
Definition re_fence : regex :=
  Lit (str "```") ;; Opt (Group 1 (Rep true 1 None is_word)) ;;
  Rep true 0 (Some 1) (N.eqb nl) ;; Group 2 (Rep false 0 None any) ;; Lit (str "```").

(* /<p>&gt;\s*(.+?)<\/p>/g *)
Definition re_blockquote : regex :=
  Lit (str "<p>&gt;") ;; Rep true 0 None is_space ;; Group 1 (Rep false 1 None dot) ;;
  Lit (str "</p>").

(* /<p>[-*_]{3,}<\/p>/g *)
Definition re_rule : regex :=
  Lit (str "<p>") ;; Rep true 3 None (one_of (str "-*_")) ;; Lit (str "</p>").

(* /<p>(\d+\.\s+[\s\S]*?)<\/p>/g *)
Definition re_ol : regex :=
  Lit (str "<p>") ;;
  Group 1 (Rep true 1 None is_digit ;; Lit (str ".") ;; Rep true 1 None is_space ;;
           Rep false 0 None any) ;;
  Lit (str "</p>").

(* /<p>([-*]\s+[\s\S]*?)<\/p>/g *)
Definition re_ul : regex :=
  Lit (str "<p>") ;;
  Group 1 (Cls (one_of (str "-*")) ;; Rep true 1 None is_space ;; Rep false 0 None any) ;;
  Lit (str "</p>").

(* /<\/?p>/g *)
Definition re_ptag : regex :=
  Lit (str "<") ;; Rep true 0 (Some 1) (is_ch "/") ;; Lit (str "p>").

(* /<br\s*\/?>|\n/ *)
Definition re_break : regex :=
  Alt (Lit (str "<br") ;; Rep true 0 None is_space ;; Rep true 0 (Some 1) (is_ch "/") ;;
       Lit (str ">"))
      (Lit [nl]).

(* /^\d+\.\s+/ *)
Definition re_ol_item : regex :=
  Bol false ;; Rep true 1 None is_digit ;; Lit (str ".") ;; Rep true 1 None is_space.

(* /^[-*]\s+/ *)
Definition re_ul_item : regex :=
  Bol false ;; Cls (one_of (str "-*")) ;; Rep true 1 None is_space.

(** A replacement pattern without [$]: the same text for every match. *)
Definition const (s : jsstring) : jsstring -> captures -> jsstring := fun _ _ => s.

(** ['<tag>$1</tag>']. *)
Definition wrap1 (open close : jsstring) : jsstring -> captures -> jsstring :=
  fun _ cs => open ++ cap 1 cs ++ close.

(** The replacer of the first pass: [codeBlocks.push(code)], then the
    placeholder with the index of the pushed element. *)
Definition protect (codeBlocks : list jsstring) (_ : jsstring) (cs : captures)
    : list jsstring * jsstring :=
  let codeBlocks' := codeBlocks ++ [cap 1 cs] in
  (codeBlocks',
   str "__CODE_BLOCK_" ++ dec (N.of_nat (length codeBlocks' - 1)) ++ str "__").

(** [`<code>${codeBlocks[parseInt(index)]}</code>`]; an index past the end
    of the array reads [undefined]. *)
Definition restore (codeBlocks : list jsstring) (_ : jsstring) (cs : captures)
    : jsstring :=
  str "<code>"
  ++ match nth_error codeBlocks (N.to_nat (parseInt (cap 1 cs))) with
     | Some code => code
     | None => str "undefined"
     end
  ++ str "</code>".

Definition escape (code : jsstring) : jsstring :=
  replace (Lit (str ">")) (const (str "&gt;"))
    (replace (Lit (str "<")) (const (str "&lt;"))
       (replace (Lit (str "&")) (const (str "&amp;")) (trim code))).

(** The replacer of the fenced-block pass: [lang || 'plaintext']. *)
Definition fence (_ : jsstring) (cs : captures) : jsstring :=
  let language :=
    match get_cap 1 cs with
    | Some (c :: l) => c :: l
    | _ => str "plaintext"
    end in
  str "<pre><code class=" ++ [dquote] ++ str "language-" ++ language ++ [dquote]
  ++ str ">" ++ escape (cap 2 cs) ++ str "</code></pre>".

(** The items of a list paragraph: the chain from [match.replace] to
    [join] in the two list replacers, for the item prefix [item]. *)
Definition list_lines (mt : jsstring) : list jsstring :=
  map trim (split re_break (replace re_ptag (const []) mt)).

Definition list_items (item : regex) (mt : jsstring) : jsstring :=
  join [nl]
    (map (fun it => str "<li>" ++ replace_first item (const []) it ++ str "</li>")
       (filter (test item) (list_lines mt))).

Definition ordered (mt : jsstring) (_ : captures) : jsstring :=
  let items := list_items re_ol_item mt in
  if Nat.ltb 0 (length items) then str "<ol>" ++ items ++ str "</ol>" else mt.

Definition unordered (mt : jsstring) (_ : captures) : jsstring :=
  let items := list_items re_ul_item mt in
  if Nat.ltb 0 (length items) then str "<ul>" ++ items ++ str "</ul>" else mt.

(** The passes of [processContent], grouped as the comments of the source
    group them. *)

Definition headings (processed : jsstring) : jsstring :=
  let processed := replace (re_heading 6) (wrap1 (str "<h6>") (str "</h6>")) processed in
  let processed := replace (re_heading 5) (wrap1 (str "<h5>") (str "</h5>")) processed in
  let processed := replace (re_heading 4) (wrap1 (str "<h4>") (str "</h4>")) processed in
  let processed := replace (re_heading 3) (wrap1 (str "<h3>") (str "</h3>")) processed in
  let processed := replace (re_heading 2) (wrap1 (str "<h2>") (str "</h2>")) processed in
  replace (re_heading 1) (wrap1 (str "<h1>") (str "</h1>")) processed.

Definition emphasis (processed : jsstring) : jsstring :=
  let processed := replace re_bold (wrap1 (str "<strong>") (str "</strong>")) processed in
  replace re_italic (wrap1 (str "<em>") (str "</em>")) processed.

Definition blocks (processed : jsstring) : jsstring :=
  let processed := replace (re_wrapped_fence (str "```")) (wrap1 [] []) processed in
  let processed := replace (re_wrapped_fence (str "~~~")) (wrap1 [] []) processed in
  let processed := replace re_fence fence processed in
  let processed :=
    replace re_blockquote (wrap1 (str "<blockquote><p>") (str "</p></blockquote>"))
      processed in
  let processed := replace re_rule (const (str "<hr>")) processed in
  let processed := replace re_ol ordered processed in
  replace re_ul unordered processed.

Definition processContent (content : jsstring) : jsstring :=
  let processed := content in
  let (codeBlocks, processed) := replace_with re_inline_code protect [] processed in
  let processed := headings processed in
  let processed := emphasis processed in
  let processed := replace re_placeholder (restore codeBlocks) processed in
  blocks processed.

(** The regular expressions of [getExcerptText]. *)

(* /&#\d+;/g *)
Definition re_numeric_entity : regex :=
  Lit (str "&#") ;; Rep true 1 None is_digit ;; Lit (str ";").

(* /<[^>]+>/g *)
Definition re_tag : regex :=
  Lit (str "<") ;; Rep true 1 None (not_ch ">") ;; Lit (str ">").

(* /^#{1,6}\s+/gm *)
Definition re_md_header : regex :=
  Bol true ;; Rep true 1 (Some 6) (is_ch "#") ;; Rep true 1 None is_space.

(* /\*(.+?)\*/g *)
Definition re_md_italic : regex :=
  Lit (str "*") ;; Group 1 (Rep false 1 None dot) ;; Lit (str "*").

(* /\[([^\]]+)\]\([^)]+\)/g *)
Definition re_md_link : regex :=
  Lit (str "[") ;; Group 1 (Rep true 1 None (not_ch "]")) ;; Lit (str "](") ;;
  Rep true 1 None (not_ch ")") ;; Lit (str ")").

Definition en_dash : jsstring := [8211%N].
Definition em_dash : jsstring := [8212%N].

(** The chain of replacements and the [trim] that give [text]. *)
Definition cleaned (excerpt : jsstring) : jsstring :=
  let text := replace (Lit (str "&#8211;")) (const en_dash) excerpt in
  let text := replace (Lit (str "&#8212;")) (const em_dash) text in
  let text := replace re_numeric_entity (const []) text in
  let text := replace (Lit (str "&amp;")) (const (str "&")) text in
  let text := replace (Lit (str "&nbsp;")) (const (str " ")) text in
  let text := replace re_tag (const []) text in
  let text := replace re_md_header (const []) text in
  let text := replace re_bold (wrap1 [] []) text in
  let text := replace re_md_italic (wrap1 [] []) text in
  let text := replace re_inline_code (wrap1 [] []) text in
  let text := replace re_md_link (wrap1 [] []) text in
  trim text.

(** [text.substring(0, maxLength)]: a negative end counts as 0, an end past
    the string as its length. *)
Definition substring0 (text : jsstring) (maxLength : Z) : jsstring :=
  firstn (Z.to_nat maxLength) text.

Definition getExcerptText (excerpt : jsstring) (maxLength : Z) : jsstring :=
  let text := cleaned excerpt in
  if Z.leb (Z.of_nat (length text)) maxLength then text
  else trim (substring0 text maxLength) ++ str "...".

(** The default value of the parameter [maxLength]. *)
Definition default_maxLength : Z := 160.

(** *** The fetch client *)

(** [WPPost], with the three rendered texts flattened; the optional
    [_embedded] is given on its own below ([Embedded]). *)
Record WPPost : Type := {
  id : N;
  slug : jsstring;
  title : jsstring;          (* title.rendered *)
  content : jsstring;        (* content.rendered *)
  excerpt : jsstring;        (* excerpt.rendered *)
  date : jsstring;
  modified : jsstring;
  featured_media : N;
  categories : list N;
  tags : list N;
  author : N
}.

(** The URL object [fetchAPI] builds: the text given to [new URL] and the
    search parameters set on it. *)
Record Url : Type := {
  href : jsstring;
  searchParams : list (jsstring * jsstring)
}.

Inductive console : Type :=
| Warn (message : jsstring) (error : exn).

Section Client.

(** [import.meta.env.WORDPRESS_API_URL || '...'], the type [T] of
    [fetchAPI<T>], and the network. *)
Variable WORDPRESS_API_URL : jsstring.
Variable T : Type.
Variable fetch : Url -> Fetched T.

(** The URL [fetchAPI] fetches: [_embed] first, then each entry of
    [params] in its order. *)
Definition url_for (endpoint : jsstring) (params : list (jsstring * jsstring))
    : Url :=
  let url := {| href := WORDPRESS_API_URL ++ str "/wp-json/wp/v2/" ++ endpoint;
                searchParams := [] |} in
  let url := {| href := href url;
                searchParams := params_set (str "_embed") (str "true") (searchParams url) |} in
  fold_left (fun u kv => {| href := href u;
                            searchParams := params_set (fst kv) (snd kv) (searchParams u) |})
    params url.

Definition fetchAPI (endpoint : jsstring) (params : list (jsstring * jsstring))
    : result T :=
  match fetch (url_for endpoint params) with
  | Rejected reason => Throw reason
  | Responded response =>
      if negb (ok response) then
        Throw (Error (str "WordPress API error: " ++ dec (status response)
                      ++ str " " ++ statusText response))
      else json response
  end.

End Client.

Arguments fetchAPI WORDPRESS_API_URL {T} fetch endpoint params.

Section Posts.

Variable WORDPRESS_API_URL : jsstring.
Variable fetch : Url -> Fetched (list WPPost).

(** [posts[0] || null]: an element of [posts] is an object, hence truthy. *)
Definition getPostBySlug (slug : jsstring) : result (option WPPost) :=
  match fetchAPI WORDPRESS_API_URL fetch (str "posts") [(str "slug", slug)] with
  | Throw e => Throw e
  | Return posts =>
      Return (match posts with
              | post :: _ => Some post
              | [] => None
              end)
  end.

(** The result, and what the call wrote to the console. *)
Definition getAllPostSlugs : result (list jsstring) * list console :=
  match fetchAPI WORDPRESS_API_URL fetch (str "posts")
          [(str "per_page", str "100"); (str "_fields", str "slug")] with
  | Return posts => (Return (map slug posts), [])
  | Throw error =>
      (Return [], [Warn (str "Could not fetch post slugs from WordPress:") error])
  end.

End Posts.

(** *** The other accessors *)

(** The parameter of [getPosts]; an absent property is [None], a number is
    a non-negative integer. *)
Module GetPosts.
Record options : Type := {
  perPage : option N;
  page : option N;
  categories : option (list N);
  tags : option (list N);
  search : option jsstring
}.
Definition none : options :=
  {| perPage := None; page := None; categories := None; tags := None; search := None |}.
End GetPosts.

Module WPCategory.
Record t : Type := {
  id : N;
  name : jsstring;
  slug : jsstring;
  count : N;
  description : jsstring
}.
End WPCategory.

Module WPAuthor.
Record t : Type := {
  id : N;
  name : jsstring;
  avatar_urls : list (jsstring * jsstring)
}.
End WPAuthor.

Module WPTerm.
Record t : Type := {
  id : N;
  name : jsstring;
  slug : jsstring;
  taxonomy : jsstring
}.
End WPTerm.

(** [WPMedia]; the source reads [media_details], [sizes], the entry of a
    size and its [source_url] through optional chaining, so each may be
    missing.  An object keyed by strings is the list of its properties. *)
Module WPMedia.
Record size : Type := {
  size_source_url : option jsstring;
  width : N;
  height : N
}.
Record details : Type := {
  sizes : option (list (jsstring * size))
}.
Record t : Type := {
  id : N;
  source_url : jsstring;
  alt_text : jsstring;
  media_details : option details
}.
End WPMedia.

(** [post._embedded], which [WPPost] leaves out: the helpers below read
    nothing else of the post and take it in place of the post. *)
Record Embedded : Type := {
  embedded_author : option (list WPAuthor.t);           (* author *)
  featuredmedia : option (list WPMedia.t);              (* 'wp:featuredmedia' *)
  term : option (list (list WPTerm.t))                  (* 'wp:term' *)
}.

(** [n || default] for a number that may be absent: zero is falsy. *)
Definition number_or (n : option N) (default : N) : N :=
  match n with
  | Some n => if N.eqb n 0 then default else n
  | None => default
  end.

(** [obj[key]] for an object as the list of its properties. *)
Fixpoint property {A : Type} (key : jsstring) (obj : list (jsstring * A)) : option A :=
  match obj with
  | [] => None
  | (k, v) :: obj' => if eqs k key then Some v else property key obj'
  end.

(** The object [params] of [getPosts]: the four properties of the literal,
    then the assignments, each under its [if].  Assigning to a property an
    object does not have yet appends it. *)
Definition getPosts_params (options : GetPosts.options) : list (jsstring * jsstring) :=
  let params :=
    [(str "per_page", dec (number_or (GetPosts.perPage options) 10));
     (str "page", dec (number_or (GetPosts.page options) 1));
     (str "orderby", str "date");
     (str "order", str "desc")] in
  let params :=
    match GetPosts.categories options with
    | Some (c :: l) => params_set (str "categories") (join (str ",") (map dec (c :: l))) params
    | _ => params
    end in
  let params :=
    match GetPosts.tags options with
    | Some (c :: l) => params_set (str "tags") (join (str ",") (map dec (c :: l))) params
    | _ => params
    end in
  match GetPosts.search options with
  | Some (c :: l) => params_set (str "search") (c :: l) params
  | _ => params
  end.

Section Accessors.

Variable WORDPRESS_API_URL : jsstring.
Variable fetch_posts : Url -> Fetched (list WPPost).
Variable fetch_categories : Url -> Fetched (list WPCategory.t).

Definition getPosts (options : GetPosts.options) : result (list WPPost) :=
  fetchAPI WORDPRESS_API_URL fetch_posts (str "posts") (getPosts_params options).

Definition getCategories : result (list WPCategory.t) :=
  fetchAPI WORDPRESS_API_URL fetch_categories (str "categories")
    [(str "per_page", str "100"); (str "hide_empty", str "true")].

Definition getCategoryBySlug (slug : jsstring) : result (option WPCategory.t) :=
  match fetchAPI WORDPRESS_API_URL fetch_categories (str "categories")
          [(str "slug", slug)] with
  | Throw e => Throw e
  | Return categories =>
      Return (match categories with
              | category :: _ => Some category
              | [] => None
              end)
  end.

End Accessors.

(** The default value of the parameter [size]. *)
Definition default_size : jsstring := str "large".




Definition getAuthor (_embedded : option Embedded) : option WPAuthor.t :=
  match _embedded with
  | Some e =>
      match embedded_author e with
      | Some (author :: _) => Some author
      | _ => None
      end
  | None => None
  end.




End Wordpress.

(** ** [src/lib/wordpress-publish.ts]: the publishing client *)

Module Publish.

Import Net.

(** *** [JSON.stringify], for the values the client sends *)

Definition hex_digit (n : N) : char :=
  if N.ltb n 10 then (48 + n)%N else (87 + n)%N.

(** [\uXXXX], in lower-case hexadecimal digits. *)
Definition unicode_escape (c : char) : jsstring :=
  str "\u" ++ [hex_digit (N.modulo (N.div c 4096) 16); hex_digit (N.modulo (N.div c 256) 16);
               hex_digit (N.modulo (N.div c 16) 16); hex_digit (N.modulo c 16)].

Definition is_lead : char -> bool := between 55296 56319.
Definition is_trail : char -> bool := between 56320 57343.

Definition quote_unit (c : char) : jsstring :=
  if N.eqb c 8 then str "\b"
  else if N.eqb c 9 then str "\t"
  else if N.eqb c 10 then str "\n"
  else if N.eqb c 12 then str "\f"
  else if N.eqb c 13 then str "\r"
  else if N.eqb c 34 then [92; 34]%N
  else if N.eqb c 92 then [92; 92]%N
  else if N.ltb c 32 then unicode_escape c
  else [c].

Fixpoint quote_units (s : jsstring) : jsstring :=
  match s with
  | [] => []
  | c :: s' =>
      if is_lead c then
        match s' with
        | d :: s'' =>
            if is_trail d then c :: d :: quote_units s''
            else unicode_escape c ++ quote_units s'
        | [] => unicode_escape c
        end
      else if is_trail c then unicode_escape c ++ quote_units s'
      else quote_unit c ++ quote_units s'
  end.

(** QuoteJSONString. *)
Definition quote (s : jsstring) : jsstring := [dquote] ++ quote_units s ++ [dquote].

(** An array of non-negative integers. *)
Definition numbers (l : list N) : jsstring :=
  str "[" ++ join (str ",") (map dec l) ++ str "]".

(** An object, from its properties already serialised, in their order. *)
Definition object (props : list (jsstring * jsstring)) : jsstring :=
  str "{" ++ join (str ",") (map (fun kv => quote (fst kv) ++ str ":" ++ snd kv) props)
  ++ str "}".

(** *** The data *)

Inductive Status : Type := publish | draft | pending.

Definition status_name (s : Status) : jsstring :=
  match s with
  | publish => str "publish"
  | draft => str "draft"
  | pending => str "pending"
  end.

Record CreatePostOptions : Type := {
  title : jsstring;
  content : jsstring;
  excerpt : option jsstring;
  status : option Status;
  categories : option (list N);
  tags : option (list N);
  featured_media : option N
}.

(** A property of [Partial<CreatePostOptions>] that is present. *)
Inductive property : Type :=
| p_title (v : jsstring)
| p_content (v : jsstring)
| p_excerpt (v : jsstring)
| p_status (v : Status)
| p_categories (v : list N)
| p_tags (v : list N)
| p_featured_media (v : N).

(** [UpdatePostOptions]: [id], and the other own properties of the object in
    the order the caller wrote them, which is the order [JSON.stringify]
    prints the rest [data] in. *)
Record UpdatePostOptions : Type := {
  id : N;
  data : list property
}.

Definition stringify_property (p : property) : jsstring * jsstring :=
  match p with
  | p_title v => (str "title", quote v)
  | p_content v => (str "content", quote v)
  | p_excerpt v => (str "excerpt", quote v)
  | p_status v => (str "status", quote (status_name v))
  | p_categories v => (str "categories", numbers v)
  | p_tags v => (str "tags", numbers v)
  | p_featured_media v => (str "featured_media", dec v)
  end.

Record WPPostResponse : Type := {
  r_id : N;
  r_slug : jsstring;
  r_link : jsstring;
  r_status : jsstring;
  r_title : jsstring         (* title.rendered *)
}.

Record Category : Type := {
  c_id : N;
  c_name : jsstring;
  c_slug : jsstring
}.

(** *** Requests *)

Record RequestInit : Type := {
  method : option jsstring;
  body : option jsstring;
  headers : list (jsstring * jsstring)
}.

Definition no_options : RequestInit :=
  {| method := None; body := None; headers := [] |}.

(** What [fetch(url, init)] is called with. *)
Record Request : Type := {
  url : jsstring;
  init : RequestInit
}.

(** The backend: its answer to a request, decoded at the type each caller
    names in [wpFetch<T>]. *)
Record Backend : Type := {
  posts_api : Request -> Fetched WPPostResponse;
  categories_list_api : Request -> Fetched (list Category);
  categories_api : Request -> Fetched Category
}.

(** A computation that may throw and that records the requests it issues. *)
Definition M (A : Type) : Type := list Request -> result A * list Request.

Definition ret {A : Type} (a : A) : M A := fun trace => (Return a, trace).

Definition bind {A B : Type} (c : M A) (k : A -> M B) : M B :=
  fun trace =>
    match c trace with
    | (Return a, trace') => k a trace'
    | (Throw e, trace') => (Throw e, trace')
    end.

Notation "'let*' x ':=' c 'in' k" := (bind c (fun x => k))
  (at level 10, x name, c at level 100, k at level 200).

Section Client.

(** [process.env], with the defaults applied, and the two library
    functions the client calls: base64 of the UTF-8 encoding
    ([Buffer.from(s).toString('base64')]) and
    [String.prototype.toLowerCase]. *)
Variable WORDPRESS_API_URL : jsstring.
Variable WORDPRESS_USER : jsstring.
Variable WORDPRESS_APP_PASSWORD : jsstring.
Variable base64 : jsstring -> jsstring.
Variable toLowerCase : jsstring -> jsstring.

Variable backend : Backend.

Definition getAuthHeader : jsstring :=
  let credentials :=
    WORDPRESS_USER ++ str ":"
    ++ replace (Cls is_space) (fun _ _ => []) WORDPRESS_APP_PASSWORD in
  str "Basic " ++ base64 credentials.

(** [{ 'Content-Type': ..., 'Authorization': ..., ...options.headers }]. *)
Definition merged_headers (options : RequestInit) : list (jsstring * jsstring) :=
  fold_left (fun hs kv => params_set (fst kv) (snd kv) hs) (headers options)
    [(str "Content-Type", str "application/json");
     (str "Authorization", getAuthHeader)].

(** The arguments [wpFetch] gives to [fetch]. *)
Definition request_for (endpoint : jsstring) (options : RequestInit) : Request :=
  {| url := WORDPRESS_API_URL ++ str "/wp-json/wp/v2/" ++ endpoint;
     init := {| method := method options;
                body := body options;
                headers := merged_headers options |} |}.

Definition wpFetch {T : Type} (api : Request -> Fetched T)
    (endpoint : jsstring) (options : RequestInit) : M T :=
  fun trace =>
    let request := request_for endpoint options in
    let trace := trace ++ [request] in
    match api request with
    | Rejected reason => (Throw reason, trace)
    | Responded response =>
        if negb (Net.ok response) then
          match Net.text response with
          | Return error =>
              (Throw (Error (str "WordPress API error: " ++ dec (Net.status response)
                             ++ str " - " ++ error)), trace)
          | Throw e => (Throw e, trace)
          end
        else (Net.json response, trace)
    end.

Definition opt {A : Type} (o : option A) (default : A) : A :=
  match o with Some a => a | None => default end.

Definition createPost (options : CreatePostOptions) : M WPPostResponse :=
  wpFetch (posts_api backend) (str "posts")
    {| method := Some (str "POST");
       body := Some (object
         [(str "title", quote (title options));
          (str "content", quote (content options));
          (str "excerpt", quote (opt (excerpt options) []));
          (str "status", quote (status_name (opt (status options) draft)));
          (str "categories", numbers (opt (categories options) []));
          (str "tags", numbers (opt (tags options) []));
          (str "featured_media", dec (opt (featured_media options) 0%N))]);
       headers := [] |}.

Definition updatePost (options : UpdatePostOptions) : M WPPostResponse :=
  wpFetch (posts_api backend) (str "posts/" ++ dec (id options))
    {| method := Some (str "POST");
       body := Some (object (map stringify_property (data options)));
       headers := [] |}.

Definition publishPost (id : N) : M WPPostResponse :=
  updatePost {| id := id; data := [p_status publish] |}.

Definition getCategories : M (list Category) :=
  wpFetch (categories_list_api backend) (str "categories?per_page=100") no_options.

Definition createCategory (name : jsstring) : M Category :=
  wpFetch (categories_api backend) (str "categories")
    {| method := Some (str "POST");
       body := Some (object [(str "name", quote name)]);
       headers := [] |}.

Definition getOrCreateCategory (name : jsstring) : M N :=
  let* categories := getCategories in
  let existing :=
    find (fun cat => eqs (toLowerCase (c_name cat)) (toLowerCase name)) categories in
  match existing with
  | Some existing => ret (c_id existing)
  | None =>
      let* newCategory := createCategory name in
      ret (c_id newCategory)
  end.

End Client.

End Publish.

(** ** [src/pages/rss.xml.ts]: the feed *)

Module Rss.

Import Net.

(** An item of the feed; [pubDate] is the text given to [new Date]. *)
Module Item.
Record t : Type := {
  title : jsstring;
  pubDate : jsstring;
  description : jsstring;
  link : jsstring
}.
End Item.

(** The object [GET] gives to [rss], a function of [@astrojs/rss]. *)
Module Feed.
Record t : Type := {
  title : jsstring;
  description : jsstring;
  site : jsstring;
  items : list Item.t;
  customData : jsstring
}.
End Feed.

Definition item (post : Wordpress.WPPost) : Item.t :=
  {| Item.title := Wordpress.title post;
     Item.pubDate := Wordpress.date post;
     Item.description :=
       Wordpress.getExcerptText (Wordpress.excerpt post) Wordpress.default_maxLength;
     Item.link := str "/blog/" ++ Wordpress.slug post ++ str "/" |}.

Section Get.

Variable WORDPRESS_API_URL : jsstring.
Variable fetch : Wordpress.Url -> Fetched (list Wordpress.WPPost).
(** [context.site]. *)
Variable site : jsstring.

Definition GET : result Feed.t :=
  match Wordpress.getPosts WORDPRESS_API_URL fetch
          {| Wordpress.GetPosts.perPage := Some 20%N;
             Wordpress.GetPosts.page := None;
             Wordpress.GetPosts.categories := None;
             Wordpress.GetPosts.tags := None;
             Wordpress.GetPosts.search := None |} with
  | Throw e => Throw e
  | Return posts =>
      Return
        {| Feed.title := str "devbanhmi";
           Feed.description :=
             str "CODE. CREATE. CRUNCH. Personal blog by Paul - documenting lessons learned in software engineering, AI, and startups.";
           Feed.site := site;
           Feed.items := map item posts;
           Feed.customData := str "<language>en-us</language>" |}
  end.

End Get.

End Rss.

(** * Notions used in the statements *)

(** Whether a regular expression can match the empty string, and the
    characters a non-empty match of it can start with. *)
Fixpoint nullable (r : regex) : bool :=
  match r with
  | Lit l => match l with [] => true | _ => false end
  | Cls _ => false
  | Rep _ lo _ _ => Nat.eqb lo 0
  | Seq a b => nullable a && nullable b
  | Alt a b => nullable a || nullable b
  | Group _ a => nullable a
  | Opt _ | NotBehind _ | NotAhead _ | Bol _ => true
  end.

Fixpoint first (r : regex) (c : char) : bool :=
  match r with
  | Lit l => match l with [] => false | x :: _ => N.eqb c x end
  | Cls p => p c
  | Rep _ _ _ p => p c
  | Seq a b => first a c || (nullable a && first b c)
  | Alt a b => first a c || first b c
  | Opt a | Group _ a => first a c
  | NotBehind _ | NotAhead _ | Bol _ => false
  end.

Definition starts (r : regex) (rs : jsstring) : bool :=
  match rs with
  | [] => false
  | c :: _ => first r c
  end.

(** No match starts inside [pre], when [pre] is followed by [s] and
    preceded by [sn]. *)
Definition no_match_in (r : regex) (sn pre s : jsstring) : Prop :=
  forall p1 p2, pre = p1 ++ p2 -> p2 <> [] -> exec r (rev p1 ++ sn) (p2 ++ s) = None.

Definition stops (p : char -> bool) (rs : jsstring) : bool :=
  match rs with
  | [] => true
  | c :: _ => negb (p c)
  end.

Definition lacks (a : ascii) (s : jsstring) : bool := forallb (not_ch a) s.

(** The characters a pass of [processContent] accepts right after an
    opening paragraph tag: the hash mark (headings), the backtick and the
    tilde (wrapped fences), the ampersand (blockquotes), the hyphen, the
    asterisk and the underscore (rules, unordered lists), the digits
    (ordered lists). *)
Definition marker (c : char) : bool :=
  is_ch "#" c || is_ch "&" c || is_ch "`" c || is_ch "~" c
  || one_of (str "-*_") c || is_digit c.

(** [calm trig s]: [s] does not start with an opening paragraph tag
    followed by a character of [trig]. *)
Definition calm (trig : char -> bool) (s : jsstring) : bool :=
  match strip (str "<p>") s with
  | Some (d :: _) => negb (trig d)
  | _ => true
  end.

(** [quiet trig s]: no opening paragraph tag of [s] is followed by a
    character of [trig]. *)
Fixpoint quiet (trig : char -> bool) (s : jsstring) : bool :=
  match s with
  | [] => true
  | _ :: s' => calm trig s && quiet trig s'
  end.

(** [apart trig s]: [s] can follow any quiet text: its first character
    neither completes an opening paragraph tag nor is in [trig]. *)
Definition apart (trig : char -> bool) (s : jsstring) : bool :=
  match s with
  | [] => true
  | c :: _ => negb (is_ch "p" c) && negb (is_ch ">" c) && negb (trig c)
  end.

(** Text the passes of [processContent] have nothing to do with: no
    backtick, no asterisk, no underscore, and no paragraph that opens with
    a marker. *)
Definition plain (s : jsstring) : bool :=
  lacks "`" s && lacks "*" s && lacks "_" s && quiet marker s.

(** The first character of the text of a heading: neither white space nor
    a further hash mark. *)
Definition begins_text (s : jsstring) : bool :=
  match s with
  | [] => false
  | c :: _ => negb (is_space c) && negb (is_ch "#" c)
  end.

(** The paragraph [<p>], [n] hash marks, white space [ws], [text], [</p>]. *)
Definition hash_paragraph (n : nat) (ws text : jsstring) : jsstring :=
  str "<p>" ++ repeat (ch "#") n ++ ws ++ text ++ str "</p>".

(** The text of a heading the theorem below covers: it begins with a
    character that is neither white space nor a hash mark, stays on one line,
    and holds no angle bracket, backtick, asterisk or underscore. *)
Definition heading_text (text : jsstring) : bool :=
  begins_text text && forallb dot text && lacks "<" text
  && lacks "`" text && lacks "*" text && lacks "_" text.



Definition begins_in_space (s : jsstring) : bool :=
  match s with
  | c :: _ => is_space c
  | [] => false
  end.

Definition ends_in_space (s : jsstring) : bool := begins_in_space (rev s).

Definition is_suffix (s' s : jsstring) : Prop := exists p, s = p ++ s'.

(** The list rewrite in the words of the specification: the lines of the
    paragraph that start with an item prefix, each without that prefix; no
    such line, the paragraph unchanged; otherwise the list element with one
    [li] for each. *)
Definition without_prefix (item : regex) (line : jsstring) : option jsstring :=
  match exec item [] line with
  | Some st => Some (rest st)
  | None => None
  end.

Fixpoint item_texts (item : regex) (lines : list jsstring) : list jsstring :=
  match lines with
  | [] => []
  | line :: lines' =>
      match without_prefix item line with
      | Some text => text :: item_texts item lines'
      | None => item_texts item lines'
      end
  end.

Definition list_element (open close : jsstring) (item : regex) (paragraph : jsstring)
    : jsstring :=
  match item_texts item (Wordpress.list_lines paragraph) with
  | [] => paragraph
  | texts =>
      open ++ join [nl] (map (fun text => str "<li>" ++ text ++ str "</li>") texts)
      ++ close
  end.

(** ** Notions of the further properties *)

(** [pre], then each span of [spans]: its code between [open] and [close],
    followed by its text. *)
Fixpoint woven (open close pre : jsstring) (spans : list (jsstring * jsstring))
    : jsstring :=
  match spans with
  | [] => pre
  | (code, text) :: spans' =>
      pre ++ (open ++ code ++ close) ++ woven open close text spans'
  end.

(** The same with the placeholder of index [i], [i + 1], ... in place of
    each span. *)
Fixpoint held (i : nat) (pre : jsstring) (spans : list (jsstring * jsstring))
    : jsstring :=
  match spans with
  | [] => pre
  | (_, text) :: spans' =>
      pre ++ (str "__CODE_BLOCK_" ++ dec (N.of_nat i) ++ str "__")
      ++ held (S i) text spans'
  end.

(** The code of an inline span the theorems cover: not empty, without
    backtick and without opening paragraph tag. *)
Definition code_text (code : jsstring) : bool :=
  match code with [] => false | _ => true end
  && lacks "`" code && negb (occurs (str "<p>") code).

(** A span the theorem below covers: its code as above, its text plain. *)
Definition plain_span (span : jsstring * jsstring) : bool :=
  code_text (fst span) && plain (snd span).

(** The paragraph [<p>&gt;], white space [ws], [text], [</p>]. *)
Definition quote_paragraph (ws text : jsstring) : jsstring :=
  str "<p>&gt;" ++ ws ++ text ++ str "</p>".

(** The text of a block the theorems below cover: it begins with a
    character that is neither white space nor a marker, stays on one line,
    and holds no angle bracket, backtick, asterisk or underscore. *)
Definition block_text (text : jsstring) : bool :=
  match text with
  | [] => false
  | c :: _ => negb (is_space c) && negb (marker c)
  end
  && forallb dot text && lacks "<" text
  && lacks "`" text && lacks "*" text && lacks "_" text.

(** The paragraph of [n] hyphens. *)
Definition rule_paragraph (n : nat) : jsstring :=
  str "<p>" ++ repeat (ch "-") n ++ str "</p>".

(** The paragraph of the lines [lines], set apart by [<br>]. *)
Definition lines_paragraph (lines : list jsstring) : jsstring :=
  str "<p>" ++ join (str "<br>") lines ++ str "</p>".

(** The text of a list item the theorems below cover: it neither begins nor
    ends with white space (so it is not empty), and holds no less-than sign,
    line feed, backtick, asterisk or underscore. *)
Definition item_text (text : jsstring) : bool :=
  match text with [] => false | c :: _ => negb (is_space c) end
  && negb (ends_in_space text)
  && lacks "<" text && forallb (fun c => negb (N.eqb c nl)) text
  && lacks "`" text && lacks "*" text && lacks "_" text.

(** The line of an item of an unordered list, and of an item, number and
    text, of an ordered one. *)
Definition bullet_line (text : jsstring) : jsstring := str "- " ++ text.

Definition numbered_line (item : jsstring * jsstring) : jsstring :=
  fst item ++ str ". " ++ snd item.

Definition numbered (item : jsstring * jsstring) : bool :=
  match fst item with [] => false | _ => true end
  && forallb is_digit (fst item) && item_text (snd item).

(** A line of a list paragraph: no less-than sign, no line feed, no white
    space at either end. *)
Definition clean_line (line : jsstring) : bool :=
  lacks "<" line && forallb (fun c => negb (N.eqb c nl)) line
  && negb (begins_in_space line) && negb (ends_in_space line).

(** The list element with one [li] for each text. *)
Definition list_of (open close : jsstring) (texts : list jsstring) : jsstring :=
  open ++ join [nl] (map (fun text => str "<li>" ++ text ++ str "</li>") texts)
  ++ close.

(** [sealed s]: every less-than sign of [s] is followed by a character
    other than the solidus, so no closing tag starts in [s]. *)
Fixpoint sealed (s : jsstring) : bool :=
  match s with
  | [] => true
  | c :: s' =>
      (negb (is_ch "<" c)
       || match s' with d :: _ => negb (is_ch "/" d) | [] => false end)
      && sealed s'
  end.

(** The entity the fenced-block replacer writes for a character. *)
Definition entity (c : char) : jsstring :=
  if N.eqb c (ch "&") then str "&amp;"
  else if N.eqb c (ch "<") then str "&lt;"
  else if N.eqb c (ch ">") then str "&gt;"
  else [c].

(** Text the replacements of [getExcerptText] have nothing to do with: no
    ampersand, less-than sign, hash mark, asterisk, backtick or opening
    square bracket. *)
Definition bare (s : jsstring) : bool :=
  lacks "&" s && lacks "<" s && lacks "#" s && lacks "*" s && lacks "`" s
  && lacks "[" s.

(** What stands between the angle brackets of a tag the theorem below
    covers: not empty, without greater-than sign and without ampersand. *)
Definition tag_text (tag : jsstring) : bool :=
  match tag with [] => false | _ => true end && lacks ">" tag && lacks "&" tag.

Definition bare_after_tag (span : jsstring * jsstring) : bool :=
  tag_text (fst span) && bare (snd span).

(** A request that fails, and the error [fetchAPI] throws for it: the
    reason of a rejected [fetch], or the error that carries the status of a
    response that is not ok. *)
Definition fails {T : Type} (answer : Net.Fetched T) (e : Net.exn) : Prop :=
  answer = Net.Rejected e
  \/ exists response,
       answer = Net.Responded response /\ Net.ok response = false
       /\ e = Net.Error (str "WordPress API error: " ++ dec (Net.status response)
                         ++ str " " ++ Net.statusText response).


(** * Sample backends and inputs *)

Module Samples.

Import Net.

Definition site : jsstring := str "https://example.com".

Definition no_posts : Response (list Wordpress.WPPost) :=
  {| ok := true; status := 200; statusText := str "OK";
     text := Return (str "[]"); json := Return [] |}.

Definition unavailable (T : Type) : Response T :=
  {| ok := false; status := 503; statusText := str "Service Unavailable";
     text := Return []; json := Throw (Error (str "Unexpected end of JSON input")) |}.

Definition answer {T : Type} (v : T) : Response T :=
  {| ok := true; status := 200; statusText := str "OK";
     text := Return []; json := Return v |}.

(** [toLowerCase] on the letters A to Z. *)
Definition ascii_lower (s : jsstring) : jsstring :=
  map (fun c => if between 65 90 c then (c + 32)%N else c) s.

Definition news : Publish.Category :=
  {| Publish.c_id := 7; Publish.c_name := str "News"; Publish.c_slug := str "news" |}.

Definition one_category : Publish.Backend :=
  {| Publish.posts_api := fun _ => Responded (unavailable _);
     Publish.categories_list_api := fun _ => Responded (answer [news]);
     Publish.categories_api := fun _ => Responded (unavailable _) |}.


(** The fenced block of the specification, wrapped in a paragraph. *)
Definition fenced_js : jsstring :=
  str "<p>```js" ++ [nl] ++ str "const x = 1;" ++ [nl] ++ str "```</p>".

(** The same block between tildes. *)
Definition fenced_tildes : jsstring :=
  str "<p>~~~" ++ [nl] ++ str "const x = 1;" ++ [nl] ++ str "~~~</p>".



(** 159 letters, a space and one more letter. *)
Definition long_excerpt : jsstring := repeat (ch "a") 159 ++ str " b".

Definition rejecting (T : Type) : Wordpress.Url -> Fetched T :=
  fun _ => Rejected (Error (str "fetch failed")).



Definition hello_post : Wordpress.WPPost :=
  {| Wordpress.id := 1; Wordpress.slug := str "hello";
     Wordpress.title := str "Hello"; Wordpress.content := str "<p>Hi</p>";
     Wordpress.excerpt := str "<p>  Hi &amp; welcome  </p>";
     Wordpress.date := str "2025-01-01T00:00:00"; Wordpress.modified := str "2025-01-01T00:00:00";
     Wordpress.featured_media := 0; Wordpress.categories := [4%N];
     Wordpress.tags := []; Wordpress.author := 1 |}.

(** A backend whose every answer is 503. *)
Definition down : Publish.Backend :=
  {| Publish.posts_api := fun _ => Responded (unavailable _);
     Publish.categories_list_api := fun _ => Responded (unavailable _);
     Publish.categories_api := fun _ => Responded (unavailable _) |}.

End Samples.

(** * Properties *)

Import Net.
Import Samples.

(** ** Strings *)

Lemma eqs_refl (a : jsstring) : eqs a a = true.
Proof.
  induction a as [|x a IH]; simpl; [reflexivity|].
  now rewrite N.eqb_refl, IH.
Qed.

Lemma eqs_eq (a b : jsstring) : eqs a b = true <-> a = b.
Proof.
  split; [|intros ->; apply eqs_refl].
  revert b; induction a as [|x a IH]; intros [|y b]; simpl; try discriminate; auto.
  intros H; apply andb_prop in H as [H1 H2].
  apply N.eqb_eq in H1; subst; f_equal; auto.
Qed.

(** ** The matcher *)

Lemma rep_blocked (g : bool) (p : char -> bool) (k : cont) :
  forall rs lo hi sn cs,
    match rs with [] => true | c :: _ => negb (p c) end = true ->
    lo <> 0 \/ k (MState sn rs cs) = None ->
    rep g p k lo hi sn rs cs = None.
Proof.
  intros rs lo hi sn cs Hhd Hk.
  destruct lo as [|lo].
  - destruct Hk as [Hk|Hk]; [congruence|].
    destruct rs as [|c rs]; simpl.
    + destruct hi as [[|h]|]; simpl; auto; destruct g; now rewrite ?Hk.
    + apply negb_true_iff in Hhd.
      destruct hi as [[|h]|]; simpl; auto; destruct g; now rewrite ?Hhd, ?Hk.
  - destruct rs as [|c rs]; simpl; [reflexivity|].
    apply negb_true_iff in Hhd. now rewrite Hhd.
Qed.

Lemma m_blocked (r : regex) :
  forall (k : cont) (st : mstate),
    starts r (rest st) = false ->
    nullable r = false \/ (forall st', rest st' = rest st -> k st' = None) ->
    m r k st = None.
Proof.
  induction r as [l|p|g lo hi p|a IHa b IHb|a IHa b IHb|a IHa|i a IHa|p|p|ml];
    intros k st Hs Hk; simpl.
  - destruct l as [|x l].
    + destruct Hk as [Hk|Hk]; [discriminate|]. simpl. now apply Hk.
    + simpl. destruct (rest st) as [|c rs]; [reflexivity|].
      simpl in Hs. now rewrite Hs.
  - destruct (rest st) as [|c rs]; [reflexivity|]. simpl in Hs. now rewrite Hs.
  - apply rep_blocked.
    + destruct (rest st) as [|c rs]; [reflexivity|]. simpl in Hs. now rewrite Hs.
    + destruct Hk as [Hk|Hk].
      * left. simpl in Hk. intros ->. discriminate.
      * right. now apply Hk.
  - apply IHa.
    + destruct (rest st) as [|c rs]; [reflexivity|]. simpl in Hs |- *.
      now apply orb_false_iff in Hs as [Hs _].
    + destruct (nullable a) eqn:Hna; [right|now left].
      intros st' Hst'. apply IHb.
      * rewrite Hst'. destruct (rest st) as [|c rs]; [reflexivity|].
        simpl in Hs |- *. apply orb_false_iff in Hs as [_ Hs].
        now rewrite Hna in Hs.
      * destruct Hk as [Hk|Hk].
        -- left. simpl in Hk. now rewrite Hna in Hk.
        -- right. intros st'' Hst''. apply Hk. congruence.
  - assert (Ha : starts a (rest st) = false /\ starts b (rest st) = false).
    { destruct (rest st) as [|c rs]; [now split|]. simpl in Hs |- *.
      now apply orb_false_iff in Hs. }
    destruct Ha as [Ha Hb].
    assert (Hk' : (nullable a = false /\ nullable b = false)
                  \/ (forall st', rest st' = rest st -> k st' = None)).
    { destruct Hk as [Hk|Hk]; [left|now right].
      simpl in Hk. now apply orb_false_iff in Hk. }
    rewrite IHa; [apply IHb; [exact Hb|] | exact Ha |].
    + destruct Hk' as [[_ H]|H]; auto.
    + destruct Hk' as [[H _]|H]; auto.
  - destruct Hk as [Hk|Hk]; [discriminate|].
    rewrite IHa; auto.
  - apply IHa; [exact Hs|].
    destruct Hk as [Hk|Hk]; [now left|right].
    intros st' Hst'. apply Hk. exact Hst'.
  - destruct Hk as [Hk|Hk]; [discriminate|].
    destruct (seen st) as [|c sn]; [now apply Hk|].
    destruct (p c); [reflexivity|now apply Hk].
  - destruct Hk as [Hk|Hk]; [discriminate|].
    destruct (rest st) as [|c sn] eqn:E; [now apply Hk|].
    destruct (p c); [reflexivity|now apply Hk].
  - destruct Hk as [Hk|Hk]; [discriminate|].
    destruct (seen st) as [|c sn]; [now apply Hk|].
    destruct (ml && is_line_terminator c); [now apply Hk|reflexivity].
Qed.

Lemma exec_blocked (r : regex) (sn rs : jsstring) :
  nullable r = false -> starts r rs = false -> exec r sn rs = None.
Proof.
  intros Hn Hs. unfold exec. apply m_blocked; [exact Hs|now left].
Qed.

(** ** Scanning *)

Lemma consumed_app (w s : jsstring) : consumed (w ++ s) s = w.
Proof.
  unfold consumed. rewrite length_app, Nat.add_sub.
  induction w as [|c w IH]; simpl; [now destruct s|now rewrite IH].
Qed.

Lemma rev_cons_app (c : char) (w sn : jsstring) : rev (c :: w) ++ sn = rev w ++ c :: sn.
Proof. simpl. now rewrite <- app_assoc. Qed.

Lemma scan_skip (r : regex) :
  forall w sn s, scan r sn (w ++ s) (length w) = scan r (rev w ++ sn) s 0.
Proof.
  induction w as [|c w IH]; intros sn s; [reflexivity|].
  rewrite rev_cons_app, <- IH. reflexivity.
Qed.

Lemma scan_hit (r : regex) (sn mt s : jsstring) (st : mstate) :
  exec r sn (mt ++ s) = Some st -> rest st = s -> mt <> [] ->
  scan r sn (mt ++ s) 0 = Hit mt (caps st) :: scan r (rev mt ++ sn) s 0.
Proof.
  intros He Hr Hm. destruct mt as [|c mt]; [contradiction|].
  rewrite <- scan_skip.
  change (scan r sn ((c :: mt) ++ s) 0)
    with (match exec r sn ((c :: mt) ++ s) with
          | Some st' =>
              Hit (consumed ((c :: mt) ++ s) (rest st')) (caps st') ::
              match length (consumed ((c :: mt) ++ s) (rest st')) with
              | O => Keep c :: scan r (c :: sn) (mt ++ s) 0
              | S n => scan r (c :: sn) (mt ++ s) n
              end
          | None => Keep c :: scan r (c :: sn) (mt ++ s) 0
          end).
  rewrite He, Hr, consumed_app. reflexivity.
Qed.

Lemma scan_miss (r : regex) (sn : jsstring) (c : char) (s : jsstring) :
  exec r sn (c :: s) = None -> scan r sn (c :: s) 0 = Keep c :: scan r (c :: sn) s 0.
Proof. intros He. simpl. now rewrite He. Qed.

Lemma scan_end (r : regex) (sn : jsstring) :
  exec r sn [] = None -> scan r sn [] 0 = [].
Proof. intros He. simpl. now rewrite He. Qed.

Lemma scan_pass (r : regex) :
  forall pre sn s,
    no_match_in r sn pre s ->
    scan r sn (pre ++ s) 0 = map Keep pre ++ scan r (rev pre ++ sn) s 0.
Proof.
  induction pre as [|c pre IH]; intros sn s H; [reflexivity|].
  change ((c :: pre) ++ s) with (c :: pre ++ s).
  rewrite scan_miss.
  - rewrite IH, rev_cons_app; [reflexivity|].
    intros p1 p2 E Hp2. rewrite <- rev_cons_app.
    apply H; [now rewrite E|exact Hp2].
  - apply (H [] (c :: pre)); [reflexivity|discriminate].
Qed.

Lemma no_match_in_first (r : regex) (sn pre s : jsstring) :
  nullable r = false ->
  forallb (fun c => negb (first r c)) pre = true ->
  no_match_in r sn pre s.
Proof.
  intros Hn Hf p1 p2 E Hp2. apply exec_blocked; [exact Hn|].
  destruct p2 as [|c p2]; [contradiction|]. simpl.
  rewrite forallb_forall in Hf. apply negb_true_iff, Hf.
  rewrite E. apply in_or_app. right. now left.
Qed.

Lemma exec_lit_none (l : jsstring) (r : regex) (sn rs : jsstring) :
  strip l rs = None -> exec (Seq (Lit l) r) sn rs = None.
Proof. intros H. unfold exec. simpl. now rewrite H. Qed.

Lemma occurs_cons (l : jsstring) (c : char) (s : jsstring) :
  occurs l (c :: s) = false -> strip l (c :: s) = None /\ occurs l s = false.
Proof.
  unfold occurs; fold occurs.
  destruct (strip l (c :: s)); [discriminate|now split].
Qed.

(** ** Replacing *)

Lemma fill_app (f : jsstring -> captures -> jsstring) (a b : list seg) :
  fill f (a ++ b) = fill f a ++ fill f b.
Proof.
  induction a as [|[c|mt cs] a IH]; simpl; [reflexivity| |]; rewrite IH;
    [reflexivity|now rewrite app_assoc].
Qed.

Lemma fill_keep (f : jsstring -> captures -> jsstring) (s : jsstring) :
  fill f (map Keep s) = s.
Proof. induction s as [|c s IH]; simpl; [reflexivity|now rewrite IH]. Qed.

Lemma subst_keep {A : Type} (f : A -> jsstring -> captures -> A * jsstring)
    (acc : A) (pre : jsstring) (segs : list seg) :
  subst f acc (map Keep pre ++ segs)
  = (fst (subst f acc segs), pre ++ snd (subst f acc segs)).
Proof.
  induction pre as [|c pre IH]; simpl; [now destruct (subst f acc segs)|].
  now rewrite IH.
Qed.

Lemma scan_nothing (r : regex) (sn s : jsstring) :
  no_match_in r sn s [] -> exec r (rev s ++ sn) [] = None ->
  scan r sn s 0 = map Keep s.
Proof.
  intros H He. rewrite <- (app_nil_r s) at 1.
  rewrite scan_pass, scan_end, app_nil_r; auto.
Qed.

Lemma no_match_in_absent (l : jsstring) (r : regex) :
  forall s sn, occurs l s = false -> no_match_in (Seq (Lit l) r) sn s [].
Proof.
  intros s sn Ho p1. revert s sn Ho.
  induction p1 as [|a p1 IH]; intros s sn Ho p2 E Hp2.
  - simpl in E. subst s. destruct p2 as [|c p2]; [contradiction|].
    rewrite app_nil_r. apply exec_lit_none. now apply occurs_cons in Ho.
  - subst s. apply occurs_cons in Ho as [_ Ho].
    rewrite rev_cons_app. now apply (IH (p1 ++ p2)).
Qed.

(** A regular expression that begins with a literal leaves a string without
    that literal as it is. *)
Lemma replace_absent (l : jsstring) (r : regex)
    (f : jsstring -> captures -> jsstring) (s : jsstring) :
  occurs l s = false -> replace (Seq (Lit l) r) f s = s.
Proof.
  intros Ho. unfold replace, segments.
  rewrite scan_nothing, fill_keep; [reflexivity| |].
  - now apply no_match_in_absent.
  - apply exec_lit_none. destruct l as [|x l]; [|reflexivity].
    now destruct s.
Qed.

(** One match, between two stretches without any. *)
Lemma scan_one (r : regex) (pre mt post : jsstring) (st : mstate) :
  no_match_in r [] pre (mt ++ post) ->
  exec r (rev pre) (mt ++ post) = Some st -> rest st = post -> mt <> [] ->
  no_match_in r (rev mt ++ rev pre) post [] ->
  exec r (rev post ++ rev mt ++ rev pre) [] = None ->
  segments r (pre ++ mt ++ post) = map Keep pre ++ Hit mt (caps st) :: map Keep post.
Proof.
  intros Hpre He Hr Hm Hpost Hend. unfold segments.
  rewrite scan_pass by exact Hpre.
  rewrite app_nil_r.
  rewrite (@scan_hit r _ mt post st He Hr Hm).
  now rewrite scan_nothing.
Qed.

(** ** Quantifiers *)

(** A greedy quantifier without upper bound takes the whole run when the
    continuation accepts what follows. *)
Lemma rep_greedy_all (p : char -> bool) (k : cont) :
  forall w lo sn rs cs r,
    forallb p w = true -> stops p rs = true -> lo <= length w ->
    k (MState (rev w ++ sn) rs cs) = Some r ->
    rep true p k lo None sn (w ++ rs) cs = Some r.
Proof.
  induction w as [|c w IH]; intros lo sn rs cs r Hw Hs Hlo Hk.
  - simpl in Hlo, Hk. assert (lo = 0) by lia. subst lo.
    destruct rs as [|d rs]; simpl; [now rewrite Hk|].
    simpl in Hs. apply negb_true_iff in Hs. now rewrite Hs, Hk.
  - simpl in Hw. apply andb_prop in Hw as [Hc Hw].
    rewrite rev_cons_app in Hk.
    destruct lo as [|lo]; simpl; rewrite Hc.
    + now rewrite (IH 0 (c :: sn) rs cs r Hw Hs (Nat.le_0_l _) Hk).
    + apply IH; auto. simpl in Hlo. lia.
Qed.

(** A lazy quantifier without upper bound stops at the first place where
    the continuation accepts. *)
Lemma rep_lazy_first (p : char -> bool) (k : cont) :
  forall w lo sn rs cs r,
    forallb p w = true -> lo <= length w ->
    (forall w1 w2, w = w1 ++ w2 -> w2 <> [] -> lo <= length w1 ->
                   k (MState (rev w1 ++ sn) (w2 ++ rs) cs) = None) ->
    k (MState (rev w ++ sn) rs cs) = Some r ->
    rep false p k lo None sn (w ++ rs) cs = Some r.
Proof.
  induction w as [|c w IH]; intros lo sn rs cs r Hw Hlo Hn Hk.
  - simpl in Hlo, Hk. assert (lo = 0) by lia. subst lo.
    destruct rs as [|d rs]; simpl; now rewrite Hk.
  - simpl in Hw. apply andb_prop in Hw as [Hc Hw].
    rewrite rev_cons_app in Hk.
    assert (Hn' : forall lo', lo <= S lo' ->
              forall w1 w2, w = w1 ++ w2 -> w2 <> [] -> lo' <= length w1 ->
                k (MState (rev w1 ++ c :: sn) (w2 ++ rs) cs) = None).
    { intros lo' Hlo' w1 w2 E Hw2 Hl. rewrite <- rev_cons_app.
      apply Hn; [now rewrite E|exact Hw2|simpl; lia]. }
    destruct lo as [|lo]; simpl.
    + assert (H0 := Hn [] (c :: w) eq_refl). simpl in H0.
      rewrite H0; [|discriminate|apply Nat.le_0_l].
      rewrite Hc. apply IH; auto using Nat.le_0_l.
      apply Hn'. lia.
    + rewrite Hc. apply IH; auto; [simpl in Hlo; lia|].
      apply Hn'. lia.
Qed.

(** An exact count. *)
Lemma rep_exact (g : bool) (p : char -> bool) (k : cont) :
  forall w sn rs cs,
    forallb p w = true ->
    rep g p k (length w) (Some (length w)) sn (w ++ rs) cs
    = k (MState (rev w ++ sn) rs cs).
Proof.
  induction w as [|c w IH]; intros sn rs cs Hw.
  - destruct rs; reflexivity.
  - simpl in Hw. apply andb_prop in Hw as [Hc Hw].
    rewrite rev_cons_app, <- IH by exact Hw. simpl. now rewrite Hc.
Qed.

(** Fewer characters of the class than the lower bound. *)
Lemma rep_short (g : bool) (p : char -> bool) (k : cont) :
  forall w lo hi sn rs cs,
    forallb p w = true -> stops p rs = true -> length w < lo ->
    rep g p k lo hi sn (w ++ rs) cs = None.
Proof.
  induction w as [|c w IH]; intros lo hi sn rs cs Hw Hs Hlo.
  - apply rep_blocked; [exact Hs|left; simpl in Hlo; lia].
  - simpl in Hw. apply andb_prop in Hw as [Hc Hw].
    destruct lo as [|lo]; [simpl in Hlo; lia|]. simpl. rewrite Hc.
    apply IH; auto. simpl in Hlo. lia.
Qed.

(** ** Equations of the matcher *)

Lemma strip_app (l s : jsstring) : strip l (l ++ s) = Some s.
Proof. induction l as [|x l IH]; simpl; [reflexivity|now rewrite N.eqb_refl]. Qed.

Lemma m_lit (l : jsstring) (k : cont) (sn rs : jsstring) (cs : captures) :
  m (Lit l) k (MState sn (l ++ rs) cs) = k (MState (rev l ++ sn) rs cs).
Proof. simpl. now rewrite strip_app. Qed.

Lemma m_seq (a b : regex) (k : cont) (st : mstate) :
  m (Seq a b) k st = m a (m b k) st.
Proof. reflexivity. Qed.

Lemma m_group_rep (i : nat) (g : bool) (lo : nat) (hi : option nat)
    (p : char -> bool) (k : cont) (sn rs : jsstring) (cs : captures) :
  m (Group i (Rep g lo hi p)) k (MState sn rs cs)
  = rep g p (fun st' => k (MState (seen st') (rest st')
                             ((i, consumed rs (rest st')) :: caps st')))
      lo hi sn rs cs.
Proof. reflexivity. Qed.

Lemma m_rep (g : bool) (lo : nat) (hi : option nat) (p : char -> bool)
    (k : cont) (sn rs : jsstring) (cs : captures) :
  m (Rep g lo hi p) k (MState sn rs cs) = rep g p k lo hi sn rs cs.
Proof. reflexivity. Qed.

Lemma lacks_app (a : ascii) (s t : jsstring) :
  lacks a (s ++ t) = lacks a s && lacks a t.
Proof. apply forallb_app. Qed.

Lemma exec_inline_code (sn code post : jsstring) :
  code <> [] -> lacks "`" code = true ->
  exec Wordpress.re_inline_code sn (str "`" ++ code ++ str "`" ++ post)
  = Some (MState (ch "`" :: rev code ++ ch "`" :: sn) post [(1, code)]).
Proof.
  intros Hne Hl. unfold exec, Wordpress.re_inline_code.
  cbn [m str map list_ascii_of_string app strip rest seen caps rev].
  rewrite N.eqb_refl.
  apply rep_greedy_all; auto.
  - destruct code; [contradiction|simpl; lia].
  - cbn [rest seen caps strip]. rewrite N.eqb_refl.
    now rewrite consumed_app.
Qed.

Lemma forallb_impl (p q : char -> bool) (s : jsstring) :
  (forall c, p c = true -> q c = true) -> forallb p s = true -> forallb q s = true.
Proof.
  intros H. induction s as [|c s IH]; simpl; [reflexivity|].
  intros Hs. apply andb_prop in Hs as [Hc Hs]. now rewrite (H c Hc), IH.
Qed.

Lemma plain_parts (s : jsstring) :
  plain s = true ->
  lacks "`" s = true /\ lacks "*" s = true /\ lacks "_" s = true
  /\ quiet marker s = true.
Proof.
  unfold plain. intros H.
  apply andb_prop in H as [H H4]. apply andb_prop in H as [H H3].
  apply andb_prop in H as [H1 H2]. auto.
Qed.

(** A regular expression whose matches all start with the character [a]. *)
Lemma no_match_in_lacks (a : ascii) (r : regex) (sn pre s : jsstring) :
  nullable r = false ->
  (forall c, first r c = true -> N.eqb c (ch a) = true) ->
  lacks a pre = true ->
  no_match_in r sn pre s.
Proof.
  intros Hn Hf Hl. apply no_match_in_first; [exact Hn|].
  apply (forallb_impl (not_ch a)); [|exact Hl].
  intros c Hc. unfold not_ch in Hc. apply negb_true_iff in Hc.
  destruct (first r c) eqn:E; [|reflexivity].
  apply Hf in E. congruence.
Qed.

Lemma replace_lacks (a : ascii) (r : regex)
    (f : jsstring -> captures -> jsstring) (s : jsstring) :
  nullable r = false ->
  (forall c, first r c = true -> N.eqb c (ch a) = true) ->
  lacks a s = true ->
  replace r f s = s.
Proof.
  intros Hn Hf Hl. unfold replace, segments.
  rewrite scan_nothing, fill_keep; [reflexivity| |].
  - now apply (no_match_in_lacks a).
  - now apply exec_blocked.
Qed.

(** ** Quiet text *)

Lemma quiet_cons (trig : char -> bool) (c : char) (s : jsstring) :
  quiet trig (c :: s) = true -> calm trig (c :: s) = true /\ quiet trig s = true.
Proof. intros H. now apply andb_prop in H. Qed.

(** At the seam of a quiet text and a text apart. *)
Lemma calm_seam (trig : char -> bool) (a b : jsstring) :
  a <> [] -> calm trig a = true -> apart trig b = true -> calm trig (a ++ b) = true.
Proof.
  intros Ha Hc Hb. unfold calm in *.
  destruct a as [|x [|y [|z [|w a]]]]; [contradiction| | | |]; simpl in Hc |- *.
  - destruct (N.eqb x 60); [|reflexivity].
    destruct b as [|d b]; [reflexivity|]. simpl in Hb.
    apply andb_prop in Hb as [Hb _]. apply andb_prop in Hb as [Hb _].
    unfold is_ch in Hb. apply negb_true_iff in Hb. simpl in Hb. now rewrite Hb.
  - destruct (N.eqb x 60); [|reflexivity].
    destruct (N.eqb y 112); [|reflexivity].
    destruct b as [|d b]; [reflexivity|]. simpl in Hb.
    apply andb_prop in Hb as [Hb _]. apply andb_prop in Hb as [_ Hb].
    unfold is_ch in Hb. apply negb_true_iff in Hb. simpl in Hb. now rewrite Hb.
  - destruct (N.eqb x 60); [|reflexivity].
    destruct (N.eqb y 112); [|reflexivity].
    destruct (N.eqb z 62); [|reflexivity].
    destruct b as [|d b]; [reflexivity|]. simpl in Hb.
    now apply andb_prop in Hb as [_ Hb].
  - destruct (N.eqb x 60); [|reflexivity].
    destruct (N.eqb y 112); [|reflexivity].
    destruct (N.eqb z 62); [|reflexivity]. exact Hc.
Qed.

Lemma quiet_app (trig : char -> bool) (a b : jsstring) :
  quiet trig a = true -> quiet trig b = true -> apart trig b = true ->
  quiet trig (a ++ b) = true.
Proof.
  intros Ha Hb Hab. induction a as [|c a IH]; [exact Hb|].
  apply quiet_cons in Ha as [Hc Ha].
  change (calm trig ((c :: a) ++ b) && quiet trig (a ++ b) = true).
  rewrite (calm_seam trig (c :: a) b); auto. discriminate.
Qed.

Lemma quiet_absent (trig : char -> bool) (s : jsstring) :
  occurs (str "<p>") s = false -> quiet trig s = true.
Proof.
  induction s as [|c s IH]; intros H; [reflexivity|].
  apply occurs_cons in H as [H1 H2].
  change (calm trig (c :: s) && quiet trig s = true).
  unfold calm. rewrite H1. now apply IH.
Qed.

Lemma quiet_weaken (trig trig' : char -> bool) (s : jsstring) :
  (forall c, trig' c = true -> trig c = true) ->
  quiet trig s = true -> quiet trig' s = true.
Proof.
  intros Hw. induction s as [|c s IH]; intros H; [reflexivity|].
  apply quiet_cons in H as [H1 H2].
  change (calm trig' (c :: s) && quiet trig' s = true).
  rewrite (IH H2), andb_true_r. unfold calm in *.
  destruct (strip (str "<p>") (c :: s)) as [[|d s']|]; auto.
  apply negb_true_iff in H1. apply negb_true_iff.
  destruct (trig' d) eqn:E; [|reflexivity]. apply Hw in E. congruence.
Qed.

Lemma quiet_suffix (trig : char -> bool) (p1 p2 : jsstring) :
  quiet trig (p1 ++ p2) = true -> quiet trig p2 = true.
Proof.
  induction p1 as [|c p1 IH]; intros H; [exact H|].
  apply IH. now apply quiet_cons in H.
Qed.

(** A pattern that begins with the opening paragraph tag and goes on with
    a character of [trig] does not match on a calm text. *)
Lemma exec_calm (trig : char -> bool) (r : regex) (sn s : jsstring) :
  nullable r = false -> (forall c, first r c = true -> trig c = true) ->
  calm trig s = true ->
  exec (Seq (Lit (str "<p>")) r) sn s = None.
Proof.
  intros Hn Hf Hc. unfold exec. rewrite m_seq.
  unfold calm in Hc. cbn [m rest seen caps].
  destruct (strip (str "<p>") s) as [s'|]; [|reflexivity].
  apply m_blocked; [|now left]. cbn [rest].
  destruct s' as [|d s']; [reflexivity|]. cbn [starts].
  apply negb_true_iff in Hc.
  destruct (first r d) eqn:E; [|reflexivity]. apply Hf in E. congruence.
Qed.

Lemma no_match_in_quiet (trig : char -> bool) (r : regex) (sn pre s : jsstring) :
  nullable r = false -> (forall c, first r c = true -> trig c = true) ->
  quiet trig pre = true -> apart trig s = true ->
  no_match_in (Seq (Lit (str "<p>")) r) sn pre s.
Proof.
  intros Hn Hf Hq Hs p1 p2 E Hp2. subst pre.
  apply quiet_suffix in Hq.
  apply (exec_calm trig); auto.
  apply calm_seam; auto.
  destruct p2 as [|c p2]; [contradiction|]. now apply quiet_cons in Hq.
Qed.

Lemma scan_quiet (trig : char -> bool) (r : regex) (sn s : jsstring) :
  nullable r = false -> (forall c, first r c = true -> trig c = true) ->
  quiet trig s = true ->
  scan (Seq (Lit (str "<p>")) r) sn s 0 = map Keep s.
Proof.
  intros Hn Hf Hq. apply scan_nothing; [|reflexivity].
  now apply (no_match_in_quiet trig).
Qed.

Lemma replace_quiet (trig : char -> bool) (r : regex)
    (f : jsstring -> captures -> jsstring) (s : jsstring) :
  nullable r = false -> (forall c, first r c = true -> trig c = true) ->
  quiet trig s = true ->
  replace (Seq (Lit (str "<p>")) r) f s = s.
Proof.
  intros Hn Hf Hq. unfold replace, segments.
  now rewrite (scan_quiet trig), fill_keep.
Qed.

(** ** The passes on text they have nothing to do with *)

Lemma quiet_hash (s : jsstring) : quiet marker s = true -> quiet (is_ch "#") s = true.
Proof.
  apply quiet_weaken. intros c H. unfold marker. now rewrite H.
Qed.

Lemma headings_inert (s : jsstring) :
  quiet (is_ch "#") s = true -> Wordpress.headings s = s.
Proof.
  intros H. unfold Wordpress.headings, Wordpress.re_heading.
  rewrite !(replace_quiet (is_ch "#") _ _ s); auto;
    intros c; cbn [first nullable Nat.eqb andb]; now rewrite orb_false_r.
Qed.

Lemma first_star (r : regex) :
  r = Wordpress.re_bold \/ r = Wordpress.re_italic ->
  nullable r = false /\ forall c, first r c = true -> N.eqb c (ch "*") = true.
Proof.
  intros [-> | ->]; (split; [reflexivity|]); intros c; cbn;
    rewrite ?orb_false_r; auto.
Qed.

Lemma emphasis_inert (s : jsstring) :
  lacks "*" s = true -> Wordpress.emphasis s = s.
Proof.
  intros H. unfold Wordpress.emphasis.
  rewrite (replace_lacks "*" Wordpress.re_bold); auto; try apply first_star; auto.
  rewrite (replace_lacks "*" Wordpress.re_italic); auto; apply first_star; auto.
Qed.

Lemma strip_app_split (l l' : jsstring) :
  forall s, strip (l ++ l') s
            = match strip l s with
              | Some s' => strip l' s'
              | None => None
              end.
Proof.
  induction l as [|x l IH]; intros s; simpl; [reflexivity|].
  destruct s as [|y s]; [reflexivity|]. destruct (N.eqb y x); [apply IH|reflexivity].
Qed.

(** A literal in two parts. *)
Lemma exec_lit_app (l l' : jsstring) (r : regex) (sn s : jsstring) :
  exec (Seq (Lit (l ++ l')) r) sn s = exec (Seq (Lit l) (Seq (Lit l') r)) sn s.
Proof.
  unfold exec. cbn [m rest seen caps]. rewrite strip_app_split.
  destruct (strip l s) as [s'|]; [|reflexivity].
  destruct (strip l' s') as [s''|]; [|reflexivity].
  now rewrite rev_app_distr, <- app_assoc.
Qed.

Lemma scan_ext (r r' : regex) :
  (forall sn s, exec r sn s = exec r' sn s) ->
  forall s sn skip, scan r sn s skip = scan r' sn s skip.
Proof.
  intros H. induction s as [|c s IH]; intros sn skip.
  - destruct skip; simpl; [now rewrite H|reflexivity].
  - destruct skip as [|n]; simpl; [|apply IH].
    rewrite H. destruct (exec r' sn (c :: s)) as [st|].
    + f_equal. destruct (length (consumed (c :: s) (rest st))); [f_equal|]; apply IH.
    + f_equal. apply IH.
Qed.

Lemma first_marker (r : regex) :
  In r [ Seq (Group 1 (Seq (Lit (str "```")) (Seq (Rep false 0 None any) (Lit (str "```")))))
             (Lit (str "</p>"));
         Seq (Group 1 (Seq (Lit (str "~~~")) (Seq (Rep false 0 None any) (Lit (str "~~~")))))
             (Lit (str "</p>"));
         Seq (Lit (str "&gt;"))
             (Seq (Rep true 0 None is_space)
                (Seq (Group 1 (Rep false 1 None dot)) (Lit (str "</p>"))));
         Seq (Rep true 3 None (one_of (str "-*_"))) (Lit (str "</p>"));
         Seq (Group 1 (Seq (Rep true 1 None is_digit)
                         (Seq (Lit (str ".")) (Seq (Rep true 1 None is_space)
                                                 (Rep false 0 None any)))))
             (Lit (str "</p>"));
         Seq (Group 1 (Seq (Cls (one_of (str "-*")))
                         (Seq (Rep true 1 None is_space) (Rep false 0 None any))))
             (Lit (str "</p>")) ] ->
  nullable r = false /\ forall c, first r c = true -> marker c = true.
Proof.
  intros H. repeat (destruct H as [<-|H]); try contradiction;
    (split; [reflexivity|]); intros c; unfold marker;
    cbn [first nullable Nat.eqb andb orb];
    rewrite ?orb_false_r; intros Hc.
  - assert (E : is_ch "`" c = true) by exact Hc. now rewrite E, !orb_true_r.
  - assert (E : is_ch "~" c = true) by exact Hc. now rewrite E, !orb_true_r.
  - assert (E : is_ch "&" c = true) by exact Hc. now rewrite E, !orb_true_r.
  - now rewrite Hc, !orb_true_r.
  - now rewrite Hc, !orb_true_r.
  - assert (E : one_of (str "-*_") c = true).
    { unfold one_of in *. simpl in Hc |- *.
      destruct (N.eqb c 45); [reflexivity|]. destruct (N.eqb c 42); [reflexivity|].
      discriminate. }
    now rewrite E, !orb_true_r.
Qed.

Lemma blocks_inert (s : jsstring) :
  quiet marker s = true -> lacks "`" s = true -> Wordpress.blocks s = s.
Proof.
  intros Hq Hb.
  assert (Hr : forall r f,
             nullable r = false /\ (forall c, first r c = true -> marker c = true) ->
             replace (Seq (Lit (str "<p>")) r) f s = s).
  { intros r f [Hn Hf]. now apply (replace_quiet marker). }
  unfold Wordpress.blocks.
  unfold Wordpress.re_wrapped_fence, Wordpress.re_blockquote, Wordpress.re_rule,
    Wordpress.re_ol, Wordpress.re_ul.
  rewrite !Hr by (apply first_marker; simpl; tauto).
  rewrite (replace_lacks "`" Wordpress.re_fence); auto;
    [|intros c; cbn; rewrite ?orb_false_r; auto].
  assert (Hbq : forall r f,
             replace (Seq (Lit (str "<p>&gt;")) r) f s
             = replace (Seq (Lit (str "<p>")) (Seq (Lit (str "&gt;")) r)) f s).
  { intros r f. unfold replace, segments. f_equal. apply scan_ext.
    intros sn x. apply (exec_lit_app (str "<p>") (str "&gt;")). }
  rewrite Hbq.
  rewrite !Hr by (apply first_marker; simpl; tauto).
  reflexivity.
Qed.

(** ** Inline code spans *)

Lemma exec_placeholder (sn digits post : jsstring) :
  digits <> [] -> forallb is_digit digits = true ->
  exists sn',
    exec Wordpress.re_placeholder sn (str "__CODE_BLOCK_" ++ digits ++ str "__" ++ post)
    = Some (MState sn' post [(1, digits)]).
Proof.
  intros Hne Hd. eexists. unfold exec, Wordpress.re_placeholder.
  rewrite m_seq, m_lit, m_seq, m_group_rep.
  apply rep_greedy_all; auto.
  - destruct digits; [contradiction|simpl; lia].
  - cbn [seen rest caps]. rewrite m_lit, consumed_app. reflexivity.
Qed.


Lemma replace_one (r : regex) (f : jsstring -> captures -> jsstring)
    (pre mt post : jsstring) (cs : captures) :
  segments r (pre ++ mt ++ post) = map Keep pre ++ Hit mt cs :: map Keep post ->
  replace r f (pre ++ mt ++ post) = pre ++ f mt cs ++ post.
Proof.
  intros H. unfold replace. rewrite H, fill_app, fill_keep. simpl.
  now rewrite fill_keep.
Qed.


Lemma segments_placeholder (pre digits post : jsstring) :
  lacks "_" pre = true -> lacks "_" post = true ->
  digits <> [] -> forallb is_digit digits = true ->
  segments Wordpress.re_placeholder
    (pre ++ (str "__CODE_BLOCK_" ++ digits ++ str "__") ++ post)
  = map Keep pre
    ++ Hit (str "__CODE_BLOCK_" ++ digits ++ str "__") [(1, digits)] :: map Keep post.
Proof.
  intros Hpre Hpost Hne Hd.
  assert (Hf : forall c, first Wordpress.re_placeholder c = true ->
                         N.eqb c (ch "_") = true).
  { intros c. cbn. now rewrite orb_false_r. }
  destruct (@exec_placeholder (rev pre) digits post Hne Hd) as [sn' He].
  eapply (@scan_one Wordpress.re_placeholder pre
            (str "__CODE_BLOCK_" ++ digits ++ str "__") post
            (MState sn' post [(1, digits)])).
  - now apply (@no_match_in_lacks "_").
  - rewrite <- !app_assoc. exact He.
  - reflexivity.
  - discriminate.
  - now apply (@no_match_in_lacks "_").
  - now apply exec_blocked.
Qed.

Lemma protect_inert (s : jsstring) :
  lacks "`" s = true ->
  replace_with Wordpress.re_inline_code Wordpress.protect [] s = ([], s).
Proof.
  intros H. unfold replace_with, segments.
  rewrite scan_nothing.
  - rewrite <- (app_nil_r (map Keep s)), subst_keep. simpl. now rewrite app_nil_r.
  - apply (no_match_in_lacks "`"); [reflexivity| |exact H].
    intros c. cbn. now rewrite orb_false_r.
  - reflexivity.
Qed.

Lemma first_placeholder (c : char) :
  first Wordpress.re_placeholder c = true -> N.eqb c (ch "_") = true.
Proof. cbn. now rewrite orb_false_r. Qed.

Lemma placeholder_inert (codeBlocks : list jsstring) (s : jsstring) :
  lacks "_" s = true ->
  replace Wordpress.re_placeholder (Wordpress.restore codeBlocks) s = s.
Proof.
  intros H. apply (replace_lacks "_"); [reflexivity|apply first_placeholder|exact H].
Qed.

Lemma processContent_unfold (s : jsstring) :
  lacks "`" s = true ->
  Wordpress.processContent s
  = Wordpress.blocks
      (replace Wordpress.re_placeholder (Wordpress.restore [])
         (Wordpress.emphasis (Wordpress.headings s))).
Proof.
  intros H. unfold Wordpress.processContent. now rewrite protect_inert.
Qed.

Lemma finish_inert (codeBlocks : list jsstring) (s : jsstring) :
  lacks "_" s = true -> lacks "`" s = true -> quiet marker s = true ->
  Wordpress.blocks (replace Wordpress.re_placeholder (Wordpress.restore codeBlocks) s)
  = s.
Proof.
  intros H1 H2 H3. rewrite placeholder_inert by exact H1. now apply blocks_inert.
Qed.

(** A stretch [open ++ text ++ close] set in quiet text. *)
Lemma wrapped_quiet (trig : char -> bool) (open close pre text post : jsstring) :
  (forall s, apart trig (open ++ s) = true) ->
  (forall s, quiet trig (open ++ s) = quiet trig s) ->
  (forall s, apart trig (close ++ s) = true) ->
  (forall s, quiet trig (close ++ s) = quiet trig s) ->
  quiet trig pre = true -> quiet trig post = true ->
  occurs (str "<p>") text = false ->
  quiet trig (pre ++ (open ++ text ++ close) ++ post) = true.
Proof.
  intros Ho1 Ho2 Hc1 Hc2 Hpre Hpost Ht.
  rewrite <- !app_assoc.
  apply quiet_app; [exact Hpre| |apply Ho1].
  rewrite Ho2.
  apply quiet_app; [now apply quiet_absent| |apply Hc1].
  now rewrite Hc2.
Qed.


(** ** Heading promotion *)


Lemma hashes_all (n : nat) : forallb (is_ch "#") (repeat (ch "#") n) = true.
Proof. induction n; simpl; auto. Qed.



Lemma strip_other (x : char) (l : jsstring) (c : char) (s : jsstring) :
  N.eqb c x = false -> strip (x :: l) (c :: s) = None.
Proof. intros H. simpl. now rewrite H. Qed.

Lemma m_lit_other (x : char) (l : jsstring) (k : cont) (sn : jsstring) (c : char)
    (rs : jsstring) (cs : captures) :
  N.eqb c x = false -> m (Lit (x :: l)) k (MState sn (c :: rs) cs) = None.
Proof. intros H. simpl. now rewrite H. Qed.



Lemma occurs_lacks_app (x : char) (l a s : jsstring) :
  forallb (fun c => negb (N.eqb c x)) a = true ->
  occurs (x :: l) (a ++ s) = occurs (x :: l) s.
Proof.
  induction a as [|c a IH]; intros H; [reflexivity|].
  simpl in H. apply andb_prop in H as [Hc H]. apply negb_true_iff in Hc.
  change ((c :: a) ++ s) with (c :: a ++ s).
  unfold occurs; fold occurs. rewrite (strip_other x l c (a ++ s) Hc). now apply IH.
Qed.

Lemma spaces_lack_lt (ws : jsstring) :
  forallb is_space ws = true -> lacks "<" ws = true.
Proof.
  apply forallb_impl. intros c H. unfold not_ch.
  destruct (N.eqb_spec c (ch "<")) as [->|]; [discriminate|reflexivity].
Qed.


Lemma occurs_lacks_nil (a : ascii) (l s : jsstring) :
  lacks a s = true -> occurs (ch a :: l) s = false.
Proof.
  intros H. rewrite <- (app_nil_r s).
  now rewrite (occurs_lacks_app (ch a) l s [] H).
Qed.

Lemma lacks_lt_quiet (trig : char -> bool) (s : jsstring) :
  lacks "<" s = true -> quiet trig s = true.
Proof.
  intros H. apply quiet_absent.
  change (str "<p>") with (ch "<" :: str "p>").
  rewrite <- (app_nil_r s). now rewrite (occurs_lacks_app (ch "<") _ s [] H).
Qed.


Lemma heading_led (k : nat) (r : regex) :
  k <> 0 ->
  nullable (Seq (Rep true k (Some k) (is_ch "#")) r) = false
  /\ forall c, first (Seq (Rep true k (Some k) (is_ch "#")) r) c = true ->
               is_ch "#" c = true.
Proof.
  intros Hk. destruct k as [|k]; [contradiction|]. split; [reflexivity|].
  intros c. cbn [first nullable Nat.eqb andb]. now rewrite orb_false_r.
Qed.



Lemma spaces_lack (a : ascii) (ws : jsstring) :
  is_space (ch a) = false -> forallb is_space ws = true -> lacks a ws = true.
Proof.
  intros Ha. apply forallb_impl. intros c H. unfold not_ch.
  destruct (N.eqb_spec c (ch a)) as [->|]; [congruence|reflexivity].
Qed.

Lemma hashes_lack (a : ascii) (n : nat) :
  N.eqb (ch "#") (ch a) = false -> lacks a (repeat (ch "#") n) = true.
Proof.
  intros H.
  assert (Hn : not_ch a (ch "#") = true) by (unfold not_ch; now rewrite H).
  induction n as [|n IH]; [reflexivity|].
  change (lacks a (repeat (ch "#") (S n)))
    with (not_ch a (ch "#") && lacks a (repeat (ch "#") n)).
  now rewrite Hn.
Qed.

Lemma hash_paragraph_lacks (a : ascii) (n : nat) (ws text : jsstring) :
  lacks a (str "<p>/") = true -> N.eqb (ch "#") (ch a) = false ->
  is_space (ch a) = false ->
  forallb is_space ws = true -> lacks a text = true ->
  lacks a (hash_paragraph n ws text) = true.
Proof.
  intros Hp Hh Hs Hws Ht. unfold hash_paragraph.
  rewrite !lacks_app, (hashes_lack a n Hh), (spaces_lack a ws Hs Hws), Ht.
  simpl in Hp |- *. repeat (apply andb_prop in Hp as [? Hp]).
  repeat (apply andb_true_intro; split); auto.
Qed.

Lemma replace_heading_quiet (k : nat) (f : jsstring -> captures -> jsstring)
    (s : jsstring) :
  k <> 0 -> quiet (is_ch "#") s = true -> replace (Wordpress.re_heading k) f s = s.
Proof.
  intros Hk H. unfold Wordpress.re_heading.
  apply (replace_quiet (is_ch "#")); auto; now apply heading_led.
Qed.



(** ** Emphasis *)



Lemma lacks_stops (a : ascii) (s : jsstring) :
  lacks a s = true -> stops (is_ch a) s = true.
Proof.
  destruct s as [|c s]; [reflexivity|]. simpl. intros H.
  now apply andb_prop in H as [H _].
Qed.

Lemma lacks_rev (a : ascii) (s : jsstring) : lacks a s = true -> lacks a (rev s) = true.
Proof.
  unfold lacks. rewrite !forallb_forall. intros H c Hc. apply H. now apply in_rev.
Qed.

Lemma nonempty_length (s : jsstring) : s <> [] -> 1 <= length s.
Proof. destruct s; [contradiction|simpl; lia]. Qed.

Lemma lacks_inside (a : ascii) (w1 : jsstring) (c : char) (w2 : jsstring) :
  lacks a (w1 ++ c :: w2) = true -> N.eqb c (ch a) = false.
Proof.
  rewrite lacks_app. intros H. apply andb_prop in H as [_ H]. simpl in H.
  apply andb_prop in H as [H _]. now apply negb_true_iff in H.
Qed.

Lemma exec_bold (sn text post : jsstring) :
  text <> [] -> forallb dot text = true -> lacks "*" text = true ->
  exists sn',
    exec Wordpress.re_bold sn (str "**" ++ text ++ str "**" ++ post)
    = Some (MState sn' post [(1, text)]).
Proof.
  intros Hne Hdot Hs. eexists. unfold exec, Wordpress.re_bold.
  rewrite m_seq, m_lit, m_seq, m_group_rep.
  apply rep_lazy_first; [exact Hdot|now apply nonempty_length| |].
  - intros w1 [|c w2] E Hw2 _; [contradiction|].
    cbn [seen rest caps].
    apply (m_lit_other (ch "*") (str "*")).
    subst text. exact (lacks_inside "*" w1 c w2 Hs).
  - cbn [seen rest caps]. rewrite m_lit, consumed_app. reflexivity.
Qed.


Lemma strip_second (x y : char) (l s : jsstring) :
  stops (fun c => N.eqb c y) s = true -> strip (x :: y :: l) (x :: s) = None.
Proof.
  intros H. simpl. rewrite N.eqb_refl. destruct s as [|c s]; [reflexivity|].
  simpl in H. apply negb_true_iff in H. now rewrite H.
Qed.

(** No two asterisks in a row around a text without asterisk. *)
Lemma single_stars (pre text post : jsstring) :
  lacks "*" pre = true -> lacks "*" post = true ->
  text <> [] -> lacks "*" text = true ->
  occurs (str "**") (pre ++ (str "*" ++ text ++ str "*") ++ post) = false.
Proof.
  intros Hpre Hpost Hne Ht.
  change (str "**") with (ch "*" :: ch "*" :: []).
  rewrite (occurs_lacks_app (ch "*") _ _ _ Hpre), <- !app_assoc.
  change (str "*" ++ text ++ str "*" ++ post)
    with (ch "*" :: text ++ ch "*" :: post).
  unfold occurs at 1; fold occurs.
  rewrite strip_second.
  2:{ destruct text as [|c text]; [contradiction|].
      apply (lacks_stops "*") in Ht. exact Ht. }
  rewrite (occurs_lacks_app (ch "*") _ _ _ Ht).
  unfold occurs at 1; fold occurs.
  rewrite strip_second by now apply (lacks_stops "*").
  now apply (occurs_lacks_nil "*").
Qed.



(** ** Underscores *)






Lemma quiet_lacks_app (trig : char -> bool) (a b : jsstring) :
  lacks "<" a = true -> quiet trig b = true -> quiet trig (a ++ b) = true.
Proof.
  intros Ha Hb. induction a as [|c a IH]; [exact Hb|].
  assert (Hc := lacks_inside "<" [] c a Ha).
  change (calm trig (c :: a ++ b) && quiet trig (a ++ b) = true).
  unfold calm. change (str "<p>") with (ch "<" :: str "p>").
  rewrite (strip_other (ch "<") (str "p>") c (a ++ b) Hc). simpl.
  apply IH. simpl in Ha. now apply andb_prop in Ha as [_ Ha].
Qed.




(** ** Excerpts: trimming and truncation *)

Lemma drop_space_suffix (s : jsstring) : exists p, s = p ++ drop_space s.
Proof.
  induction s as [|c s [p IH]]; [now exists []|]. simpl.
  destruct (is_space c); [|now exists []].
  exists (c :: p). simpl. now rewrite <- IH.
Qed.

Lemma drop_space_begins (s : jsstring) : begins_in_space (drop_space s) = false.
Proof.
  induction s as [|c s IH]; [reflexivity|]. simpl.
  destruct (is_space c) eqn:E; [exact IH|]. simpl. exact E.
Qed.

Lemma drop_space_id (s : jsstring) : begins_in_space s = false -> drop_space s = s.
Proof. destruct s as [|c s]; [reflexivity|]. simpl. now intros ->. Qed.

Lemma drop_space_shorter (s : jsstring) :
  begins_in_space s = true -> length (drop_space s) < length s.
Proof.
  destruct s as [|c s]; [discriminate|]. simpl. intros ->.
  destruct (drop_space_suffix s) as [p Hp]. rewrite Hp at 2.
  rewrite length_app. lia.
Qed.

Lemma length_drop_space (s : jsstring) : length (drop_space s) <= length s.
Proof.
  destruct (drop_space_suffix s) as [p Hp]. rewrite Hp at 2.
  rewrite length_app. lia.
Qed.

Lemma length_trim (s : jsstring) : length (trim s) <= length s.
Proof.
  unfold trim. rewrite length_rev.
  etransitivity; [apply length_drop_space|].
  rewrite length_rev. apply length_drop_space.
Qed.

Lemma trim_id (s : jsstring) :
  begins_in_space s = false -> ends_in_space s = false -> trim s = s.
Proof.
  intros Hb He. unfold trim.
  rewrite (drop_space_id s Hb), (drop_space_id (rev s) He). apply rev_involutive.
Qed.

Lemma trim_shorter (s : jsstring) :
  begins_in_space s = false -> ends_in_space s = true -> length (trim s) < length s.
Proof.
  intros Hb He. unfold trim.
  rewrite (drop_space_id s Hb), length_rev.
  rewrite <- (length_rev s). now apply drop_space_shorter.
Qed.

Lemma trim_begins (s : jsstring) : begins_in_space (trim s) = false.
Proof.
  unfold trim.
  assert (Hu := drop_space_begins s).
  destruct (drop_space_suffix (rev (drop_space s))) as [p Hp].
  set (u := drop_space s) in *. set (v := drop_space (rev u)) in *.
  assert (E : u = rev v ++ rev p).
  { rewrite <- (rev_involutive u), Hp, rev_app_distr. reflexivity. }
  destruct (rev v) as [|c w]; [reflexivity|].
  rewrite E in Hu. exact Hu.
Qed.

Lemma firstn_begins (n : nat) (s : jsstring) :
  begins_in_space s = false -> begins_in_space (firstn n s) = false.
Proof. destruct n, s; auto. Qed.

(** C3, as amended.  With [text] the cleaned input: when [text] is no
    longer than [maxLength] the result is [text] itself; when it is longer,
    the result is the first [maxLength] characters of [text], trimmed once
    more, followed by the three-character ellipsis: for a [maxLength] that
    is not negative its length is at most [maxLength + 3], and it is
    [maxLength + 3] exactly when the characters kept do not end in white
    space. *)
Theorem getExcerptText_truncation :
  forall (excerpt : jsstring) (maxLength : Z),
    (Z.of_nat (length (Wordpress.cleaned excerpt)) <= maxLength ->
     Wordpress.getExcerptText excerpt maxLength = Wordpress.cleaned excerpt)%Z
    /\ (maxLength < Z.of_nat (length (Wordpress.cleaned excerpt)) ->
        Wordpress.getExcerptText excerpt maxLength
        = trim (Wordpress.substring0 (Wordpress.cleaned excerpt) maxLength) ++ str "..."
        /\ (0 <= maxLength ->
            Z.of_nat (length (Wordpress.getExcerptText excerpt maxLength))
            <= maxLength + 3
            /\ (Z.of_nat (length (Wordpress.getExcerptText excerpt maxLength))
                = maxLength + 3
                <-> ends_in_space
                      (Wordpress.substring0 (Wordpress.cleaned excerpt) maxLength)
                    = false)))%Z.
Proof.
  intros excerpt maxLength. unfold Wordpress.getExcerptText.
  set (text := Wordpress.cleaned excerpt).
  split.
  - intros H. apply Z.leb_le in H. now rewrite H.
  - intros H. assert (Hgt := H). apply Z.leb_gt in H. rewrite H.
    split; [reflexivity|]. intros Hpos.
    set (kept := Wordpress.substring0 text maxLength).
    assert (Hlen : length kept = Z.to_nat maxLength).
    { unfold kept, Wordpress.substring0. apply firstn_length_le. lia. }
    assert (Hb : begins_in_space kept = false).
    { apply firstn_begins. apply trim_begins. }
    rewrite length_app. change (length (str "...")) with 3.
    assert (Hle := length_trim kept).
    split; [lia|].
    destruct (ends_in_space kept) eqn:He.
    + assert (Hlt := trim_shorter kept Hb He). split; [lia|discriminate].
    + rewrite (trim_id kept Hb He). split; [reflexivity|lia].
Qed.

(** ** What a match consumes *)

Lemma is_suffix_refl (s : jsstring) : is_suffix s s.
Proof. now exists []. Qed.

Lemma is_suffix_trans (a b c : jsstring) : is_suffix a b -> is_suffix b c -> is_suffix a c.
Proof. intros [p ->] [q ->]. exists (q ++ p). now rewrite app_assoc. Qed.

Lemma is_suffix_cons (c : char) (s : jsstring) : is_suffix s (c :: s).
Proof. now exists [c]. Qed.

Lemma strip_suffix (l : jsstring) : forall s s', strip l s = Some s' -> is_suffix s' s.
Proof.
  induction l as [|x l IH]; intros s s' H; simpl in H.
  - injection H as <-. apply is_suffix_refl.
  - destruct s as [|y s]; [discriminate|].
    destruct (N.eqb y x); [|discriminate].
    apply (is_suffix_trans _ s); [now apply IH|apply is_suffix_cons].
Qed.




(** ** Lists: anchored item patterns *)

Lemma search_anchored (r : regex) :
  forall s c sn, search (Seq (Bol false) r) (c :: sn) s = None.
Proof.
  induction s as [|d s IH]; intros c sn; simpl; [reflexivity|apply IH].
Qed.

Lemma search_anchored_start (r : regex) (s : jsstring) :
  search (Seq (Bol false) r) [] s
  = match exec (Seq (Bol false) r) [] s with
    | Some st => Some ([], st)
    | None => None
    end.
Proof.
  destruct s as [|c s]; unfold search; fold search.
  - now destruct (exec _ [] []).
  - destruct (exec _ [] (c :: s)); [reflexivity|apply search_anchored].
Qed.

Lemma test_anchored (r : regex) (line : jsstring) :
  test (Seq (Bol false) r) line
  = match without_prefix (Seq (Bol false) r) line with
    | Some _ => true
    | None => false
    end.
Proof.
  unfold test, without_prefix. rewrite search_anchored_start.
  now destruct (exec _ [] line).
Qed.

Lemma replace_first_anchored (r : regex) (line text : jsstring) :
  without_prefix (Seq (Bol false) r) line = Some text ->
  replace_first (Seq (Bol false) r) (Wordpress.const []) line = text.
Proof.
  unfold without_prefix, replace_first. rewrite search_anchored_start.
  destruct (exec _ [] line) as [st|]; [|discriminate].
  intros H. injection H as <-. reflexivity.
Qed.

Lemma list_items_anchored (r : regex) (lines : list jsstring) :
  map (fun it => str "<li>"
                 ++ replace_first (Seq (Bol false) r) (Wordpress.const []) it
                 ++ str "</li>")
      (filter (test (Seq (Bol false) r)) lines)
  = map (fun text => str "<li>" ++ text ++ str "</li>")
      (item_texts (Seq (Bol false) r) lines).
Proof.
  induction lines as [|line lines IH]; [reflexivity|].
  cbn [filter item_texts]. rewrite test_anchored.
  destruct (without_prefix _ line) as [text|] eqn:E; [|exact IH].
  cbn [map]. now rewrite IH, (replace_first_anchored r line text E).
Qed.

Lemma join_items_length (texts : list jsstring) :
  Nat.ltb 0 (length (join [nl] (map (fun text => str "<li>" ++ text ++ str "</li>") texts)))
  = match texts with [] => false | _ => true end.
Proof.
  destruct texts as [|t [|t' texts]]; reflexivity.
Qed.

Lemma list_rewrite (open close : jsstring) (r : regex) (mt : jsstring) :
  (let items := Wordpress.list_items (Seq (Bol false) r) mt in
   if Nat.ltb 0 (length items) then open ++ items ++ close else mt)
  = list_element open close (Seq (Bol false) r) mt.
Proof.
  unfold Wordpress.list_items, list_element. cbv zeta.
  rewrite list_items_anchored, join_items_length.
  now destruct (item_texts _ _).
Qed.




(** ** Concrete inputs *)



(** C2.  The fenced block of the specification: the first pass takes the
    third backtick of the opening fence for the start of an inline code
    span that ends at the closing fence, so no fence is left for the later
    passes and no [pre] element comes out; between tildes, the paragraph
    tag goes and nothing else happens. *)
Theorem fenced_block_taken_for_inline_code :
  Wordpress.processContent fenced_js
  = str "<p>``<code>js" ++ [nl] ++ str "const x = 1;" ++ [nl] ++ str "</code>``</p>"
  /\ occurs (str "<pre>") (Wordpress.processContent fenced_js) = false
  /\ Wordpress.processContent fenced_tildes
     = str "~~~" ++ [nl] ++ str "const x = 1;" ++ [nl] ++ str "~~~".
Proof. repeat split; vm_compute; reflexivity. Qed.

(** C3, counterexample.  The cleaned text has 161 characters, more than
    the default 160; the 160 kept end in a space, which the second [trim]
    removes: the result has 162 characters, not 163. *)
Lemma getExcerptText_shorter_after_trim :
  (Wordpress.default_maxLength
   < Z.of_nat (length (Wordpress.cleaned long_excerpt)))%Z
  /\ Z.of_nat (length (Wordpress.getExcerptText long_excerpt Wordpress.default_maxLength))
     <> (Wordpress.default_maxLength + 3)%Z.
Proof. split; vm_compute; [reflexivity|discriminate]. Qed.





(** ** The fetch client *)

Section ClientFacts.

Variable API : jsstring.
Variable fetch : Wordpress.Url -> Fetched (list Wordpress.WPPost).

(** C8.  When the backend answers the slug query with an empty list,
    [getPostBySlug] returns null, and does not throw; when the list is not
    empty it returns its first element. *)
Theorem getPostBySlug_first_or_null :
  forall (slug : jsstring) (response : Response (list Wordpress.WPPost))
         (posts : list Wordpress.WPPost),
    fetch (Wordpress.url_for API (str "posts") [(str "slug", slug)])
      = Responded response ->
    ok response = true ->
    json response = Return posts ->
    (posts = [] -> Wordpress.getPostBySlug API fetch slug = Return None)
    /\ (forall post others, posts = post :: others ->
          Wordpress.getPostBySlug API fetch slug = Return (Some post)).
Proof.
  intros slug response posts Hf Hok Hj.
  unfold Wordpress.getPostBySlug, Wordpress.fetchAPI.
  rewrite Hf, Hok, Hj; simpl.
  split; [intros ->; reflexivity | intros post others ->; reflexivity].
Qed.

(** C4.  When [fetch] rejects, or the backend answers with a status that
    is not a success, [getAllPostSlugs] returns the empty array and raises
    nothing; all that remains of the failure is one warning on the
    console. *)
Theorem getAllPostSlugs_degrades :
  (exists reason,
      fetch (Wordpress.url_for API (str "posts")
               [(str "per_page", str "100"); (str "_fields", str "slug")])
        = Rejected reason)
  \/ (exists response,
      fetch (Wordpress.url_for API (str "posts")
               [(str "per_page", str "100"); (str "_fields", str "slug")])
        = Responded response
      /\ ok response = false) ->
  exists error,
    Wordpress.getAllPostSlugs API fetch
      = (Return [],
         [Wordpress.Warn (str "Could not fetch post slugs from WordPress:") error]).
Proof.
  unfold Wordpress.getAllPostSlugs, Wordpress.fetchAPI.
  intros [[reason H] | [response [H Hok]]]; rewrite H.
  - now exists reason.
  - rewrite Hok; simpl. eexists; reflexivity.
Qed.

End ClientFacts.

Lemma getPostBySlug_first_or_null_witness :
  Wordpress.getPostBySlug site (fun _ => Responded no_posts) (str "hello") = Return None.
Proof.
  apply (@getPostBySlug_first_or_null site
           (fun _ => Responded no_posts) (str "hello") no_posts []);
    reflexivity.
Defined.

Lemma getAllPostSlugs_degrades_witness :
  exists error,
    Wordpress.getAllPostSlugs site (fun _ => Responded (unavailable _))
      = (Return [],
         [Wordpress.Warn (str "Could not fetch post slugs from WordPress:") error]).
Proof.
  apply (@getAllPostSlugs_degrades site (fun _ => Responded (unavailable _))).
  right; exists (unavailable _); split; reflexivity.
Defined.

(** ** The publishing client *)

Section PublishFacts.

Variables API USER PASSWORD : jsstring.
Variables base64 toLowerCase : jsstring -> jsstring.
Variable backend : Publish.Backend.

Let list_request : Publish.Request :=
  Publish.request_for API USER PASSWORD base64
    (str "categories?per_page=100") Publish.no_options.

Let create_request (name : jsstring) : Publish.Request :=
  Publish.request_for API USER PASSWORD base64 (str "categories")
    {| Publish.method := Some (str "POST");
       Publish.body := Some (Publish.object [(str "name", Publish.quote name)]);
       Publish.headers := [] |}.

(** C5.  When the list [getCategories] returns holds an entry whose name
    equals the requested one up to case, [getOrCreateCategory] returns the
    id of such an entry (the first) and the only request issued is the
    listing; when it holds none, the creation request follows and the id
    returned is the one of the category created. *)
Theorem getOrCreateCategory_looks_up_first :
  forall (name : jsstring) (trace : list Publish.Request)
         (response : Response (list Publish.Category))
         (categories : list Publish.Category),
    Publish.categories_list_api backend list_request = Responded response ->
    ok response = true ->
    json response = Return categories ->
    ((exists cat, In cat categories
                  /\ toLowerCase (Publish.c_name cat) = toLowerCase name) ->
     exists cat, In cat categories
                 /\ toLowerCase (Publish.c_name cat) = toLowerCase name
                 /\ Publish.getOrCreateCategory API USER PASSWORD base64 toLowerCase
                      backend name trace
                    = (Return (Publish.c_id cat), trace ++ [list_request]))
    /\ ((forall cat, In cat categories ->
                     toLowerCase (Publish.c_name cat) <> toLowerCase name) ->
        Publish.getOrCreateCategory API USER PASSWORD base64 toLowerCase
          backend name trace
        = match Publish.createCategory API USER PASSWORD base64 backend name
                  (trace ++ [list_request]) with
          | (Return created, trace') => (Return (Publish.c_id created), trace')
          | (Throw e, trace') => (Throw e, trace')
          end
        /\ snd (Publish.getOrCreateCategory API USER PASSWORD base64 toLowerCase
                  backend name trace)
           = trace ++ [list_request; create_request name]).
Proof.
  intros name trace response categories Hf Hok Hj.
  assert (Hlist : Publish.getCategories API USER PASSWORD base64 backend trace
                  = (Return categories, trace ++ [list_request])).
  { unfold Publish.getCategories, Publish.wpFetch.
    fold list_request. now rewrite Hf, Hok, Hj. }
  unfold Publish.getOrCreateCategory, Publish.bind.
  rewrite Hlist.
  split.
  - intros [cat [Hin Heq]].
    destruct (find _ categories) as [found|] eqn:Hfind.
    + apply find_some in Hfind as [Hin' Heq'].
      apply eqs_eq in Heq'.
      exists found; repeat split; auto.
    + exfalso.
      apply (find_none _ _ Hfind) in Hin.
      simpl in Hin. rewrite Heq, eqs_refl in Hin. discriminate.
  - intros Hnone.
    destruct (find _ categories) as [found|] eqn:Hfind.
    + apply find_some in Hfind as [Hin' Heq'].
      apply eqs_eq in Heq'. now apply Hnone in Hin'.
    + split.
      * destruct (Publish.createCategory _ _ _ _ _ _ _) as [[created|e] trace'];
          reflexivity.
      * unfold Publish.createCategory, Publish.wpFetch.
        fold (create_request name).
        rewrite <- app_assoc; simpl.
        destruct (Publish.categories_api backend (create_request name)) as [r|resp];
          [reflexivity|].
        destruct (ok resp); simpl.
        -- destruct (json resp); reflexivity.
        -- destruct (text resp); reflexivity.
Qed.

(** C10.  [publishPost(id)] is [updatePost({ id, status: 'publish' })]:
    one request, to [posts/:id], with the method POST and a body that
    holds the status [publish] and nothing else, and the same result. *)
Theorem publishPost_is_updatePost :
  forall (id : N) (trace : list Publish.Request),
    Publish.publishPost API USER PASSWORD base64 backend id trace
    = Publish.updatePost API USER PASSWORD base64 backend
        {| Publish.id := id; Publish.data := [Publish.p_status Publish.publish] |} trace
    /\ snd (Publish.publishPost API USER PASSWORD base64 backend id trace)
       = trace ++
         [ {| Publish.url := API ++ str "/wp-json/wp/v2/" ++ str "posts/" ++ dec id;
              Publish.init :=
                {| Publish.method := Some (str "POST");
                   Publish.body :=
                     Some (str "{" ++ [dquote] ++ str "status" ++ [dquote] ++ str ":"
                           ++ [dquote] ++ str "publish" ++ [dquote] ++ str "}");
                   Publish.headers :=
                     [(str "Content-Type", str "application/json");
                      (str "Authorization",
                       Publish.getAuthHeader USER PASSWORD base64)] |} |} ].
Proof.
  intros id trace; split; [reflexivity|].
  unfold Publish.publishPost, Publish.updatePost, Publish.wpFetch.
  match goal with
  | |- context [Publish.posts_api backend ?r] =>
      destruct (Publish.posts_api backend r) as [reason|resp]
  end; [reflexivity|].
  destruct (negb (ok resp)); [destruct (text resp)|]; reflexivity.
Qed.

End PublishFacts.

Lemma getOrCreateCategory_looks_up_first_witness :
  exists cat,
    In cat [news]
    /\ ascii_lower (Publish.c_name cat) = ascii_lower (str "NEWS")
    /\ Publish.getOrCreateCategory site (str "admin") (str "s3 cr3t") (fun s => s)
         ascii_lower one_category (str "NEWS") []
       = (Return (Publish.c_id cat),
          [] ++ [Publish.request_for site (str "admin") (str "s3 cr3t") (fun s => s)
                   (str "categories?per_page=100") Publish.no_options]).
Proof.
  apply (@getOrCreateCategory_looks_up_first site (str "admin") (str "s3 cr3t")
           (fun s => s) ascii_lower one_category (str "NEWS") [] (answer [news]) [news]);
    try reflexivity.
  exists news; split; [left; reflexivity | reflexivity].
Defined.

(** * Further properties *)

(** ** Text without Markdown *)

(** X1.  Content the passes have nothing to do with comes out as it went
    in: no backtick, asterisk or underscore, and no paragraph that opens
    with a marker. *)
Theorem processContent_leaves_plain_text :
  forall content : jsstring,
    plain content = true -> Wordpress.processContent content = content.
Proof.
  intros s H. apply plain_parts in H as (H1 & H2 & H3 & H4).
  rewrite processContent_unfold by exact H1.
  rewrite headings_inert by now apply quiet_hash.
  rewrite emphasis_inert by exact H2.
  now apply finish_inert.
Qed.

Lemma processContent_leaves_plain_text_witness :
  Wordpress.processContent (str "<p>Hello, <b>world</b> &amp; all - 1. 2.</p><hr>")
  = str "<p>Hello, <b>world</b> &amp; all - 1. 2.</p><hr>".
Proof.
  apply (processContent_leaves_plain_text
           (str "<p>Hello, <b>world</b> &amp; all - 1. 2.</p><hr>")).
  reflexivity.
Defined.

(** ** Decimal numerals *)

Lemma uint_digits (d : Decimal.uint) :
  forallb is_digit (str (NilEmpty.string_of_uint d)) = true.
Proof. induction d; simpl; auto. Qed.

Lemma dec_digits (n : N) : forallb is_digit (dec n) = true.
Proof.
  unfold dec, NilZero.string_of_uint.
  destruct (N.to_uint n); try apply uint_digits. reflexivity.
Qed.

Lemma dec_not_empty (n : N) : dec n <> [].
Proof.
  unfold dec, NilZero.string_of_uint. destruct (N.to_uint n); discriminate.
Qed.

Lemma parseInt_uint (d : Decimal.uint) :
  forall acc : N,
    fold_left (fun acc c => (acc * 10 + (c - 48))%N)
      (str (NilEmpty.string_of_uint d)) acc
    = match acc with
      | 0%N => N.of_uint d
      | N.pos p => N.pos (Pos.of_uint_acc d p)
      end.
Proof.
  induction d as [|d IH|d IH|d IH|d IH|d IH|d IH|d IH|d IH|d IH|d IH]; intros acc;
    [destruct acc; reflexivity|..];
    cbn [NilEmpty.string_of_uint str list_ascii_of_string map fold_left];
    fold (str (NilEmpty.string_of_uint d)); rewrite IH;
    (destruct acc as [|p]; [reflexivity|]);
    cbn [Pos.of_uint_acc];
    match goal with
    | |- context [(N.pos p * 10 + (?c - 48))%N] =>
        let k := eval vm_compute in (c - 48)%N in
        change (c - 48)%N with k;
        destruct (N.pos p * 10 + k)%N eqn:E; [lia|]
    end;
    do 2 f_equal; lia.
Qed.

Lemma parseInt_dec (n : N) : parseInt (dec n) = n.
Proof.
  unfold parseInt, dec, NilZero.string_of_uint.
  pose proof (DecimalN.Unsigned.of_to n) as R.
  destruct (N.to_uint n) eqn:E; [now rewrite <- R|..];
    rewrite parseInt_uint; exact R.
Qed.

(** ** Any number of inline code spans *)

Lemma plain_span_parts (span : jsstring * jsstring) :
  plain_span span = true ->
  (fst span <> [] /\ lacks "`" (fst span) = true
   /\ occurs (str "<p>") (fst span) = false)
  /\ lacks "`" (snd span) = true /\ lacks "*" (snd span) = true
  /\ lacks "_" (snd span) = true /\ quiet marker (snd span) = true.
Proof.
  unfold plain_span, code_text. intros H.
  apply andb_prop in H as [H Hp]. apply andb_prop in H as [H H3].
  apply andb_prop in H as [H1 H2]. apply negb_true_iff in H3.
  split; [|now apply plain_parts].
  repeat split; auto. intros E. now rewrite E in H1.
Qed.

Lemma spans_impl (p q : jsstring * jsstring -> bool)
    (spans : list (jsstring * jsstring)) :
  (forall span, p span = true -> q span = true) ->
  forallb p spans = true -> forallb q spans = true.
Proof.
  intros H. induction spans as [|span l IH]; [reflexivity|].
  simpl. intros E. apply andb_prop in E as [E1 E2]. now rewrite (H _ E1), IH.
Qed.

Lemma first_inline_code (c : char) :
  first Wordpress.re_inline_code c = true -> N.eqb c (ch "`") = true.
Proof. cbn. now rewrite orb_false_r. Qed.

Lemma protect_step (acc : list jsstring) (mt code : jsstring) :
  Wordpress.protect acc mt [(1, code)]
  = (acc ++ [code],
     str "__CODE_BLOCK_" ++ dec (N.of_nat (length acc)) ++ str "__").
Proof.
  unfold Wordpress.protect. change (cap 1 [(1, code)]) with code.
  rewrite length_app. cbn [length].
  now replace (length acc + 1 - 1) with (length acc) by lia.
Qed.

Lemma protect_spans :
  forall (spans : list (jsstring * jsstring)) (pre sn : jsstring)
         (acc : list jsstring),
    lacks "`" pre = true -> forallb plain_span spans = true ->
    subst Wordpress.protect acc
      (scan Wordpress.re_inline_code sn (woven (str "`") (str "`") pre spans) 0)
    = (acc ++ map fst spans, held (length acc) pre spans).
Proof.
  induction spans as [|[code text] spans IH]; intros pre sn acc Hpre Hs.
  - cbn [woven held map]. rewrite scan_nothing.
    + rewrite <- (app_nil_r (map Keep pre)), subst_keep. cbn [subst fst snd].
      now rewrite !app_nil_r.
    + apply (no_match_in_lacks "`"); auto using first_inline_code.
    + now apply exec_blocked.
  - cbn [forallb] in Hs. apply andb_prop in Hs as [Hspan Hs].
    apply plain_span_parts in Hspan as ((Hne & Hc & _) & Ht & _).
    cbn [fst snd] in Hne, Hc, Ht.
    cbn [woven held map].
    rewrite scan_pass by (apply (no_match_in_lacks "`"); auto using first_inline_code).
    rewrite subst_keep.
    destruct (exec_inline_code (rev pre ++ sn) code
                (woven (str "`") (str "`") text spans) Hne Hc) as [].
    assert (E : exec Wordpress.re_inline_code (rev pre ++ sn)
                  ((str "`" ++ code ++ str "`") ++ woven (str "`") (str "`") text spans)
                = Some (MState (ch "`" :: rev code ++ ch "`" :: rev pre ++ sn)
                          (woven (str "`") (str "`") text spans) [(1, code)])).
    { rewrite <- !app_assoc.
      exact (exec_inline_code (rev pre ++ sn) code _ Hne Hc). }
    rewrite (scan_hit _ _ _ _ _ E eq_refl) by discriminate.
    cbn [subst caps]. rewrite protect_step.
    rewrite (IH text _ (acc ++ [code]) Ht Hs).
    cbn [fst snd]. rewrite length_app. cbn [length].
    now rewrite Nat.add_1_r, <- app_assoc.
Qed.

Lemma restore_spans :
  forall (spans : list (jsstring * jsstring)) (pre sn : jsstring)
         (done : list jsstring),
    lacks "_" pre = true -> forallb plain_span spans = true ->
    fill (Wordpress.restore (done ++ map fst spans))
      (scan Wordpress.re_placeholder sn (held (length done) pre spans) 0)
    = woven (str "<code>") (str "</code>") pre spans.
Proof.
  induction spans as [|[code text] spans IH]; intros pre sn done Hpre Hs.
  - cbn [woven held map]. rewrite scan_nothing.
    + apply fill_keep.
    + apply (no_match_in_lacks "_"); auto using first_placeholder.
    + now apply exec_blocked.
  - cbn [forallb] in Hs. apply andb_prop in Hs as [Hspan Hs].
    apply plain_span_parts in Hspan as (_ & _ & _ & Ht & _).
    cbn [snd] in Ht.
    cbn [woven held map fst].
    rewrite scan_pass by (apply (no_match_in_lacks "_"); auto using first_placeholder).
    rewrite fill_app, fill_keep. f_equal.
    destruct (exec_placeholder (rev pre ++ sn) (dec (N.of_nat (length done)))
                (held (S (length done)) text spans)
                (dec_not_empty _) (dec_digits _)) as [sn' E].
    assert (E' : exec Wordpress.re_placeholder (rev pre ++ sn)
                   ((str "__CODE_BLOCK_" ++ dec (N.of_nat (length done)) ++ str "__")
                    ++ held (S (length done)) text spans)
                 = Some (MState sn' (held (S (length done)) text spans)
                           [(1, dec (N.of_nat (length done)))])).
    { rewrite <- !app_assoc. exact E. }
    rewrite (scan_hit _ _ _ _ _ E' eq_refl)
      by (intros F; apply (f_equal (@length char)) in F; discriminate F).
    cbn [fill caps]. unfold Wordpress.restore at 1.
    change (cap 1 [(1, dec (N.of_nat (length done)))])
      with (dec (N.of_nat (length done))).
    rewrite parseInt_dec, Nat2N.id, nth_error_app2, Nat.sub_diag by lia.
    cbn [nth_error].
    replace (done ++ code :: map fst spans) with ((done ++ [code]) ++ map fst spans)
      by now rewrite <- app_assoc.
    replace (S (length done)) with (length (done ++ [code]))
      by (rewrite length_app; cbn [length]; lia).
    rewrite (IH text _ (done ++ [code]) Ht Hs).
    now rewrite <- !app_assoc.
Qed.

Lemma held_quiet (trig : char -> bool) :
  trig (ch "_") = false ->
  forall (spans : list (jsstring * jsstring)) (i : nat) (pre : jsstring),
    quiet trig pre = true ->
    forallb (fun span => quiet trig (snd span)) spans = true ->
    quiet trig (held i pre spans) = true.
Proof.
  intros Ht. induction spans as [|[code text] spans IH]; intros i pre Hpre Hs;
    [exact Hpre|].
  cbn [forallb snd] in Hs. apply andb_prop in Hs as [H1 Hs].
  cbn [held]. apply quiet_app; [exact Hpre| |].
  - rewrite <- !app_assoc. apply quiet_lacks_app; [reflexivity|].
    apply quiet_lacks_app.
    + apply (forallb_impl is_digit); [|apply dec_digits].
      intros c Hc. unfold not_ch.
      destruct (N.eqb_spec c (ch "<")) as [->|]; [discriminate|reflexivity].
    + apply quiet_lacks_app; [reflexivity|]. now apply IH.
  - change (negb (is_ch "p" (ch "_")) && negb (is_ch ">" (ch "_"))
            && negb (trig (ch "_")) = true).
    now rewrite Ht.
Qed.

Lemma held_lacks (a : ascii) :
  lacks a (str "__CODE_BLOCK_") = true -> is_digit (ch a) = false ->
  forall (spans : list (jsstring * jsstring)) (i : nat) (pre : jsstring),
    lacks a pre = true ->
    forallb (fun span => lacks a (snd span)) spans = true ->
    lacks a (held i pre spans) = true.
Proof.
  intros Ha Hd. induction spans as [|[code text] spans IH]; intros i pre Hpre Hs;
    [exact Hpre|].
  cbn [forallb snd] in Hs. apply andb_prop in Hs as [H1 Hs].
  assert (D : lacks a (dec (N.of_nat i)) = true).
  { apply (forallb_impl is_digit); [|apply dec_digits].
    intros c Hc. unfold not_ch.
    destruct (N.eqb_spec c (ch a)) as [->|]; [congruence|reflexivity]. }
  assert (U : lacks a (str "__") = true).
  { pose proof Ha as Ha'.
    change (lacks a (str "__CODE_BLOCK_"))
      with (not_ch a (ch "_") && lacks a (str "_CODE_BLOCK_")) in Ha'.
    apply andb_prop in Ha' as [U _].
    change (not_ch a (ch "_") && (not_ch a (ch "_") && true) = true).
    now rewrite U. }
  cbn [held]. now rewrite !lacks_app, Hpre, Ha, D, U, (IH _ _ H1 Hs).
Qed.

Lemma woven_plain (spans : list (jsstring * jsstring)) :
  forall pre : jsstring,
    quiet marker pre = true -> lacks "`" pre = true ->
    forallb plain_span spans = true ->
    quiet marker (woven (str "<code>") (str "</code>") pre spans) = true
    /\ lacks "`" (woven (str "<code>") (str "</code>") pre spans) = true.
Proof.
  induction spans as [|[code text] spans IH]; intros pre Hq Hb Hs; [now split|].
  cbn [forallb] in Hs. apply andb_prop in Hs as [Hspan Hs].
  apply plain_span_parts in Hspan as ((Hne & Hc & Hp) & Ht & _ & _ & Htq).
  cbn [fst snd] in Hne, Hc, Hp, Ht, Htq.
  destruct (IH text Htq Ht Hs) as [IH1 IH2].
  cbn [woven]. split.
  - apply wrapped_quiet; try (intros; reflexivity); auto.
  - rewrite !lacks_app, Hb, Hc, IH2. reflexivity.
Qed.

(** X2.  Any number of inline code spans: in plain text, each span whose
    code is not empty and holds no backtick and no opening paragraph tag
    comes out as a [code] element around its own code, each in its place:
    the index a placeholder carries is the index its code was stored at. *)
Theorem processContent_restores_each_span :
  forall (pre : jsstring) (spans : list (jsstring * jsstring)),
    plain pre = true -> forallb plain_span spans = true ->
    Wordpress.processContent (woven (str "`") (str "`") pre spans)
    = woven (str "<code>") (str "</code>") pre spans.
Proof.
  intros pre spans Hpre Hs.
  apply plain_parts in Hpre as (H1 & H2 & H3 & H4).
  unfold Wordpress.processContent, replace_with, segments.
  rewrite (protect_spans spans pre [] [] H1 Hs). cbn [app length].
  rewrite headings_inert.
  2:{ apply held_quiet; [reflexivity|now apply quiet_hash|].
      revert Hs. apply spans_impl. intros span H.
      apply plain_span_parts in H as (_ & _ & _ & _ & H). now apply quiet_hash. }
  rewrite emphasis_inert.
  2:{ apply held_lacks; [reflexivity|reflexivity|exact H2|].
      revert Hs. apply spans_impl. intros span H.
      now apply plain_span_parts in H as (_ & _ & H & _). }
  unfold replace, segments.
  pose proof (restore_spans spans pre [] [] H3 Hs) as R. cbn [app length] in R.
  rewrite R.
  destruct (woven_plain spans pre H4 H1 Hs) as [Q B].
  now apply blocks_inert.
Qed.

Lemma processContent_restores_each_span_witness :
  Wordpress.processContent
    (woven (str "`") (str "`") (str "<p>Run ")
       [(str "npm i", str " then "); (str "a*b*", str " or "); (str "__x__", str ".</p>")])
  = woven (str "<code>") (str "</code>") (str "<p>Run ")
      [(str "npm i", str " then "); (str "a*b*", str " or "); (str "__x__", str ".</p>")].
Proof.
  apply (processContent_restores_each_span (str "<p>Run ")
           [(str "npm i", str " then "); (str "a*b*", str " or ");
            (str "__x__", str ".</p>")]);
    reflexivity.
Defined.

(** ** A placeholder written in the content *)

(** X3.  The text of a placeholder is not safe in the content: in plain
    text without inline code, [__CODE_BLOCK_], digits, [__] written in the
    content is taken for a placeholder, and as no code was stored it comes out
    as a [code] element around the word [undefined]. *)
Theorem processContent_rewrites_literal_placeholder :
  forall pre digits post : jsstring,
    plain pre = true -> plain post = true ->
    digits <> [] -> forallb is_digit digits = true ->
    Wordpress.processContent
      (pre ++ (str "__CODE_BLOCK_" ++ digits ++ str "__") ++ post)
    = pre ++ str "<code>undefined</code>" ++ post.
Proof.
  intros pre digits post Hpre Hpost Hne Hd.
  apply plain_parts in Hpre as (Hpre1 & Hpre2 & Hpre3 & Hpre4).
  apply plain_parts in Hpost as (Hpost1 & Hpost2 & Hpost3 & Hpost4).
  assert (D : forall a, is_digit (ch a) = false -> lacks a digits = true).
  { intros a Ha. revert Hd. apply forallb_impl. intros c Hc. unfold not_ch.
    destruct (N.eqb_spec c (ch a)) as [->|]; [congruence|reflexivity]. }
  set (s := pre ++ (str "__CODE_BLOCK_" ++ digits ++ str "__") ++ post).
  assert (L : forall a, is_digit (ch a) = false ->
                        lacks a (str "__CODE_BLOCK_") = true ->
                        lacks a pre = true -> lacks a post = true -> lacks a s = true).
  { intros a H1 H2 H3 H4. unfold s.
    rewrite !lacks_app, H3, H4, H2, (D a H1). cbn [andb].
    cbn in H2 |- *. repeat (apply andb_prop in H2 as [? H2]).
    repeat (apply andb_true_intro; split); auto. }
  rewrite processContent_unfold by (apply L; auto).
  rewrite headings_inert.
  2:{ apply (wrapped_quiet (is_ch "#") (str "__CODE_BLOCK_") (str "__") pre digits post);
        try (intros; reflexivity); auto using quiet_hash.
      apply occurs_lacks_nil. now apply D. }
  rewrite emphasis_inert by (apply L; auto).
  unfold s.
  rewrite (replace_one _ (Wordpress.restore []) _ _ _ _
             (segments_placeholder pre digits post Hpre3 Hpost3 Hne Hd)).
  replace (Wordpress.restore [] (str "__CODE_BLOCK_" ++ digits ++ str "__")
             [(1, digits)])
    with (str "<code>undefined</code>").
  2:{ unfold Wordpress.restore.
      now destruct (N.to_nat (parseInt (cap 1 [(1, digits)]))). }
  apply blocks_inert.
  - apply quiet_app; [exact Hpre4| |reflexivity]. exact Hpost4.
  - rewrite !lacks_app, Hpre1, Hpost1. reflexivity.
Qed.

Lemma processContent_rewrites_literal_placeholder_witness :
  Wordpress.processContent
    (str "<p>see " ++ (str "__CODE_BLOCK_" ++ str "12" ++ str "__") ++ str " here</p>")
  = str "<p>see " ++ str "<code>undefined</code>" ++ str " here</p>".
Proof.
  apply (processContent_rewrites_literal_placeholder (str "<p>see ") (str "12")
           (str " here</p>"));
    try reflexivity.
  discriminate.
Defined.

(** ** More hash marks than levels *)

Lemma exec_heading_run (n : nat) (sn text post : jsstring) :
  stops is_space (text ++ str "</p>" ++ post) = true ->
  text <> [] -> forallb dot text = true -> lacks "<" text = true ->
  exists sn',
    exec (Wordpress.re_heading n) sn (hash_paragraph n [] text ++ post)
    = Some (MState sn' post [(1, text)]).
Proof.
  intros Hb Hne Hdot Hlt. eexists.
  unfold exec, Wordpress.re_heading, hash_paragraph.
  rewrite <- !app_assoc.
  rewrite m_seq, m_lit, m_seq, m_rep.
  rewrite <- (repeat_length (ch "#") n) at 1 2.
  rewrite rep_exact by apply hashes_all.
  rewrite m_seq, m_rep.
  apply (rep_greedy_all is_space _ []); [reflexivity|exact Hb|apply Nat.le_0_l|].
  rewrite m_seq, m_group_rep.
  apply rep_lazy_first; [exact Hdot| | |].
  - now apply nonempty_length.
  - intros w1 [|c w2] E Hw2 _; [contradiction|].
    cbn [seen rest caps].
    apply (@m_lit_other (ch "<") (str "/p>")).
    subst text. unfold lacks in Hlt. rewrite forallb_app in Hlt.
    apply andb_prop in Hlt as [_ Hlt]. simpl in Hlt.
    apply andb_prop in Hlt as [Hc _]. now apply negb_true_iff in Hc.
  - cbn [seen rest caps]. rewrite m_lit, consumed_app. reflexivity.
Qed.

Lemma replace_heading_run (n : nat) (open close : jsstring)
    (pre text post : jsstring) :
  n <> 0 -> quiet (is_ch "#") pre = true -> quiet (is_ch "#") post = true ->
  stops is_space (text ++ str "</p>" ++ post) = true ->
  text <> [] -> forallb dot text = true -> lacks "<" text = true ->
  replace (Wordpress.re_heading n) (Wordpress.wrap1 open close)
    (pre ++ hash_paragraph n [] text ++ post)
  = pre ++ (open ++ text ++ close) ++ post.
Proof.
  intros Hn Hpre Hpost Hb Hne Hdot Hlt.
  destruct (exec_heading_run n (rev pre) text post Hb Hne Hdot Hlt) as [sn' He].
  assert (Hled := heading_led n
            (Seq (Rep true 0 None is_space)
               (Seq (Group 1 (Rep false 1 None dot)) (Lit (str "</p>"))))
            Hn).
  destruct Hled as [Hnull Hfirst].
  change (open ++ text ++ close)
    with (Wordpress.wrap1 open close (hash_paragraph n [] text) [(1, text)]).
  apply (replace_one (Wordpress.re_heading n) (Wordpress.wrap1 open close)
           pre (hash_paragraph n [] text) post [(1, text)]).
  apply (scan_one _ _ _ _ (MState sn' post [(1, text)])).
  - unfold Wordpress.re_heading. apply (no_match_in_quiet (is_ch "#")); auto.
  - exact He.
  - reflexivity.
  - discriminate.
  - unfold Wordpress.re_heading. apply (no_match_in_quiet (is_ch "#")); auto.
  - reflexivity.
Qed.

Lemma heading_text_parts (text : jsstring) :
  heading_text text = true ->
  begins_text text = true /\ forallb dot text = true /\ lacks "<" text = true
  /\ lacks "`" text = true /\ lacks "*" text = true /\ lacks "_" text = true.
Proof.
  unfold heading_text. intros H. repeat (apply andb_prop in H as [H ?]).
  repeat split; auto.
Qed.

Lemma hashes_dot (n : nat) : forallb dot (repeat (ch "#") n) = true.
Proof. induction n; simpl; auto. Qed.

(** X4.  There is no level past six: a paragraph that opens with more than
    six hash marks becomes a heading of level 6 whose text begins with the
    marks past the sixth and keeps the white space after them; in plain
    surroundings, for white space without line terminator and a text as in
    the heading theorem. *)
Theorem processContent_caps_heading_level :
  forall (n : nat) (pre ws text post : jsstring),
    6 < n -> plain pre = true -> plain post = true ->
    forallb is_space ws = true -> forallb dot ws = true ->
    heading_text text = true ->
    Wordpress.processContent (pre ++ hash_paragraph n ws text ++ post)
    = pre ++ (str "<h6>" ++ (repeat (ch "#") (n - 6) ++ ws ++ text) ++ str "</h6>")
      ++ post.
Proof.
  intros n pre ws text post Hn Hpre Hpost Hws Hwd Ht.
  apply plain_parts in Hpre as (Hpre1 & Hpre2 & Hpre3 & Hpre4).
  apply plain_parts in Hpost as (Hpost1 & Hpost2 & Hpost3 & Hpost4).
  apply heading_text_parts in Ht as (Hb & Hdot & Hlt & Hbt & Hst & Hun).
  set (run := repeat (ch "#") (n - 6) ++ ws ++ text).
  assert (E : hash_paragraph n ws text = hash_paragraph 6 [] run).
  { unfold hash_paragraph, run. replace n with (6 + (n - 6)) at 1 by lia.
    rewrite repeat_app. cbn [app]. now rewrite <- !app_assoc. }
  assert (R : forall a, N.eqb (ch "#") (ch a) = false -> is_space (ch a) = false ->
                        lacks a text = true -> lacks a run = true).
  { intros a H1 H2 H3. unfold run.
    now rewrite !lacks_app, (hashes_lack a _ H1), (spaces_lack a ws H2 Hws), H3. }
  assert (Rne : run <> []).
  { unfold run. destruct (n - 6) as [|k] eqn:K; [lia|discriminate]. }
  assert (Rdot : forallb dot run = true).
  { unfold run. now rewrite !forallb_app, hashes_dot, Hwd, Hdot. }
  assert (Rstop : stops is_space (run ++ str "</p>" ++ post) = true).
  { unfold run. destruct (n - 6) as [|k] eqn:K; [lia|reflexivity]. }
  assert (L : forall a, lacks a (str "<p>/") = true -> N.eqb (ch "#") (ch a) = false ->
                        is_space (ch a) = false -> lacks a text = true ->
                        lacks a pre = true -> lacks a post = true ->
                        lacks a (pre ++ hash_paragraph n ws text ++ post) = true).
  { intros a H1 H2 H3 H4 H5 H6.
    now rewrite !lacks_app, H5, H6, (hash_paragraph_lacks a n ws text H1 H2 H3 Hws H4). }
  unfold Wordpress.processContent.
  rewrite protect_inert by (apply L; auto).
  rewrite E. unfold Wordpress.headings.
  rewrite (replace_heading_run 6 (str "<h6>") (str "</h6>") pre run post);
    auto using quiet_hash.
  assert (Qh : quiet (is_ch "#")
                 (pre ++ (str "<h6>" ++ run ++ str "</h6>") ++ post) = true).
  { apply wrapped_quiet; try (intros; reflexivity); auto using quiet_hash.
    apply occurs_lacks_nil. apply R; auto. }
  rewrite !(replace_heading_quiet _ _ (pre ++ (str "<h6>" ++ run ++ str "</h6>") ++ post))
    by (try exact Qh; lia).
  rewrite emphasis_inert.
  2:{ rewrite !lacks_app, Hpre2, Hpost2, (R "*"%char); auto. }
  apply finish_inert.
  - rewrite !lacks_app, Hpre3, Hpost3, (R "_"%char); auto.
  - rewrite !lacks_app, Hpre1, Hpost1, (R "`"%char); auto.
  - apply wrapped_quiet; try (intros; reflexivity); auto.
    apply occurs_lacks_nil. apply R; auto.
Qed.

Lemma processContent_caps_heading_level_witness :
  Wordpress.processContent
    (str "<p>intro</p>" ++ hash_paragraph 8 (str " ") (str "Deep") ++ str "<p>body</p>")
  = str "<p>intro</p>"
    ++ (str "<h6>" ++ (repeat (ch "#") (8 - 6) ++ str " " ++ str "Deep") ++ str "</h6>")
    ++ str "<p>body</p>".
Proof.
  apply (processContent_caps_heading_level 8 (str "<p>intro</p>") (str " ")
           (str "Deep") (str "<p>body</p>"));
    try reflexivity.
  lia.
Defined.

(** ** Block quotes and rules *)

Lemma calm_without (trig : char -> bool) (s : jsstring) :
  forallb (fun c => negb (trig c)) s = true -> calm trig s = true.
Proof.
  intros H. unfold calm.
  destruct (strip (str "<p>") s) as [[|d rs]|] eqn:E; try reflexivity.
  apply strip_suffix in E as [p E]. subst s.
  rewrite forallb_app in H. apply andb_prop in H as [_ H].
  simpl in H. now apply andb_prop in H as [H _].
Qed.

Lemma quiet_without (trig : char -> bool) (s : jsstring) :
  forallb (fun c => negb (trig c)) s = true -> quiet trig s = true.
Proof.
  induction s as [|c s IH]; [reflexivity|]. intros H.
  cbn [quiet]. rewrite (calm_without trig (c :: s) H).
  simpl in H. apply andb_prop in H as [_ H]. now apply IH.
Qed.

Lemma quiet_lacking (a : ascii) (s : jsstring) :
  lacks a s = true -> quiet (is_ch a) s = true.
Proof. intros H. now apply quiet_without. Qed.

(** A paragraph that opens with a character outside [trig]. *)
Lemma quiet_paragraph (trig : char -> bool) (c : char) (text tail : jsstring) :
  trig c = false -> lacks "<" (c :: text) = true -> quiet trig tail = true ->
  apart trig tail = true ->
  quiet trig (str "<p>" ++ (c :: text) ++ tail) = true.
Proof.
  intros Hc Hlt Htail Ha.
  change (str "<p>" ++ (c :: text) ++ tail)
    with (ch "<" :: (str "p>" ++ c :: text) ++ tail).
  cbn [quiet]. apply andb_true_intro. split.
  - unfold calm.
    change (strip (str "<p>") (ch "<" :: (str "p>" ++ c :: text) ++ tail))
      with (Some ((c :: text) ++ tail)).
    cbn [app]. now rewrite Hc.
  - apply quiet_app; [|exact Htail|exact Ha].
    apply lacks_lt_quiet. rewrite lacks_app, Hlt. reflexivity.
Qed.

(** The passes that come before the block passes, on text they leave. *)
Lemma before_blocks (s : jsstring) :
  lacks "`" s = true -> lacks "*" s = true -> lacks "_" s = true ->
  quiet (is_ch "#") s = true ->
  Wordpress.processContent s = Wordpress.blocks s.
Proof.
  intros H1 H2 H3 H4. rewrite processContent_unfold by exact H1.
  rewrite headings_inert by exact H4.
  rewrite emphasis_inert by exact H2.
  now rewrite placeholder_inert.
Qed.

Lemma split_blockquote (r : regex) (sn s : jsstring) :
  exec (Seq (Lit (str "<p>&gt;")) r) sn s
  = exec (Seq (Lit (str "<p>")) (Seq (Lit (str "&gt;")) r)) sn s.
Proof. apply (exec_lit_app (str "<p>") (str "&gt;")). Qed.

Lemma no_match_in_ext (r r' : regex) (sn pre s : jsstring) :
  (forall sn s, exec r sn s = exec r' sn s) ->
  no_match_in r' sn pre s -> no_match_in r sn pre s.
Proof. intros E H p1 p2 E1 E2. rewrite E. now apply H. Qed.

(** The block passes one by one, on text each has nothing to do with. *)
Lemma fences_inert (s : jsstring) :
  lacks "`" s = true -> quiet (is_ch "~") s = true ->
  Wordpress.blocks s
  = replace Wordpress.re_ul Wordpress.unordered
      (replace Wordpress.re_ol Wordpress.ordered
         (replace Wordpress.re_rule (Wordpress.const (str "<hr>"))
            (replace Wordpress.re_blockquote
               (Wordpress.wrap1 (str "<blockquote><p>") (str "</p></blockquote>")) s))).
Proof.
  intros Hb Ht. unfold Wordpress.blocks, Wordpress.re_wrapped_fence.
  rewrite (replace_quiet (is_ch "`") _ _ s); [|reflexivity| |now apply quiet_lacking].
  2:{ intros c. cbn [first nullable Nat.eqb andb orb]. now rewrite ?orb_false_r. }
  rewrite (replace_quiet (is_ch "~") _ _ s); [|reflexivity| |exact Ht].
  2:{ intros c. cbn [first nullable Nat.eqb andb orb]. now rewrite ?orb_false_r. }
  rewrite (replace_lacks "`" Wordpress.re_fence); auto.
  intros c; cbn; rewrite ?orb_false_r; auto.
Qed.

Lemma blockquote_inert (f : jsstring -> captures -> jsstring) (s : jsstring) :
  quiet (is_ch "&") s = true -> replace Wordpress.re_blockquote f s = s.
Proof.
  intros H. unfold Wordpress.re_blockquote.
  transitivity
    (replace (Seq (Lit (str "<p>"))
                (Seq (Lit (str "&gt;"))
                   (Seq (Rep true 0 None is_space)
                      (Seq (Group 1 (Rep false 1 None dot)) (Lit (str "</p>"))))))
       f s).
  { unfold replace, segments. f_equal. apply scan_ext. intros sn x.
    apply split_blockquote. }
  apply (replace_quiet (is_ch "&")); [reflexivity| |exact H].
  intros c. cbn [first nullable Nat.eqb andb orb]. now rewrite ?orb_false_r.
Qed.

Lemma lists_inert (s : jsstring) :
  quiet marker s = true ->
  replace Wordpress.re_ul Wordpress.unordered
    (replace Wordpress.re_ol Wordpress.ordered s) = s.
Proof.
  intros H. unfold Wordpress.re_ol, Wordpress.re_ul.
  rewrite (replace_quiet marker _ Wordpress.ordered s);
    [|apply first_marker; simpl; tauto..|exact H].
  apply (replace_quiet marker); [apply first_marker; simpl; tauto..|exact H].
Qed.

Lemma rule_inert (f : jsstring -> captures -> jsstring) (s : jsstring) :
  quiet marker s = true -> replace Wordpress.re_rule f s = s.
Proof.
  intros H. unfold Wordpress.re_rule.
  apply (replace_quiet marker); [apply first_marker; simpl; tauto..|exact H].
Qed.

Lemma block_text_parts (text : jsstring) :
  block_text text = true ->
  (exists c t, text = c :: t /\ is_space c = false /\ marker c = false)
  /\ forallb dot text = true /\ lacks "<" text = true
  /\ lacks "`" text = true /\ lacks "*" text = true /\ lacks "_" text = true.
Proof.
  unfold block_text. intros H.
  repeat (apply andb_prop in H as [H ?]).
  repeat split; auto.
  destruct text as [|c t]; [discriminate|]. exists c, t.
  apply andb_prop in H as [Hs Hm]. apply negb_true_iff in Hs, Hm. auto.
Qed.

Lemma exec_blockquote (sn ws text post : jsstring) :
  forallb is_space ws = true -> stops is_space (text ++ str "</p>" ++ post) = true ->
  text <> [] -> forallb dot text = true -> lacks "<" text = true ->
  exists sn',
    exec Wordpress.re_blockquote sn (quote_paragraph ws text ++ post)
    = Some (MState sn' post [(1, text)]).
Proof.
  intros Hws Hb Hne Hdot Hlt. eexists.
  unfold exec, Wordpress.re_blockquote, quote_paragraph.
  rewrite <- !app_assoc.
  rewrite m_seq, m_lit, m_seq, m_rep.
  apply rep_greedy_all; [exact Hws|exact Hb|apply Nat.le_0_l|].
  rewrite m_seq, m_group_rep.
  apply rep_lazy_first; [exact Hdot| | |].
  - destruct text; [contradiction|simpl; lia].
  - intros w1 [|c w2] E Hw2 _; [contradiction|].
    cbn [seen rest caps].
    apply (@m_lit_other (ch "<") (str "/p>")).
    subst text. unfold lacks in Hlt. rewrite forallb_app in Hlt.
    apply andb_prop in Hlt as [_ Hlt]. simpl in Hlt.
    apply andb_prop in Hlt as [Hc _]. now apply negb_true_iff in Hc.
  - cbn [seen rest caps]. rewrite m_lit, consumed_app. reflexivity.
Qed.

Lemma no_match_in_blockquote (sn pre s : jsstring) :
  quiet (is_ch "&") pre = true -> apart (is_ch "&") s = true ->
  no_match_in Wordpress.re_blockquote sn pre s.
Proof.
  intros Hq Ha. unfold Wordpress.re_blockquote.
  apply (no_match_in_ext _ _ _ _ _ (split_blockquote _)).
  apply (no_match_in_quiet (is_ch "&")); auto.
  intros c. cbn [first nullable Nat.eqb andb orb]. now rewrite ?orb_false_r.
Qed.

Lemma replace_blockquote (open close : jsstring) (pre ws text post : jsstring) :
  quiet (is_ch "&") pre = true -> quiet (is_ch "&") post = true ->
  forallb is_space ws = true -> stops is_space (text ++ str "</p>" ++ post) = true ->
  text <> [] -> forallb dot text = true -> lacks "<" text = true ->
  replace Wordpress.re_blockquote (Wordpress.wrap1 open close)
    (pre ++ quote_paragraph ws text ++ post)
  = pre ++ (open ++ text ++ close) ++ post.
Proof.
  intros Hpre Hpost Hws Hb Hne Hdot Hlt.
  destruct (exec_blockquote (rev pre) ws text post Hws Hb Hne Hdot Hlt) as [sn' He].
  change (open ++ text ++ close)
    with (Wordpress.wrap1 open close (quote_paragraph ws text) [(1, text)]).
  apply (replace_one Wordpress.re_blockquote (Wordpress.wrap1 open close)
           pre (quote_paragraph ws text) post [(1, text)]).
  apply (scan_one _ _ _ _ (MState sn' post [(1, text)])).
  - now apply no_match_in_blockquote.
  - exact He.
  - reflexivity.
  - discriminate.
  - now apply no_match_in_blockquote.
  - reflexivity.
Qed.

(** A paragraph set in quiet text. *)
Lemma paragraph_quiet (trig : char -> bool) (pre : jsstring) (c : char)
    (text post : jsstring) :
  trig (ch "<") = false -> trig c = false -> lacks "<" (c :: text) = true ->
  quiet trig pre = true -> quiet trig post = true ->
  quiet trig (pre ++ (str "<p>" ++ (c :: text) ++ str "</p>") ++ post) = true.
Proof.
  intros Hlt Hc Ht Hpre Hpost.
  assert (A : forall s, apart trig (ch "<" :: s) = true).
  { intros s. change (negb (is_ch "p" (ch "<")) && negb (is_ch ">" (ch "<"))
                      && negb (trig (ch "<")) = true). now rewrite Hlt. }
  apply quiet_app; [exact Hpre| |apply A].
  rewrite <- !app_assoc.
  apply quiet_paragraph; [exact Hc|exact Ht| |apply A].
  exact Hpost.
Qed.

(** X5.  A paragraph that opens with the entity of the greater-than sign
    becomes a block quote around a paragraph of its text, without the
    entity and the white space after it: in plain surroundings, for a text
    on one line that begins with a character that is neither white space nor
    a marker and holds no angle bracket, backtick, asterisk or underscore. *)
Theorem processContent_blockquote :
  forall pre ws text post : jsstring,
    plain pre = true -> plain post = true ->
    forallb is_space ws = true -> block_text text = true ->
    Wordpress.processContent (pre ++ quote_paragraph ws text ++ post)
    = pre ++ (str "<blockquote><p>" ++ text ++ str "</p></blockquote>") ++ post.
Proof.
  intros pre ws text post Hpre Hpost Hws Ht.
  apply plain_parts in Hpre as (Hpre1 & Hpre2 & Hpre3 & Hpre4).
  apply plain_parts in Hpost as (Hpost1 & Hpost2 & Hpost3 & Hpost4).
  apply block_text_parts in Ht as ((c & t & -> & Hsp & Hm) & Hdot & Hlt & Hb & Hs & Hu).
  assert (L : forall a, lacks a (str "<p>&gt;/") = true -> is_space (ch a) = false ->
                        lacks a pre = true -> lacks a post = true ->
                        lacks a (c :: t) = true ->
                        lacks a (pre ++ quote_paragraph ws (c :: t) ++ post) = true).
  { intros a H1 H2 H3 H4 H5. unfold quote_paragraph.
    rewrite !lacks_app, H3, H4, H5, (spaces_lack a ws H2 Hws).
    cbn in H1 |- *. repeat (apply andb_prop in H1 as [? H1]).
    repeat (apply andb_true_intro; split); auto. }
  assert (Q : forall trig, trig (ch "<") = false -> trig (ch "&") = false ->
                           quiet trig pre = true -> quiet trig post = true ->
                           quiet trig (pre ++ quote_paragraph ws (c :: t) ++ post) = true).
  { intros trig H1 H2 H3 H4. unfold quote_paragraph.
    replace (str "<p>&gt;" ++ ws ++ (c :: t) ++ str "</p>")
      with (str "<p>" ++ (ch "&" :: str "gt;" ++ ws ++ (c :: t)) ++ str "</p>").
    2:{ change (ch "&" :: str "gt;" ++ ws ++ c :: t) with (str "&gt;" ++ (ws ++ c :: t)).
        now rewrite <- !app_assoc. }
    apply paragraph_quiet; auto.
    change (lacks "<" (str "&gt;" ++ ws ++ c :: t) = true).
    now rewrite !lacks_app, (spaces_lack_lt ws Hws), Hlt. }
  assert (W : forall a x, In a ["#"; "~"; "&"]%char -> is_ch a x = true ->
                          marker x = true).
  { intros a x [<-|[<-|[<-|[]]]] Hx; unfold marker; now rewrite Hx, ?orb_true_r. }
  assert (Qm : forall a, In a ["#"; "~"; "&"]%char ->
                         quiet (is_ch a) pre = true /\ quiet (is_ch a) post = true).
  { intros a Ha. split; apply (quiet_weaken marker); auto; intros x; now apply W. }
  rewrite before_blocks.
  2-4: apply L; auto.
  2:{ apply Q; try reflexivity; apply Qm; simpl; auto. }
  rewrite fences_inert.
  2:{ apply L; auto. }
  2:{ apply Q; try reflexivity; apply Qm; simpl; auto. }
  rewrite replace_blockquote; auto.
  2,3: apply Qm; simpl; auto.
  2:{ cbn. now rewrite Hsp. }
  2:{ discriminate. }
  assert (Qf : quiet marker
                 (pre ++ (str "<blockquote><p>" ++ (c :: t) ++ str "</p></blockquote>")
                  ++ post) = true).
  { apply quiet_app; [exact Hpre4| |reflexivity].
    change ((str "<blockquote><p>" ++ (c :: t) ++ str "</p></blockquote>") ++ post)
      with (str "<blockquote>"
            ++ (str "<p>" ++ (c :: t) ++ str "</p></blockquote>") ++ post).
    apply quiet_app; [reflexivity| |reflexivity].
    rewrite <- !app_assoc.
    apply quiet_paragraph; [exact Hm|exact Hlt| |reflexivity].
    exact Hpost4. }
  rewrite rule_inert by exact Qf.
  now apply lists_inert.
Qed.

Lemma processContent_blockquote_witness :
  Wordpress.processContent
    (str "<p>Said:</p>" ++ quote_paragraph (str " ") (str "To be, or not.")
     ++ str "<p>End.</p>")
  = str "<p>Said:</p>"
    ++ (str "<blockquote><p>" ++ str "To be, or not." ++ str "</p></blockquote>")
    ++ str "<p>End.</p>".
Proof.
  apply (processContent_blockquote (str "<p>Said:</p>") (str " ")
           (str "To be, or not.") (str "<p>End.</p>"));
    reflexivity.
Defined.

Lemma hyphens_all (n : nat) :
  forallb (one_of (str "-*_")) (repeat (ch "-") n) = true.
Proof. induction n; simpl; auto. Qed.

Lemma hyphens_lack (a : ascii) (n : nat) :
  N.eqb (ch "-") (ch a) = false -> lacks a (repeat (ch "-") n) = true.
Proof.
  intros H.
  assert (Hn : not_ch a (ch "-") = true) by (unfold not_ch; now rewrite H).
  induction n as [|n IH]; [reflexivity|].
  change (lacks a (repeat (ch "-") (S n)))
    with (not_ch a (ch "-") && lacks a (repeat (ch "-") n)).
  now rewrite Hn.
Qed.

Lemma exec_rule (sn : jsstring) (n : nat) (post : jsstring) :
  3 <= n ->
  exists sn',
    exec Wordpress.re_rule sn (rule_paragraph n ++ post) = Some (MState sn' post []).
Proof.
  intros Hn. eexists.
  unfold exec, Wordpress.re_rule, rule_paragraph.
  rewrite <- !app_assoc.
  rewrite m_seq, m_lit, m_seq, m_rep.
  apply rep_greedy_all;
    [apply hyphens_all|reflexivity|now rewrite repeat_length|].
  now rewrite m_lit.
Qed.

Lemma replace_rule (n : nat) (pre post : jsstring) :
  3 <= n -> quiet marker pre = true -> quiet marker post = true ->
  replace Wordpress.re_rule (Wordpress.const (str "<hr>"))
    (pre ++ rule_paragraph n ++ post)
  = pre ++ str "<hr>" ++ post.
Proof.
  intros Hn Hpre Hpost.
  destruct (exec_rule (rev pre) n post Hn) as [sn' He].
  change (str "<hr>")
    with (Wordpress.const (str "<hr>") (rule_paragraph n) []) at 2.
  apply (replace_one Wordpress.re_rule (Wordpress.const (str "<hr>"))
           pre (rule_paragraph n) post []).
  apply (scan_one _ _ _ _ (MState sn' post [])).
  - unfold Wordpress.re_rule.
    apply (no_match_in_quiet marker); [apply first_marker; simpl; tauto..| |];
      auto.
  - exact He.
  - reflexivity.
  - discriminate.
  - unfold Wordpress.re_rule.
    apply (no_match_in_quiet marker); [apply first_marker; simpl; tauto..| |];
      auto.
  - reflexivity.
Qed.

(** X6.  In plain surroundings, a paragraph of three or more hyphens and
    nothing else becomes a horizontal rule. *)
Theorem processContent_rule :
  forall (n : nat) (pre post : jsstring),
    3 <= n -> plain pre = true -> plain post = true ->
    Wordpress.processContent (pre ++ rule_paragraph n ++ post)
    = pre ++ str "<hr>" ++ post.
Proof.
  intros n pre post Hn Hpre Hpost.
  apply plain_parts in Hpre as (Hpre1 & Hpre2 & Hpre3 & Hpre4).
  apply plain_parts in Hpost as (Hpost1 & Hpost2 & Hpost3 & Hpost4).
  assert (L : forall a, lacks a (str "<p>/") = true -> N.eqb (ch "-") (ch a) = false ->
                        lacks a pre = true -> lacks a post = true ->
                        lacks a (pre ++ rule_paragraph n ++ post) = true).
  { intros a H1 H2 H3 H4. unfold rule_paragraph.
    rewrite !lacks_app, H3, H4, (hyphens_lack a n H2).
    cbn in H1 |- *. repeat (apply andb_prop in H1 as [? H1]).
    repeat (apply andb_true_intro; split); auto. }
  assert (W : forall a x, In a ["#"; "~"; "&"]%char -> is_ch a x = true ->
                          marker x = true).
  { intros a x [<-|[<-|[<-|[]]]] Hx; unfold marker; now rewrite Hx, ?orb_true_r. }
  assert (Q : forall a, In a ["#"; "~"; "&"]%char ->
                        quiet (is_ch a) (pre ++ rule_paragraph n ++ post) = true).
  { intros a Ha. unfold rule_paragraph.
    destruct n as [|n]; [lia|]. cbn [repeat].
    apply paragraph_quiet.
    - destruct Ha as [<-|[<-|[<-|[]]]]; reflexivity.
    - destruct Ha as [<-|[<-|[<-|[]]]]; reflexivity.
    - change (lacks "<" (repeat (ch "-") (S n)) = true). now apply hyphens_lack.
    - apply (quiet_weaken marker); auto. intros x. now apply W.
    - apply (quiet_weaken marker); auto. intros x. now apply W. }
  rewrite before_blocks.
  2-4: apply L; auto.
  2:{ apply Q; simpl; auto. }
  rewrite fences_inert.
  2:{ apply L; auto. }
  2:{ apply Q; simpl; auto. }
  rewrite blockquote_inert by (apply Q; simpl; auto).
  rewrite replace_rule by auto.
  apply lists_inert.
  apply quiet_app; [exact Hpre4| |reflexivity].
  exact Hpost4.
Qed.

Lemma processContent_rule_witness :
  Wordpress.processContent (str "<p>above</p>" ++ rule_paragraph 3 ++ str "<p>below</p>")
  = str "<p>above</p>" ++ str "<hr>" ++ str "<p>below</p>".
Proof.
  apply (processContent_rule 3 (str "<p>above</p>") (str "<p>below</p>"));
    [lia|reflexivity|reflexivity].
Defined.

(** ** Lists: the paragraph of a list *)

Lemma no_match_in_app (r : regex) (sn a b s : jsstring) :
  no_match_in r sn a (b ++ s) -> no_match_in r (rev a ++ sn) b s ->
  no_match_in r sn (a ++ b) s.
Proof.
  intros Ha Hb p1 p2 E Hp2.
  apply app_eq_app in E as [l [[E1 E2]|[E1 E2]]].
  - subst a p2. destruct l as [|c l].
    + cbn [app] in *. rewrite app_nil_r in *.
      apply (Hb [] b); [reflexivity|exact Hp2].
    + rewrite <- app_assoc. apply (Ha p1 (c :: l)); [reflexivity|discriminate].
  - subst p1 b. rewrite rev_app_distr, <- app_assoc.
    apply (Hb l p2); [reflexivity|exact Hp2].
Qed.

Lemma no_match_in_closing (r : regex) (sn s : jsstring) :
  no_match_in (Seq (Lit (str "<p>")) r) sn (str "</p>") s.
Proof.
  intros p1 p2 E Hp2. apply exec_lit_none. cbn in E.
  do 4 (destruct p1 as [|? p1];
        [cbn in E; subst p2; first [reflexivity|contradiction]|];
        cbn in E; injection E as _ E).
  destruct p1; [|discriminate E]. cbn in E. subst p2. contradiction.
Qed.

(** The inside of a paragraph that holds no opening paragraph tag. *)
Lemma no_match_in_paragraph (trig : char -> bool) (r : regex)
    (sn body s : jsstring) :
  nullable r = false -> (forall c, first r c = true -> trig c = true) ->
  trig (ch "<") = false ->
  occurs (str "<p>") body = false ->
  no_match_in (Seq (Lit (str "<p>")) r) sn (str "p>" ++ body ++ str "</p>") s.
Proof.
  intros Hn Hf Hlt Ho.
  rewrite app_assoc. apply no_match_in_app; [|apply no_match_in_closing].
  apply (no_match_in_quiet trig); auto.
  - apply quiet_absent.
    change (occurs (str "<p>") (str "p>" ++ body)) with (occurs (str "<p>") body).
    exact Ho.
  - change (negb (is_ch "p" (ch "<")) && negb (is_ch ">" (ch "<"))
            && negb (trig (ch "<")) = true). now rewrite Hlt.
Qed.

(** A pass that does not match a paragraph leaves it. *)
Lemma replace_paragraph_miss (trig : char -> bool) (r : regex)
    (f : jsstring -> captures -> jsstring) (pre body post : jsstring) :
  nullable r = false -> (forall c, first r c = true -> trig c = true) ->
  trig (ch "<") = false ->
  quiet trig pre = true -> quiet trig post = true ->
  occurs (str "<p>") body = false ->
  (forall sn, exec (Seq (Lit (str "<p>")) r) sn
                (str "<p>" ++ body ++ str "</p>" ++ post) = None) ->
  replace (Seq (Lit (str "<p>")) r) f (pre ++ (str "<p>" ++ body ++ str "</p>") ++ post)
  = pre ++ (str "<p>" ++ body ++ str "</p>") ++ post.
Proof.
  intros Hn Hf Hlt Hpre Hpost Ho He.
  assert (A : forall x, apart trig (ch "<" :: x) = true).
  { intros x. change (negb (is_ch "p" (ch "<")) && negb (is_ch ">" (ch "<"))
                      && negb (trig (ch "<")) = true). now rewrite Hlt. }
  unfold replace, segments. rewrite scan_nothing; [apply fill_keep| |reflexivity].
  apply no_match_in_app.
  - apply (no_match_in_quiet trig); auto. apply A.
  - change ((str "<p>" ++ body ++ str "</p>") ++ post)
      with ([ch "<"] ++ (str "p>" ++ body ++ str "</p>") ++ post).
    apply no_match_in_app.
    + intros p1 p2 E Hp2.
      destruct p1 as [|c p1].
      * cbn in E. subst p2. rewrite <- (He (rev pre)).
        f_equal; [cbn [rev app]; now rewrite app_nil_r|].
        rewrite app_nil_r, <- !app_assoc. reflexivity.
      * destruct p1; [|discriminate E]. destruct p2; [contradiction|discriminate E].
    + apply no_match_in_app.
      * now apply (no_match_in_paragraph trig).
      * apply (no_match_in_quiet trig); auto.
Qed.

Lemma sealed_suffix (w1 w2 : jsstring) : sealed (w1 ++ w2) = true -> sealed w2 = true.
Proof.
  induction w1 as [|c w1 IH]; [auto|]. cbn [app sealed]. intros H.
  apply andb_prop in H as [_ H]. now apply IH.
Qed.

Lemma sealed_strip (s : jsstring) :
  sealed s = true ->
  forall w1 w2 t, s = w1 ++ w2 -> w2 <> [] -> strip (str "</p>") (w2 ++ t) = None.
Proof.
  intros H w1 w2 t -> Hw2. apply sealed_suffix in H.
  destruct w2 as [|c w2]; [contradiction|]. cbn [sealed] in H.
  apply andb_prop in H as [H _].
  change (strip (str "</p>") ((c :: w2) ++ t))
    with (if N.eqb c (ch "<") then strip (str "/p>") (w2 ++ t) else None).
  destruct (N.eqb c (ch "<")) eqn:E; [|reflexivity].
  unfold is_ch in H. rewrite E in H. cbn [negb orb] in H.
  destruct w2 as [|d w2]; [discriminate|].
  apply negb_true_iff in H. unfold is_ch in H.
  change (strip (str "/p>") ((d :: w2) ++ t))
    with (if N.eqb d (ch "/") then strip (str "p>") (w2 ++ t) else None).
  now rewrite H.
Qed.

Lemma sealed_app (a b : jsstring) :
  lacks "<" a = true -> sealed b = true -> sealed (a ++ b) = true.
Proof.
  intros Ha Hb. induction a as [|c a IH]; [exact Hb|].
  cbn [lacks forallb] in Ha. apply andb_prop in Ha as [Hc Ha].
  cbn [app sealed]. unfold not_ch in Hc. unfold is_ch. rewrite Hc. cbn [orb andb].
  now apply IH.
Qed.

Lemma join_cons (sep x y : jsstring) (tl : list jsstring) :
  join sep (x :: y :: tl) = x ++ sep ++ join sep (y :: tl).
Proof. reflexivity. Qed.

Lemma sealed_join (lines : list jsstring) :
  forallb (lacks "<") lines = true -> sealed (join (str "<br>") lines) = true.
Proof.
  induction lines as [|x [|y tl] IH]; intros H; [reflexivity| |].
  - cbn [forallb] in H. apply andb_prop in H as [H _]. cbn [join].
    rewrite <- (app_nil_r x). now apply sealed_app.
  - rewrite join_cons. cbn [forallb] in H. apply andb_prop in H as [Hx H].
    apply sealed_app; [exact Hx|].
    change (sealed (str "<br>" ++ join (str "<br>") (y :: tl)))
      with (sealed (join (str "<br>") (y :: tl))).
    now apply IH.
Qed.

Lemma occurs_join (lines : list jsstring) :
  forallb (lacks "<") lines = true ->
  occurs (str "<p>") (join (str "<br>") lines) = false.
Proof.
  induction lines as [|x [|y tl] IH]; intros H; [reflexivity| |].
  - cbn [forallb] in H. apply andb_prop in H as [H _]. cbn [join].
    now apply occurs_lacks_nil.
  - rewrite join_cons. cbn [forallb] in H. apply andb_prop in H as [Hx H].
    rewrite (occurs_lacks_app (ch "<") (str "p>")) by exact Hx.
    change (occurs (str "<p>") (str "<br>" ++ join (str "<br>") (y :: tl)))
      with (occurs (str "<p>") (join (str "<br>") (y :: tl))).
    now apply IH.
Qed.

(** ** Lists: the lines of the paragraph *)

Lemma clean_line_parts (line : jsstring) :
  clean_line line = true ->
  lacks "<" line = true /\ forallb (fun c => negb (N.eqb c nl)) line = true
  /\ begins_in_space line = false /\ ends_in_space line = false.
Proof.
  unfold clean_line. intros H. repeat (apply andb_prop in H as [H ?]).
  repeat split; auto; now apply negb_true_iff.
Qed.

Lemma lines_impl (p q : jsstring -> bool) (lines : list jsstring) :
  (forall line, p line = true -> q line = true) ->
  forallb p lines = true -> forallb q lines = true.
Proof.
  intros H. induction lines as [|x l IH]; [reflexivity|].
  simpl. intros E. apply andb_prop in E as [E1 E2]. now rewrite (H _ E1), IH.
Qed.

Lemma first_ptag (c : char) :
  first Wordpress.re_ptag c = true -> N.eqb c (ch "<") = true.
Proof. cbn. now rewrite orb_false_r. Qed.

Lemma no_match_in_br (sn s : jsstring) :
  no_match_in Wordpress.re_ptag sn (str "<br>") s.
Proof.
  intros p1 p2 E Hp2. cbn in E.
  do 4 (destruct p1 as [|? p1];
        [cbn in E; subst p2; first [reflexivity|contradiction]|];
        cbn in E; injection E as _ E).
  destruct p1; [|discriminate E]. cbn in E. subst p2. contradiction.
Qed.

Lemma no_match_in_lines (lines : list jsstring) :
  forallb (lacks "<") lines = true ->
  forall sn s, no_match_in Wordpress.re_ptag sn (join (str "<br>") lines) s.
Proof.
  induction lines as [|x [|y tl] IH]; intros H sn s.
  - intros p1 p2 E Hp2. destruct p1; [|discriminate E].
    cbn in E. subst p2. contradiction.
  - cbn [forallb] in H. apply andb_prop in H as [H _]. cbn [join].
    apply (no_match_in_lacks "<"); auto using first_ptag.
  - rewrite join_cons. cbn [forallb] in H. apply andb_prop in H as [Hx H].
    apply no_match_in_app.
    + apply (no_match_in_lacks "<"); auto using first_ptag.
    + apply no_match_in_app; [apply no_match_in_br|]. now apply IH.
Qed.

Lemma without_paragraph_tags (lines : list jsstring) :
  forallb (lacks "<") lines = true ->
  replace Wordpress.re_ptag (Wordpress.const []) (lines_paragraph lines)
  = join (str "<br>") lines.
Proof.
  intros H. unfold replace, segments, lines_paragraph.
  rewrite (scan_hit Wordpress.re_ptag [] (str "<p>")
             (join (str "<br>") lines ++ str "</p>")
             (MState (rev (str "<p>")) (join (str "<br>") lines ++ str "</p>") []))
    by (try reflexivity; discriminate).
  rewrite scan_pass by now apply no_match_in_lines.
  rewrite <- (app_nil_r (str "</p>")).
  rewrite (scan_hit Wordpress.re_ptag _ (str "</p>") []
             (MState (rev (str "</p>") ++ rev (join (str "<br>") lines)
                      ++ rev (str "<p>") ++ []) [] []))
    by (try reflexivity; discriminate).
  rewrite scan_end by reflexivity.
  cbn [fill caps]. rewrite fill_app, fill_keep. cbn [fill].
  unfold Wordpress.const. cbn [app]. now rewrite app_nil_r.
Qed.

Lemma pieces_keep (l : jsstring) :
  forall (cur : jsstring) (segs : list seg),
    pieces cur (map Keep l ++ segs) = pieces (rev l ++ cur) segs.
Proof.
  induction l as [|c l IH]; intros cur segs; [reflexivity|].
  cbn [map app pieces]. rewrite IH. now rewrite rev_cons_app.
Qed.

Lemma no_break_in (line sn s : jsstring) :
  lacks "<" line = true -> forallb (fun c => negb (N.eqb c nl)) line = true ->
  no_match_in Wordpress.re_break sn line s.
Proof.
  intros H1 H2. apply no_match_in_first; [reflexivity|].
  induction line as [|c line IH]; [reflexivity|].
  cbn [lacks forallb] in H1, H2 |- *.
  apply andb_prop in H1 as [A1 H1]. apply andb_prop in H2 as [A2 H2].
  rewrite (IH H1 H2), andb_true_r.
  unfold not_ch in A1. apply negb_true_iff in A1, A2.
  change (negb ((c =? ch "<")%N || false || (c =? nl)%N) = true).
  now rewrite A1, A2.
Qed.

Lemma split_lines :
  forall (lines : list jsstring) (x : jsstring) (cur sn : jsstring),
    forallb clean_line (x :: lines) = true ->
    pieces cur (scan Wordpress.re_break sn (join (str "<br>") (x :: lines)) 0)
    = (rev cur ++ x) :: lines.
Proof.
  induction lines as [|y tl IH]; intros x cur sn H.
  - cbn [forallb] in H. apply andb_prop in H as [H _].
    apply clean_line_parts in H as (H1 & H2 & _).
    cbn [join]. rewrite scan_nothing; [|now apply no_break_in|reflexivity].
    rewrite <- (app_nil_r (map Keep x)), pieces_keep. cbn [pieces].
    now rewrite rev_app_distr, rev_involutive.
  - rewrite join_cons. cbn [forallb] in H. apply andb_prop in H as [Hx H].
    apply clean_line_parts in Hx as (H1 & H2 & _).
    rewrite scan_pass by now apply no_break_in.
    rewrite pieces_keep.
    rewrite (scan_hit Wordpress.re_break _ (str "<br>") (join (str "<br>") (y :: tl))
               (MState (rev (str "<br>") ++ rev x ++ sn)
                  (join (str "<br>") (y :: tl)) []))
      by (try reflexivity; discriminate).
    cbn [pieces]. rewrite rev_app_distr, rev_involutive. f_equal.
    now rewrite (IH y [] _ H).
Qed.

Lemma trim_lines (lines : list jsstring) :
  forallb clean_line lines = true -> map trim lines = lines.
Proof.
  induction lines as [|y l IH]; intros H; [reflexivity|].
  cbn [forallb] in H. apply andb_prop in H as [Hy H].
  apply clean_line_parts in Hy as (_ & _ & Hb & He).
  cbn [map]. now rewrite trim_id, IH.
Qed.

Lemma list_lines_paragraph (x : jsstring) (lines : list jsstring) :
  forallb clean_line (x :: lines) = true ->
  Wordpress.list_lines (lines_paragraph (x :: lines)) = x :: lines.
Proof.
  intros H. unfold Wordpress.list_lines.
  rewrite without_paragraph_tags.
  2:{ revert H. apply lines_impl. intros line Hl.
      now apply clean_line_parts in Hl as (Hl & _). }
  unfold split, segments. rewrite (split_lines lines x [] [] H).
  now apply trim_lines.
Qed.

(** ** Lists: the items *)

Lemma item_text_parts (text : jsstring) :
  item_text text = true ->
  (exists c t, text = c :: t /\ is_space c = false)
  /\ ends_in_space text = false
  /\ lacks "<" text = true /\ forallb (fun c => negb (N.eqb c nl)) text = true
  /\ lacks "`" text = true /\ lacks "*" text = true /\ lacks "_" text = true.
Proof.
  unfold item_text. intros H. repeat (apply andb_prop in H as [H ?]).
  repeat split; auto.
  - destruct text as [|c t]; [discriminate|]. exists c, t.
    apply negb_true_iff in H. auto.
  - now apply negb_true_iff.
Qed.

Lemma ends_in_space_app (a t : jsstring) :
  t <> [] -> ends_in_space (a ++ t) = ends_in_space t.
Proof.
  intros H. unfold ends_in_space. rewrite rev_app_distr.
  destruct (rev t) as [|c r] eqn:E; [|reflexivity].
  apply (f_equal (@rev char)) in E. rewrite rev_involutive in E. contradiction.
Qed.

Lemma m_group (i : nat) (r : regex) (k : cont) (st : mstate) :
  m (Group i r) k st
  = m r (fun st' => k (MState (seen st') (rest st')
                         ((i, consumed (rest st) (rest st')) :: caps st'))) st.
Proof. reflexivity. Qed.

Lemma m_cls (p : char -> bool) (k : cont) (sn : jsstring) (c : char)
    (rs : jsstring) (cs : captures) :
  p c = true -> m (Cls p) k (MState sn (c :: rs) cs) = k (MState (c :: sn) rs cs).
Proof. intros H. cbn [m rest seen caps]. now rewrite H. Qed.

Lemma m_bol_start (ml : bool) (k : cont) (rs : jsstring) (cs : captures) :
  m (Bol ml) k (MState [] rs cs) = k (MState [] rs cs).
Proof. reflexivity. Qed.

Lemma forallb_any (w : jsstring) : forallb any w = true.
Proof. induction w; simpl; auto. Qed.

(** The lazy run up to the closing tag of the paragraph. *)
Lemma rest_of_paragraph (k : cont) (w sn post : jsstring) (cs : captures)
    (res : mstate) :
  sealed w = true ->
  (forall st', strip (str "</p>") (rest st') = None -> k st' = None) ->
  k (MState (rev w ++ sn) (str "</p>" ++ post) cs) = Some res ->
  rep false any k 0 None sn (w ++ str "</p>" ++ post) cs = Some res.
Proof.
  intros Hw Hnone Hk.
  apply rep_lazy_first; [apply forallb_any|apply Nat.le_0_l| |exact Hk].
  intros w1 w2 E Hw2 _. apply Hnone. cbn [rest].
  exact (sealed_strip w Hw w1 w2 _ E Hw2).
Qed.

Lemma without_bullet (text : jsstring) :
  item_text text = true ->
  without_prefix Wordpress.re_ul_item (bullet_line text) = Some text.
Proof.
  intros H. apply item_text_parts in H as ((c & t & -> & Hc) & _).
  unfold without_prefix, exec, Wordpress.re_ul_item, bullet_line.
  rewrite m_seq, m_bol_start, m_seq.
  change (str "- " ++ c :: t) with (ch "-" :: [ch " "] ++ c :: t).
  rewrite m_cls by reflexivity.
  rewrite m_rep, (rep_greedy_all is_space _ [ch " "] 1 _ (c :: t) []
                    (MState (rev [ch " "] ++ [ch "-"]) (c :: t) []));
    try reflexivity; auto.
  cbn. now rewrite Hc.
Qed.

Lemma without_number (digits text : jsstring) :
  digits <> [] -> forallb is_digit digits = true -> item_text text = true ->
  without_prefix Wordpress.re_ol_item (numbered_line (digits, text)) = Some text.
Proof.
  intros Hne Hd H. apply item_text_parts in H as ((c & t & -> & Hc) & _).
  unfold without_prefix, exec, Wordpress.re_ol_item, numbered_line. cbn [fst snd].
  rewrite m_seq, m_bol_start, m_seq, m_rep.
  rewrite (rep_greedy_all is_digit _ digits 1 _ (str ". " ++ c :: t) []
             (MState (rev [ch " "] ++ rev (str ".") ++ rev digits ++ []) (c :: t) []));
    try reflexivity; auto using nonempty_length.
  change (str ". " ++ c :: t) with (str "." ++ [ch " "] ++ c :: t).
  rewrite m_seq, m_lit, m_rep.
  apply rep_greedy_all; try reflexivity; auto.
  cbn. now rewrite Hc.
Qed.

Lemma bullet_texts (texts : list jsstring) :
  forallb item_text texts = true ->
  item_texts Wordpress.re_ul_item (map bullet_line texts) = texts.
Proof.
  induction texts as [|t l IH]; intros H; [reflexivity|].
  cbn [forallb] in H. apply andb_prop in H as [Ht H].
  cbn [map item_texts]. now rewrite (without_bullet t Ht), IH.
Qed.

Lemma numbered_texts (items : list (jsstring * jsstring)) :
  forallb numbered items = true ->
  item_texts Wordpress.re_ol_item (map numbered_line items) = map snd items.
Proof.
  induction items as [|[d t] l IH]; intros H; [reflexivity|].
  cbn [forallb] in H. apply andb_prop in H as [Ht H].
  unfold numbered in Ht. cbn [fst snd] in Ht.
  apply andb_prop in Ht as [Ht H3]. apply andb_prop in Ht as [H1 H2].
  cbn [map item_texts snd].
  rewrite (without_number d t); auto; [now rewrite IH|].
  intros E. now rewrite E in H1.
Qed.

Lemma bullet_line_clean (text : jsstring) :
  item_text text = true -> clean_line (bullet_line text) = true.
Proof.
  intros H. apply item_text_parts in H as ((c & t & -> & Hc) & He & Hlt & Hnl & _).
  unfold clean_line, bullet_line.
  apply andb_true_intro; split;
    [apply andb_true_intro; split; [apply andb_true_intro; split|]|].
  - now rewrite lacks_app, Hlt.
  - rewrite forallb_app. apply andb_true_intro; split; [reflexivity|exact Hnl].
  - reflexivity.
  - now rewrite ends_in_space_app, He by discriminate.
Qed.

Lemma digits_lack (a : ascii) (digits : jsstring) :
  is_digit (ch a) = false -> forallb is_digit digits = true -> lacks a digits = true.
Proof.
  intros Ha. apply forallb_impl. intros c Hc. unfold not_ch.
  destruct (N.eqb_spec c (ch a)) as [->|]; [congruence|reflexivity].
Qed.

Lemma numbered_parts (item : jsstring * jsstring) :
  numbered item = true ->
  fst item <> [] /\ forallb is_digit (fst item) = true /\ item_text (snd item) = true.
Proof.
  unfold numbered. intros H. apply andb_prop in H as [H H3].
  apply andb_prop in H as [H1 H2]. repeat split; auto.
  intros E. now rewrite E in H1.
Qed.

Lemma numbered_line_clean (item : jsstring * jsstring) :
  numbered item = true -> clean_line (numbered_line item) = true.
Proof.
  intros H. apply numbered_parts in H as (Hne & Hd & H).
  apply item_text_parts in H as ((c & t & E & Hc) & He & Hlt & Hnl & _).
  destruct item as [d text]. cbn [fst snd] in *. subst text.
  assert (N : forallb (fun c => negb (N.eqb c nl)) d = true).
  { revert Hd. apply forallb_impl. intros x Hx.
    destruct (N.eqb_spec x nl) as [->|]; [discriminate|reflexivity]. }
  unfold clean_line, numbered_line. cbn [fst snd].
  apply andb_true_intro; split;
    [apply andb_true_intro; split; [apply andb_true_intro; split|]|].
  1:{ now rewrite !lacks_app, (digits_lack "<" d eq_refl Hd), Hlt. }
  1:{ rewrite !forallb_app.
      apply andb_true_intro; split; [exact N|].
      apply andb_true_intro; split; [reflexivity|exact Hnl]. }
  2:{ now rewrite app_assoc, ends_in_space_app, He by discriminate. }
  destruct d as [|x d]; [contradiction|].
  cbn [forallb] in Hd. apply andb_prop in Hd as [Hx _].
  assert (S : is_space x = false).
  { destruct (is_space x) eqn:E; [|reflexivity].
    unfold is_digit, between in Hx. unfold is_space, one_of, between in E.
    cbn [existsb] in E.
    repeat match type of E with
           | (N.eqb x ?n || _) = true =>
               destruct (N.eqb_spec x n) as [->|]; [discriminate Hx|]; cbn [orb] in E
           | ((N.eqb x ?n || _) || _) = true =>
               destruct (N.eqb_spec x n) as [->|]; [discriminate Hx|]; cbn [orb] in E
           end.
    apply andb_prop in Hx as [A B]. apply N.leb_le in A, B.
    cbn [orb] in E. apply andb_prop in E as [A' B']. apply N.leb_le in A', B'. lia. }
  cbn [app begins_in_space]. now rewrite S.
Qed.

(** ** Lists: the passes on the paragraph *)

Lemma exec_ul (sn w post : jsstring) :
  sealed w = true -> stops is_space (w ++ str "</p>" ++ post) = true ->
  exists sn',
    exec Wordpress.re_ul sn
      (str "<p>" ++ (ch "-" :: ch " " :: w) ++ str "</p>" ++ post)
    = Some (MState sn' post [(1, ch "-" :: ch " " :: w)]).
Proof.
  intros Hw Hs. eexists. unfold exec, Wordpress.re_ul.
  rewrite m_seq, m_lit, m_seq, m_group, m_seq.
  cbn [rest app].
  rewrite m_cls by reflexivity.
  rewrite m_seq, m_rep.
  change (ch " " :: w ++ str "</p>" ++ post)
    with ([ch " "] ++ w ++ str "</p>" ++ post).
  apply rep_greedy_all; [reflexivity|exact Hs|apply Nat.le_refl|].
  rewrite m_rep.
  apply rest_of_paragraph; [exact Hw| |].
  - intros st' H. cbn [m rest seen caps]. now rewrite H.
  - cbn [seen rest caps]. rewrite m_lit.
    change (ch "-" :: [ch " "] ++ w ++ str "</p>" ++ post)
      with ((ch "-" :: ch " " :: w) ++ str "</p>" ++ post).
    rewrite consumed_app. reflexivity.
Qed.

Lemma exec_ol (sn digits w post : jsstring) :
  digits <> [] -> forallb is_digit digits = true ->
  sealed w = true -> stops is_space (w ++ str "</p>" ++ post) = true ->
  exists sn',
    exec Wordpress.re_ol sn
      (str "<p>" ++ (digits ++ ch "." :: ch " " :: w) ++ str "</p>" ++ post)
    = Some (MState sn' post [(1, digits ++ ch "." :: ch " " :: w)]).
Proof.
  intros Hne Hd Hw Hs. eexists. unfold exec, Wordpress.re_ol.
  rewrite m_seq, m_lit, m_seq, m_group, m_seq, m_rep.
  cbn [rest]. rewrite <- app_assoc.
  apply rep_greedy_all; [exact Hd|reflexivity|now apply nonempty_length|].
  cbn [app].
  change (ch "." :: ch " " :: w ++ str "</p>" ++ post)
    with (str "." ++ [ch " "] ++ w ++ str "</p>" ++ post).
  rewrite m_seq, m_lit, m_seq, m_rep.
  apply rep_greedy_all; [reflexivity|exact Hs|apply Nat.le_refl|].
  rewrite m_rep.
  apply rest_of_paragraph; [exact Hw| |].
  - intros st' H. cbn [m rest seen caps]. now rewrite H.
  - cbn [seen rest caps]. rewrite m_lit.
    change (str "." ++ [ch " "] ++ w ++ str "</p>" ++ post)
      with ((ch "." :: ch " " :: w) ++ str "</p>" ++ post).
    rewrite (app_assoc digits (ch "." :: ch " " :: w) (str "</p>" ++ post)).
    rewrite consumed_app. reflexivity.
Qed.

Lemma exec_rule_bullet (sn w : jsstring) :
  exec Wordpress.re_rule sn (str "<p>" ++ (ch "-" :: ch " " :: w)) = None.
Proof.
  unfold exec, Wordpress.re_rule.
  rewrite m_seq, m_lit, m_seq, m_rep.
  change (ch "-" :: ch " " :: w) with ([ch "-"] ++ ch " " :: w).
  apply rep_short; [reflexivity|reflexivity|cbn; lia].
Qed.

Lemma join_lacks (a : ascii) (sep : jsstring) (lines : list jsstring) :
  lacks a sep = true -> forallb (lacks a) lines = true ->
  lacks a (join sep lines) = true.
Proof.
  intros Hsep. induction lines as [|x [|y tl] IH]; intros H; [reflexivity| |].
  - cbn [forallb] in H. now apply andb_prop in H as [H _].
  - rewrite join_cons. cbn [forallb] in H. apply andb_prop in H as [Hx H].
    now rewrite !lacks_app, Hx, Hsep, IH.
Qed.

Lemma lines_paragraph_lacks (a : ascii) (lines : list jsstring) :
  lacks a (str "<p></br>") = true -> forallb (lacks a) lines = true ->
  lacks a (lines_paragraph lines) = true.
Proof.
  intros Ha H. unfold lines_paragraph.
  assert (A : lacks a (str "<p>") = true /\ lacks a (str "</p>") = true
              /\ lacks a (str "<br>") = true).
  { cbn in Ha |- *. repeat (apply andb_prop in Ha as [? Ha]).
    repeat split; repeat (apply andb_true_intro; split); auto. }
  destruct A as (A1 & A2 & A3).
  now rewrite !lacks_app, A1, A2, (join_lacks a _ lines A3 H).
Qed.

(** A paragraph that holds no further opening paragraph tag, in quiet
    text. *)
Lemma body_quiet (trig : char -> bool) (pre : jsstring) (c : char)
    (body post : jsstring) :
  trig (ch "<") = false -> trig c = false ->
  occurs (str "<p>") (c :: body) = false ->
  quiet trig pre = true -> quiet trig post = true ->
  quiet trig (pre ++ (str "<p>" ++ (c :: body) ++ str "</p>") ++ post) = true.
Proof.
  intros Hlt Hc Ho Hpre Hpost.
  assert (A : forall s, apart trig (ch "<" :: s) = true).
  { intros s. change (negb (is_ch "p" (ch "<")) && negb (is_ch ">" (ch "<"))
                      && negb (trig (ch "<")) = true). now rewrite Hlt. }
  apply quiet_app; [exact Hpre| |apply A].
  rewrite <- !app_assoc.
  change (str "<p>" ++ (c :: body) ++ str "</p>" ++ post)
    with (ch "<" :: str "p>" ++ (c :: body) ++ str "</p>" ++ post).
  cbn [quiet]. apply andb_true_intro. split.
  - unfold calm.
    change (strip (str "<p>") (ch "<" :: str "p>" ++ (c :: body) ++ str "</p>" ++ post))
      with (Some ((c :: body) ++ str "</p>" ++ post)).
    cbn [app]. now rewrite Hc.
  - change (quiet trig (str "p>" ++ (c :: body) ++ str "</p>" ++ post))
      with (quiet trig ((c :: body) ++ str "</p>" ++ post)).
    apply quiet_app; [now apply quiet_absent|exact Hpost|apply A].
Qed.

Lemma list_of_quiet (trig : char -> bool) (open close : jsstring)
    (pre : jsstring) (texts : list jsstring) (post : jsstring) :
  trig (ch "<") = false ->
  (forall s, quiet trig (open ++ s) = quiet trig s) ->
  (forall s, quiet trig (close ++ s) = quiet trig s) ->
  (forall s, apart trig (open ++ s) = true) ->
  forallb (lacks "<") texts = true ->
  quiet trig pre = true -> quiet trig post = true ->
  quiet trig (pre ++ list_of open close texts ++ post) = true.
Proof.
  intros Hlt Ho Hc Ha Ht Hpre Hpost. unfold list_of.
  apply quiet_app; [exact Hpre| |rewrite <- !app_assoc; apply Ha].
  rewrite <- !app_assoc, Ho.
  assert (Li : forall x s, lacks "<" x = true -> quiet trig s = true ->
                           quiet trig ((str "<li>" ++ x ++ str "</li>") ++ s) = true).
  { intros x s Hx Hs. rewrite <- !app_assoc.
    change (quiet trig (str "<li>" ++ x ++ str "</li>" ++ s))
      with (quiet trig (x ++ str "</li>" ++ s)).
    apply quiet_lacks_app; [exact Hx|]. exact Hs. }
  induction texts as [|x [|y tl] IH].
  - cbn [map join app]. now rewrite Hc.
  - cbn [forallb] in Ht. apply andb_prop in Ht as [Hx _].
    cbn [map join]. apply Li; [exact Hx|]. now rewrite Hc.
  - cbn [forallb] in Ht. apply andb_prop in Ht as [Hx Ht].
    change (map (fun text => str "<li>" ++ text ++ str "</li>") (x :: y :: tl))
      with ((str "<li>" ++ x ++ str "</li>")
            :: map (fun text => str "<li>" ++ text ++ str "</li>") (y :: tl)).
    change (join [nl] ((str "<li>" ++ x ++ str "</li>")
                       :: map (fun text => str "<li>" ++ text ++ str "</li>") (y :: tl)))
      with ((str "<li>" ++ x ++ str "</li>") ++ [nl]
            ++ join [nl] (map (fun text => str "<li>" ++ text ++ str "</li>") (y :: tl))).
    rewrite <- (app_assoc (str "<li>" ++ x ++ str "</li>")).
    apply Li; [exact Hx|].
    rewrite <- app_assoc.
    apply quiet_lacks_app; [reflexivity|]. now apply IH.
Qed.

Lemma head_first (sep x : jsstring) (tl : list jsstring) :
  exists tail, join sep (x :: tl) = x ++ tail.
Proof.
  destruct tl as [|y tl]; [exists []; cbn [join]; now rewrite app_nil_r|].
  now exists (sep ++ join sep (y :: tl)).
Qed.

Lemma forallb_map_lines {A : Type} (p : jsstring -> bool) (f : A -> jsstring)
    (q : A -> bool) (l : list A) :
  (forall x, q x = true -> p (f x) = true) ->
  forallb q l = true -> forallb p (map f l) = true.
Proof.
  intros H. induction l as [|x l IH]; [reflexivity|].
  cbn [forallb map]. intros E. apply andb_prop in E as [E1 E2].
  now rewrite (H _ E1), IH.
Qed.

(** X7.  A paragraph whose lines, set apart by [<br>], are each a hyphen,
    a space and a text becomes an unordered list with one item for each
    line, the items set apart by line feeds: in plain surroundings, for
    texts that neither begin nor end with white space and hold no less-than
    sign, line feed, backtick, asterisk or underscore. *)
Theorem processContent_unordered_list :
  forall (pre : jsstring) (texts : list jsstring) (post : jsstring),
    plain pre = true -> plain post = true ->
    texts <> [] -> forallb item_text texts = true ->
    Wordpress.processContent (pre ++ lines_paragraph (map bullet_line texts) ++ post)
    = pre ++ list_of (str "<ul>") (str "</ul>") texts ++ post.
Proof.
  intros pre texts post Hpre Hpost Hne Hs.
  apply plain_parts in Hpre as (Hpre1 & Hpre2 & Hpre3 & Hpre4).
  apply plain_parts in Hpost as (Hpost1 & Hpost2 & Hpost3 & Hpost4).
  destruct texts as [|t ts]; [contradiction|]. clear Hne.
  assert (Hclean : forallb clean_line (map bullet_line (t :: ts)) = true).
  { revert Hs. apply forallb_map_lines. apply bullet_line_clean. }
  assert (Hl : forall a, lacks a (str "- ") = true ->
                         (forall x, item_text x = true -> lacks a x = true) ->
                         forallb (lacks a) (map bullet_line (t :: ts)) = true).
  { intros a Ha Hx. revert Hs. apply forallb_map_lines. intros x Hi.
    unfold bullet_line. now rewrite lacks_app, Ha, (Hx x Hi). }
  assert (Hlt : forallb (lacks "<") (map bullet_line (t :: ts)) = true).
  { apply Hl; [reflexivity|]. intros x Hx. now apply item_text_parts in Hx. }
  destruct (head_first (str "<br>") (bullet_line t) (map bullet_line ts))
    as [tail Eb].
  pose proof (sealed_join _ Hlt) as Hsealed.
  pose proof (occurs_join _ Hlt) as Hocc.
  cbn [forallb] in Hs. apply andb_prop in Hs as [Ht Hts].
  pose proof Ht as Ht'.
  apply item_text_parts in Ht' as ((c & t' & Et & Hc) & _).
  unfold lines_paragraph. cbn [map] in *.
  set (body := join (str "<br>") (bullet_line t :: map bullet_line ts)) in *.
  assert (Ebody : body = ch "-" :: ch " " :: (t ++ tail)).
  { rewrite Eb. unfold bullet_line. now rewrite <- app_assoc. }
  assert (L : forall a, lacks a (str "<p></br>- ") = true ->
                        (forall x, item_text x = true -> lacks a x = true) ->
                        lacks a pre = true -> lacks a post = true ->
                        lacks a (pre ++ (str "<p>" ++ body ++ str "</p>") ++ post) = true).
  { intros a H1 H2 H3 H4.
    assert (A : lacks a (str "<p></br>") = true /\ lacks a (str "- ") = true).
    { cbn in H1 |- *. repeat (apply andb_prop in H1 as [? H1]).
      split; repeat (apply andb_true_intro; split); auto. }
    destruct A as [A1 A2].
    pose proof (lines_paragraph_lacks a _ A1 (Hl a A2 H2)) as P.
    unfold lines_paragraph in P. cbn [map] in P. fold body in P.
    now rewrite !lacks_app, H3, H4, <- !lacks_app, P. }
  assert (W : forall trig x, In trig [is_ch "#"; is_ch "~"; is_ch "&";
                                       one_of (str "-*_"); is_digit] ->
                             trig x = true -> marker x = true).
  { intros trig x [<-|[<-|[<-|[<-|[<-|[]]]]]] Hx; unfold marker;
      now rewrite Hx, ?orb_true_r. }
  assert (Q : forall trig, In trig [is_ch "#"; is_ch "~"; is_ch "&"; is_digit] ->
                           quiet trig (pre ++ (str "<p>" ++ body ++ str "</p>") ++ post)
                           = true).
  { intros trig Hin. rewrite Ebody. apply body_quiet.
    - destruct Hin as [<-|[<-|[<-|[<-|[]]]]]; reflexivity.
    - destruct Hin as [<-|[<-|[<-|[<-|[]]]]]; reflexivity.
    - now rewrite <- Ebody.
    - apply (quiet_weaken marker); auto. intros x. apply W.
      destruct Hin as [<-|[<-|[<-|[<-|[]]]]]; simpl; tauto.
    - apply (quiet_weaken marker); auto. intros x. apply W.
      destruct Hin as [<-|[<-|[<-|[<-|[]]]]]; simpl; tauto. }
  rewrite before_blocks.
  2-4: apply L; auto; intros x Hx; now apply item_text_parts in Hx.
  2:{ apply Q. simpl; auto. }
  rewrite fences_inert.
  2:{ apply L; auto. intros x Hx. now apply item_text_parts in Hx. }
  2:{ apply Q. simpl; auto. }
  rewrite blockquote_inert by (apply Q; simpl; auto).
  unfold Wordpress.re_rule.
  rewrite (replace_paragraph_miss (one_of (str "-*_"))); auto.
  2:{ intros x. cbn [first nullable Nat.eqb andb orb]. now rewrite ?orb_false_r. }
  2,3: apply (quiet_weaken marker); auto; intros x; apply W; simpl In; tauto.
  2:{ intros sn. rewrite Ebody. cbn [app]. apply exec_rule_bullet. }
  unfold Wordpress.re_ol.
  rewrite (replace_quiet is_digit); [|reflexivity| |apply Q; simpl; auto].
  2:{ intros x. cbn [first nullable Nat.eqb andb orb]. now rewrite ?orb_false_r. }
  destruct (exec_ul (rev pre) (t ++ tail) post) as [sn' He].
  { apply (sealed_suffix (str "- ")). rewrite Ebody in Hsealed. exact Hsealed. }
  { rewrite Et. cbn. now rewrite Hc. }
  rewrite <- Ebody in He.
  assert (Hseg : segments Wordpress.re_ul
                   (pre ++ (str "<p>" ++ body ++ str "</p>") ++ post)
                 = map Keep pre
                   ++ Hit (str "<p>" ++ body ++ str "</p>") [(1, body)]
                   :: map Keep post).
  { apply (scan_one _ _ _ _ (MState sn' post [(1, body)])).
    - unfold Wordpress.re_ul.
      apply (no_match_in_quiet marker); [apply first_marker; simpl; tauto..| |];
        auto.
    - rewrite <- !app_assoc. exact He.
    - reflexivity.
    - discriminate.
    - unfold Wordpress.re_ul.
      apply (no_match_in_quiet marker); [apply first_marker; simpl; tauto..| |];
        auto.
    - reflexivity. }
  rewrite (replace_one _ _ _ _ _ _ Hseg). do 2 f_equal.
  unfold Wordpress.unordered.
  rewrite (list_rewrite (str "<ul>") (str "</ul>")
             (Seq (Cls (one_of (str "-*"))) (Rep true 1 None is_space))).
  unfold list_element.
  change (str "<p>" ++ body ++ str "</p>")
    with (lines_paragraph (bullet_line t :: map bullet_line ts)).
  rewrite list_lines_paragraph by exact Hclean.
  change (bullet_line t :: map bullet_line ts) with (map bullet_line (t :: ts)).
  change (Seq (Bol false) (Seq (Cls (one_of (str "-*"))) (Rep true 1 None is_space)))
    with Wordpress.re_ul_item.
  rewrite bullet_texts by (cbn [forallb]; now rewrite Ht, Hts).
  reflexivity.
Qed.

Lemma processContent_unordered_list_witness :
  Wordpress.processContent
    (str "<p>To do:</p>"
     ++ lines_paragraph (map bullet_line [str "buy milk"; str "write tests"])
     ++ str "<p>Done.</p>")
  = str "<p>To do:</p>"
    ++ list_of (str "<ul>") (str "</ul>") [str "buy milk"; str "write tests"]
    ++ str "<p>Done.</p>".
Proof.
  apply (processContent_unordered_list (str "<p>To do:</p>")
           [str "buy milk"; str "write tests"] (str "<p>Done.</p>"));
    try reflexivity.
  discriminate.
Defined.

Lemma digit_outside (trig : char -> bool) (x : char) :
  In trig [is_ch "#"; is_ch "~"; is_ch "&"; is_ch "<"; one_of (str "-*_");
           one_of (str "-*")] ->
  is_digit x = true -> trig x = false.
Proof.
  intros Hin Hx. unfold is_digit, between in Hx.
  apply andb_prop in Hx as [A B]. apply N.leb_le in A, B.
  destruct Hin as [<-|[<-|[<-|[<-|[<-|[<-|[]]]]]]];
    unfold is_ch, one_of; cbn [existsb str map list_ascii_of_string ch];
    repeat match goal with
           | |- context [N.eqb x ?n] =>
               destruct (N.eqb_spec x n) as [->|_]; [cbn in A, B; lia|]
           end;
    reflexivity.
Qed.

(** X8.  A paragraph whose lines, set apart by [<br>], are each a number,
    a full stop, a space and a text becomes an ordered list with one item
    for each line, the items set apart by line feeds and the numbers written
    dropped: in plain surroundings, for texts that neither begin nor end with
    white space and hold no less-than sign, line feed, backtick, asterisk or
    underscore. *)
Theorem processContent_ordered_list :
  forall (pre : jsstring) (items : list (jsstring * jsstring)) (post : jsstring),
    plain pre = true -> plain post = true ->
    items <> [] -> forallb numbered items = true ->
    Wordpress.processContent (pre ++ lines_paragraph (map numbered_line items) ++ post)
    = pre ++ list_of (str "<ol>") (str "</ol>") (map snd items) ++ post.
Proof.
  intros pre items post Hpre Hpost Hne Hs.
  apply plain_parts in Hpre as (Hpre1 & Hpre2 & Hpre3 & Hpre4).
  apply plain_parts in Hpost as (Hpost1 & Hpost2 & Hpost3 & Hpost4).
  destruct items as [|[d t] ts]; [contradiction|]. clear Hne.
  assert (Hclean : forallb clean_line (map numbered_line ((d, t) :: ts)) = true).
  { revert Hs. apply forallb_map_lines. apply numbered_line_clean. }
  assert (Hl : forall a, lacks a (str ". ") = true -> is_digit (ch a) = false ->
                         (forall x, item_text x = true -> lacks a x = true) ->
                         forallb (lacks a) (map numbered_line ((d, t) :: ts)) = true).
  { intros a Ha Hd Hx. revert Hs. apply forallb_map_lines. intros x Hi.
    apply numbered_parts in Hi as (_ & H2 & H3).
    unfold numbered_line.
    now rewrite !lacks_app, Ha, (Hx _ H3), (digits_lack a _ Hd H2). }
  assert (Hlt : forallb (lacks "<") (map numbered_line ((d, t) :: ts)) = true).
  { apply Hl; [reflexivity|reflexivity|].
    intros x Hx. now apply item_text_parts in Hx. }
  assert (Htexts : forallb (lacks "<") (map snd ((d, t) :: ts)) = true).
  { revert Hs. apply forallb_map_lines. intros x Hi.
    apply numbered_parts in Hi as (_ & _ & H3). now apply item_text_parts in H3. }
  destruct (head_first (str "<br>") (numbered_line (d, t)) (map numbered_line ts))
    as [tail Eb].
  pose proof (sealed_join _ Hlt) as Hsealed.
  pose proof (occurs_join _ Hlt) as Hocc.
  pose proof Hs as Hs'.
  cbn [forallb] in Hs'. apply andb_prop in Hs' as [Ht Hts].
  apply numbered_parts in Ht as (Hdne & Hd & Ht). cbn [fst snd] in Hdne, Hd, Ht.
  pose proof Ht as Ht'.
  apply item_text_parts in Ht' as ((c & t' & Et & Hc) & _).
  assert (Ed : exists x d', d = x :: d' /\ is_digit x = true).
  { destruct d as [|x d']; [contradiction|]. exists x, d'. split; [reflexivity|].
    cbn [forallb] in Hd. now apply andb_prop in Hd as [Hx _]. }
  destruct Ed as (x & d' & Ed & Hx).
  unfold lines_paragraph. cbn [map] in *.
  set (body := join (str "<br>") (numbered_line (d, t) :: map numbered_line ts)) in *.
  assert (Ebody : body = d ++ ch "." :: ch " " :: (t ++ tail)).
  { rewrite Eb. unfold numbered_line. cbn [fst snd]. now rewrite <- !app_assoc. }
  assert (L : forall a, lacks a (str "<p></br>. ") = true -> is_digit (ch a) = false ->
                        (forall x, item_text x = true -> lacks a x = true) ->
                        lacks a pre = true -> lacks a post = true ->
                        lacks a (pre ++ (str "<p>" ++ body ++ str "</p>") ++ post) = true).
  { intros a H1 H0 H2 H3 H4.
    assert (A : lacks a (str "<p></br>") = true /\ lacks a (str ". ") = true).
    { cbn in H1 |- *. repeat (apply andb_prop in H1 as [? H1]).
      split; repeat (apply andb_true_intro; split); auto. }
    destruct A as [A1 A2].
    pose proof (lines_paragraph_lacks a _ A1 (Hl a A2 H0 H2)) as P.
    unfold lines_paragraph in P. cbn [map] in P. fold body in P.
    now rewrite !lacks_app, H3, H4, <- !lacks_app, P. }
  assert (W : forall trig y, In trig [is_ch "#"; is_ch "~"; is_ch "&";
                                       one_of (str "-*_"); one_of (str "-*")] ->
                             trig y = true -> marker y = true).
  { intros trig y [<-|[<-|[<-|[<-|[<-|[]]]]]] Hy; unfold marker;
      try (now rewrite Hy, ?orb_true_r).
    assert (E : one_of (str "-*_") y = true).
    { unfold one_of in *. simpl in Hy |- *.
      destruct (N.eqb y 45); [reflexivity|]. destruct (N.eqb y 42); [reflexivity|].
      discriminate. }
    now rewrite E, ?orb_true_r. }
  assert (Q : forall trig, In trig [is_ch "#"; is_ch "~"; is_ch "&";
                                     one_of (str "-*_")] ->
                           quiet trig (pre ++ (str "<p>" ++ body ++ str "</p>") ++ post)
                           = true).
  { intros trig Hin. rewrite Ebody, Ed. cbn [app]. apply body_quiet.
    - destruct Hin as [<-|[<-|[<-|[<-|[]]]]]; reflexivity.
    - apply digit_outside; [|exact Hx].
      destruct Hin as [<-|[<-|[<-|[<-|[]]]]]; simpl; tauto.
    - change (occurs (str "<p>") ((x :: d') ++ ch "." :: ch " " :: t ++ tail) = false).
      now rewrite <- Ed, <- Ebody.
    - apply (quiet_weaken marker); auto. intros y. apply W.
      destruct Hin as [<-|[<-|[<-|[<-|[]]]]]; simpl; tauto.
    - apply (quiet_weaken marker); auto. intros y. apply W.
      destruct Hin as [<-|[<-|[<-|[<-|[]]]]]; simpl; tauto. }
  rewrite before_blocks.
  2-4: apply L; auto; intros y Hy; now apply item_text_parts in Hy.
  2:{ apply Q. simpl; auto. }
  rewrite fences_inert.
  2:{ apply L; auto. intros y Hy. now apply item_text_parts in Hy. }
  2:{ apply Q. simpl; auto. }
  rewrite blockquote_inert by (apply Q; simpl; auto).
  unfold Wordpress.re_rule.
  rewrite (replace_quiet (one_of (str "-*_")));
    [|reflexivity| |apply Q; simpl; auto].
  2:{ intros y. cbn [first nullable Nat.eqb andb orb]. now rewrite ?orb_false_r. }
  destruct (exec_ol (rev pre) d (t ++ tail) post) as [sn' He]; auto.
  { apply (sealed_suffix (d ++ str ". ")). rewrite Ebody in Hsealed.
    now rewrite <- app_assoc. }
  { rewrite Et. cbn. now rewrite Hc. }
  rewrite <- Ebody in He.
  assert (Hseg : segments Wordpress.re_ol
                   (pre ++ (str "<p>" ++ body ++ str "</p>") ++ post)
                 = map Keep pre
                   ++ Hit (str "<p>" ++ body ++ str "</p>") [(1, body)]
                   :: map Keep post).
  { apply (scan_one _ _ _ _ (MState sn' post [(1, body)])).
    - unfold Wordpress.re_ol.
      apply (no_match_in_quiet marker); [apply first_marker; simpl; tauto..| |];
        auto.
    - rewrite <- !app_assoc. exact He.
    - reflexivity.
    - discriminate.
    - unfold Wordpress.re_ol.
      apply (no_match_in_quiet marker); [apply first_marker; simpl; tauto..| |];
        auto.
    - reflexivity. }
  rewrite (replace_one _ _ _ _ _ _ Hseg).
  assert (Eo : Wordpress.ordered (str "<p>" ++ body ++ str "</p>") [(1, body)]
               = list_of (str "<ol>") (str "</ol>") (map snd ((d, t) :: ts))).
  { unfold Wordpress.ordered.
    rewrite (list_rewrite (str "<ol>") (str "</ol>")
               (Seq (Rep true 1 None is_digit)
                  (Seq (Lit (str ".")) (Rep true 1 None is_space)))).
    unfold list_element.
    change (str "<p>" ++ body ++ str "</p>")
      with (lines_paragraph (numbered_line (d, t) :: map numbered_line ts)).
    rewrite list_lines_paragraph by exact Hclean.
    change (numbered_line (d, t) :: map numbered_line ts)
      with (map numbered_line ((d, t) :: ts)).
    change (Seq (Bol false)
              (Seq (Rep true 1 None is_digit)
                 (Seq (Lit (str ".")) (Rep true 1 None is_space))))
      with Wordpress.re_ol_item.
    rewrite numbered_texts by exact Hs.
    reflexivity. }
  rewrite Eo.
  unfold Wordpress.re_ul.
  apply (replace_quiet (one_of (str "-*"))); [reflexivity| |].
  { intros y. cbn [first nullable Nat.eqb andb orb]. now rewrite ?orb_false_r. }
  apply list_of_quiet; try (intros; reflexivity); auto.
  - apply (quiet_weaken marker); auto. intros y. apply W. simpl; tauto.
  - apply (quiet_weaken marker); auto. intros y. apply W. simpl; tauto.
Qed.

Lemma processContent_ordered_list_witness :
  Wordpress.processContent
    (str "<p>Steps:</p>"
     ++ lines_paragraph
          (map numbered_line [(str "1", str "clone"); (str "2", str "build");
                              (str "10", str "ship")])
     ++ str "<p>Done.</p>")
  = str "<p>Steps:</p>"
    ++ list_of (str "<ol>") (str "</ol>")
         (map snd [(str "1", str "clone"); (str "2", str "build");
                   (str "10", str "ship")])
    ++ str "<p>Done.</p>".
Proof.
  apply (processContent_ordered_list (str "<p>Steps:</p>")
           [(str "1", str "clone"); (str "2", str "build"); (str "10", str "ship")]
           (str "<p>Done.</p>"));
    try reflexivity.
  discriminate.
Defined.

(** ** Single characters, and the escaping of fenced code *)

Lemma scan_cls (p : char -> bool) :
  forall s sn,
    scan (Cls p) sn s 0 = map (fun c => if p c then Hit [c] [] else Keep c) s.
Proof.
  induction s as [|c s IH]; intros sn; [reflexivity|].
  cbn [scan map]. unfold exec. cbn [m rest seen caps].
  destruct (p c).
  - cbn [rest caps]. change (consumed (c :: s) s) with (consumed ([c] ++ s) s).
    rewrite consumed_app. cbn [length]. now rewrite IH.
  - now rewrite IH.
Qed.

Lemma replace_cls (p : char -> bool) (f : jsstring -> captures -> jsstring)
    (s : jsstring) :
  replace (Cls p) f s = flat_map (fun c => if p c then f [c] [] else [c]) s.
Proof.
  unfold replace, segments. rewrite scan_cls.
  induction s as [|c s IH]; [reflexivity|].
  cbn [map flat_map]. destruct (p c); cbn [fill]; now rewrite IH.
Qed.

Lemma exec_lit1 (x : char) (sn s : jsstring) :
  exec (Lit [x]) sn s = exec (Cls (fun c => N.eqb c x)) sn s.
Proof.
  unfold exec. cbn [m rest seen caps]. destruct s as [|c s]; [reflexivity|].
  cbn [strip]. destruct (N.eqb_spec c x) as [->|]; reflexivity.
Qed.

Lemma replace_lit1 (x : char) (f : jsstring -> captures -> jsstring) (s : jsstring) :
  replace (Lit [x]) f s = flat_map (fun c => if N.eqb c x then f [c] [] else [c]) s.
Proof.
  rewrite <- replace_cls. unfold replace, segments. f_equal.
  apply scan_ext. intros sn t. apply exec_lit1.
Qed.

Lemma flat_map_flat_map (f g : char -> jsstring) (s : jsstring) :
  flat_map g (flat_map f s) = flat_map (fun c => flat_map g (f c)) s.
Proof.
  induction s as [|c s IH]; [reflexivity|].
  cbn [flat_map]. now rewrite flat_map_app, IH.
Qed.

Lemma escape_entities (code : jsstring) :
  Wordpress.escape code = flat_map entity (trim code).
Proof.
  unfold Wordpress.escape.
  change (str ">") with [ch ">"]. change (str "<") with [ch "<"].
  change (str "&") with [ch "&"].
  rewrite !replace_lit1, !flat_map_flat_map.
  apply flat_map_ext. intros c. unfold entity, Wordpress.const.
  destruct (N.eqb_spec c (ch "&")) as [->|Ha]; [reflexivity|].
  cbn [flat_map app].
  destruct (N.eqb_spec c (ch "<")) as [->|Hl]; [reflexivity|].
  cbn [flat_map app].
  destruct (N.eqb_spec c (ch ">")) as [->|Hg]; reflexivity.
Qed.

Lemma lacks_flat_map (a : ascii) (f : char -> jsstring) (s : jsstring) :
  (forall c, lacks a (f c) = true) -> lacks a (flat_map f s) = true.
Proof.
  intros H. induction s as [|c s IH]; [reflexivity|].
  cbn [flat_map]. now rewrite lacks_app, H, IH.
Qed.

Lemma entity_lacks (a : ascii) (c : char) :
  lacks a (str "&amp;lt;gt;") = true -> N.eqb (ch a) (ch "&") = false ->
  (N.eqb c (ch a) = true -> N.eqb c (ch "<") || N.eqb c (ch ">") = true) ->
  lacks a (entity c) = true.
Proof.
  intros H Ha Hc. unfold entity.
  destruct (N.eqb_spec c (ch "&")) as [->|_].
  { cbn in H |- *. repeat (apply andb_prop in H as [? H]).
    repeat (apply andb_true_intro; split); auto. }
  destruct (N.eqb_spec c (ch "<")) as [->|Hl].
  { cbn in H |- *. repeat (apply andb_prop in H as [? H]).
    repeat (apply andb_true_intro; split); auto. }
  destruct (N.eqb_spec c (ch ">")) as [->|Hg].
  { cbn in H |- *. repeat (apply andb_prop in H as [? H]).
    repeat (apply andb_true_intro; split); auto. }
  cbn. unfold not_ch. destruct (N.eqb c (ch a)) eqn:E; [|reflexivity].
  specialize (Hc eq_refl). apply orb_prop in Hc as [Hc|Hc]; discriminate.
Qed.

(** X9.  The escaping of a fenced block's code: after [trim], the three
    replacements in their order amount to writing each character once, the
    ampersand, the less-than and the greater-than sign as their entities;
    so the escaped code holds no angle bracket, and code without these
    three characters is only trimmed. *)
Theorem escape_writes_each_character_once :
  forall code : jsstring,
    Wordpress.escape code = flat_map entity (trim code)
    /\ lacks "<" (Wordpress.escape code) = true
    /\ lacks ">" (Wordpress.escape code) = true
    /\ (lacks "&" code && lacks "<" code && lacks ">" code = true ->
        Wordpress.escape code = trim code).
Proof.
  intros code. rewrite escape_entities. split; [reflexivity|].
  split; [|split].
  - apply lacks_flat_map. intros c. apply entity_lacks; try reflexivity.
    intros ->. reflexivity.
  - apply lacks_flat_map. intros c. apply entity_lacks; try reflexivity.
    intros ->. apply orb_true_r.
  - intros H. apply andb_prop in H as [H H3]. apply andb_prop in H as [H1 H2].
    assert (T : forall a, lacks a code = true -> lacks a (trim code) = true).
    { intros a Ha. unfold trim. apply lacks_rev.
      destruct (drop_space_suffix (rev (drop_space code))) as [p Hp].
      assert (L : lacks a (rev (drop_space code)) = true).
      { apply lacks_rev. destruct (drop_space_suffix code) as [q Hq].
        rewrite Hq in Ha. rewrite lacks_app in Ha. now apply andb_prop in Ha as [_ Ha]. }
      rewrite Hp in L. rewrite lacks_app in L. now apply andb_prop in L as [_ L]. }
    apply T in H1, H2, H3. clear T. revert H1 H2 H3.
    induction (trim code) as [|c s IH]; [reflexivity|].
    cbn [lacks forallb flat_map]. intros H1 H2 H3.
    apply andb_prop in H1 as [A1 H1]. apply andb_prop in H2 as [A2 H2].
    apply andb_prop in H3 as [A3 H3].
    unfold not_ch in A1, A2, A3. apply negb_true_iff in A1, A2, A3.
    unfold entity. rewrite A1, A2, A3. cbn [app]. f_equal. now apply IH.
Qed.

(** ** Excerpts: the shape of the result *)

Lemma trim_ends (s : jsstring) : ends_in_space (trim s) = false.
Proof.
  unfold ends_in_space, trim. rewrite rev_involutive. apply drop_space_begins.
Qed.

Lemma excerpt_bounds (excerpt : jsstring) (maxLength : Z) :
  begins_in_space (Wordpress.getExcerptText excerpt maxLength) = false
  /\ ends_in_space (Wordpress.getExcerptText excerpt maxLength) = false
  /\ (Z.of_nat (length (Wordpress.getExcerptText excerpt maxLength))
      <= Z.max 0 maxLength + 3)%Z.
Proof.
  unfold Wordpress.getExcerptText.
  destruct (Z.leb_spec (Z.of_nat (length (Wordpress.cleaned excerpt))) maxLength)
    as [Hle|Hgt].
  - unfold Wordpress.cleaned at 1 2. cbv zeta.
    split; [apply trim_begins|]. split; [apply trim_ends|]. lia.
  - set (cut := trim (Wordpress.substring0 (Wordpress.cleaned excerpt) maxLength)).
    split; [|split].
    + pose proof (trim_begins
                    (Wordpress.substring0 (Wordpress.cleaned excerpt) maxLength)) as B.
      fold cut in B. destruct cut; [reflexivity|exact B].
    + unfold ends_in_space. rewrite rev_app_distr. reflexivity.
    + rewrite length_app. change (length (str "...")) with 3.
      pose proof (length_trim
                    (Wordpress.substring0 (Wordpress.cleaned excerpt) maxLength)) as L.
      fold cut in L. unfold Wordpress.substring0 in L.
      pose proof (firstn_le_length (Z.to_nat maxLength) (Wordpress.cleaned excerpt)).
      rewrite length_firstn in L. lia.
Qed.

(** X10.  Whatever the excerpt and the limit, the text [getExcerptText]
    returns neither begins nor ends with white space, and is at most three
    code units longer than the limit (a negative limit counting as 0). *)
Theorem getExcerptText_shape :
  forall (excerpt : jsstring) (maxLength : Z),
    begins_in_space (Wordpress.getExcerptText excerpt maxLength) = false
    /\ ends_in_space (Wordpress.getExcerptText excerpt maxLength) = false
    /\ (Z.of_nat (length (Wordpress.getExcerptText excerpt maxLength))
        <= Z.max 0 maxLength + 3)%Z.
Proof. exact excerpt_bounds. Qed.



(** ** Excerpts: tags *)

Lemma bare_parts (s : jsstring) :
  bare s = true ->
  lacks "&" s = true /\ lacks "<" s = true /\ lacks "#" s = true
  /\ lacks "*" s = true /\ lacks "`" s = true /\ lacks "[" s = true.
Proof.
  unfold bare. intros H. repeat (apply andb_prop in H as [H ?]). repeat split; auto.
Qed.

Lemma tag_parts (span : jsstring * jsstring) :
  bare_after_tag span = true ->
  (fst span <> [] /\ lacks ">" (fst span) = true /\ lacks "&" (fst span) = true)
  /\ bare (snd span) = true.
Proof.
  unfold bare_after_tag, tag_text. intros H.
  apply andb_prop in H as [H Hb]. apply andb_prop in H as [H H3].
  apply andb_prop in H as [H1 H2].
  repeat split; auto. intros E. now rewrite E in H1.
Qed.

Lemma exec_tag (sn tag post : jsstring) :
  tag <> [] -> lacks ">" tag = true ->
  exists sn',
    exec Wordpress.re_tag sn ((str "<" ++ tag ++ str ">") ++ post)
    = Some (MState sn' post []).
Proof.
  intros Hne Hgt. eexists. unfold exec, Wordpress.re_tag.
  rewrite <- !app_assoc.
  rewrite m_seq, m_lit, m_seq, m_rep.
  apply rep_greedy_all; [exact Hgt|reflexivity|now apply nonempty_length|].
  now rewrite m_lit.
Qed.

Lemma first_tag (c : char) :
  first Wordpress.re_tag c = true -> N.eqb c (ch "<") = true.
Proof. cbn. now rewrite orb_false_r. Qed.

Lemma strip_tags :
  forall (tags : list (jsstring * jsstring)) (pre sn : jsstring),
    lacks "<" pre = true -> forallb bare_after_tag tags = true ->
    fill (Wordpress.const [])
      (scan Wordpress.re_tag sn (woven (str "<") (str ">") pre tags) 0)
    = pre ++ concat (map snd tags).
Proof.
  induction tags as [|[tag text] tags IH]; intros pre sn Hpre Hs.
  - cbn [woven map concat]. rewrite app_nil_r, scan_nothing.
    + apply fill_keep.
    + apply (no_match_in_lacks "<"); auto using first_tag.
    + now apply exec_blocked.
  - cbn [forallb] in Hs. apply andb_prop in Hs as [Hspan Hs].
    apply tag_parts in Hspan as ((Hne & Hgt & _) & Hb).
    apply bare_parts in Hb as (_ & Hlt & _).
    cbn [fst snd] in Hne, Hgt, Hlt.
    cbn [woven map concat snd].
    rewrite scan_pass by (apply (no_match_in_lacks "<"); auto using first_tag).
    rewrite fill_app, fill_keep. f_equal.
    destruct (exec_tag (rev pre ++ sn) tag (woven (str "<") (str ">") text tags)
                Hne Hgt) as [sn' E].
    rewrite (scan_hit _ _ _ _ _ E eq_refl) by discriminate.
    cbn [fill caps]. unfold Wordpress.const at 1. cbn [app].
    now apply IH.
Qed.

Lemma woven_lacks (a : ascii) (open close : jsstring) :
  lacks a open = true -> lacks a close = true ->
  forall (spans : list (jsstring * jsstring)) (pre : jsstring),
    lacks a pre = true ->
    forallb (fun span => lacks a (fst span) && lacks a (snd span)) spans = true ->
    lacks a (woven open close pre spans) = true.
Proof.
  intros Ho Hc. induction spans as [|[code text] spans IH]; intros pre Hpre Hs;
    [exact Hpre|].
  cbn [forallb fst snd] in Hs. apply andb_prop in Hs as [H Hs].
  apply andb_prop in H as [H1 H2].
  cbn [woven]. now rewrite !lacks_app, Hpre, Ho, H1, Hc, (IH _ H2 Hs).
Qed.

Lemma texts_lack (a : ascii) (spans : list (jsstring * jsstring)) (pre : jsstring) :
  lacks a pre = true -> forallb (fun span => lacks a (snd span)) spans = true ->
  lacks a (pre ++ concat (map snd spans)) = true.
Proof.
  intros Hpre Hs. rewrite lacks_app, Hpre. cbn [andb].
  induction spans as [|[code text] spans IH]; [reflexivity|].
  cbn [forallb snd] in Hs. apply andb_prop in Hs as [H Hs].
  cbn [map concat snd]. now rewrite lacks_app, H, IH.
Qed.

Lemma cleaned_bare (s : jsstring) : bare s = true -> Wordpress.cleaned s = trim s.
Proof.
  intros H. apply bare_parts in H as (H1 & H2 & H3 & H4 & H5 & H6).
  unfold Wordpress.cleaned.
  rewrite (replace_lacks "&" (Lit (str "&#8211;")) _ s); auto.
  rewrite (replace_lacks "&" (Lit (str "&#8212;")) _ s); auto.
  rewrite (replace_lacks "&" Wordpress.re_numeric_entity _ s); auto.
  2:{ intros c; cbn; now rewrite ?orb_false_r. }
  rewrite (replace_lacks "&" (Lit (str "&amp;")) _ s); auto.
  rewrite (replace_lacks "&" (Lit (str "&nbsp;")) _ s); auto.
  rewrite (replace_lacks "<" Wordpress.re_tag _ s); auto using first_tag.
  rewrite (replace_lacks "#" Wordpress.re_md_header _ s); auto.
  2:{ intros c; cbn; now rewrite ?orb_false_r. }
  rewrite (replace_lacks "*" Wordpress.re_bold _ s); auto.
  2:{ intros c; cbn; now rewrite ?orb_false_r. }
  rewrite (replace_lacks "*" Wordpress.re_md_italic _ s); auto.
  2:{ intros c; cbn; now rewrite ?orb_false_r. }
  rewrite (replace_lacks "`" Wordpress.re_inline_code _ s); auto using first_inline_code.
  rewrite (replace_lacks "[" Wordpress.re_md_link _ s); auto.
  intros c; cbn; now rewrite ?orb_false_r.
Qed.

Lemma cleaned_tags (pre : jsstring) (tags : list (jsstring * jsstring)) :
  bare pre = true -> forallb bare_after_tag tags = true ->
  Wordpress.cleaned (woven (str "<") (str ">") pre tags)
  = Wordpress.cleaned (pre ++ concat (map snd tags)).
Proof.
  intros Hpre Hs.
  assert (B : bare (pre ++ concat (map snd tags)) = true).
  { apply bare_parts in Hpre as (H1 & H2 & H3 & H4 & H5 & H6).
    unfold bare.
    rewrite !texts_lack; auto; revert Hs; apply spans_impl; intros span H;
      apply tag_parts in H as (_ & H); now apply bare_parts in H. }
  rewrite (cleaned_bare _ B).
  apply bare_parts in B as (_ & _ & B3 & B4 & B5 & B6).
  assert (A : lacks "&" (woven (str "<") (str ">") pre tags) = true).
  { apply woven_lacks; [reflexivity|reflexivity|now apply bare_parts in Hpre|].
    revert Hs. apply spans_impl. intros span H.
    apply tag_parts in H as ((_ & _ & H1) & H2). apply bare_parts in H2 as (H2 & _).
    now rewrite H1, H2. }
  unfold Wordpress.cleaned.
  set (s := woven (str "<") (str ">") pre tags) in *.
  rewrite (replace_lacks "&" (Lit (str "&#8211;")) _ s); auto.
  rewrite (replace_lacks "&" (Lit (str "&#8212;")) _ s); auto.
  rewrite (replace_lacks "&" Wordpress.re_numeric_entity _ s); auto.
  2:{ intros c; cbn; now rewrite ?orb_false_r. }
  rewrite (replace_lacks "&" (Lit (str "&amp;")) _ s); auto.
  rewrite (replace_lacks "&" (Lit (str "&nbsp;")) _ s); auto.
  unfold s, replace at 6, segments.
  rewrite strip_tags; auto; [|now apply bare_parts in Hpre].
  set (t := pre ++ concat (map snd tags)) in *.
  rewrite (replace_lacks "#" Wordpress.re_md_header _ t); auto.
  2:{ intros c; cbn; now rewrite ?orb_false_r. }
  rewrite (replace_lacks "*" Wordpress.re_bold _ t); auto.
  2:{ intros c; cbn; now rewrite ?orb_false_r. }
  rewrite (replace_lacks "*" Wordpress.re_md_italic _ t); auto.
  2:{ intros c; cbn; now rewrite ?orb_false_r. }
  rewrite (replace_lacks "`" Wordpress.re_inline_code _ t); auto using first_inline_code.
  rewrite (replace_lacks "[" Wordpress.re_md_link _ t); auto.
  intros c; cbn; now rewrite ?orb_false_r.
Qed.

(** X11.  Tags do not count: for text without ampersand, less-than sign,
    hash mark, asterisk, backtick or opening square bracket, with any number
    of tags set in it (each not empty between its angle brackets, without
    greater-than sign and ampersand), [getExcerptText] returns what it
    returns for the text alone; and that is the trimmed text when the
    trimmed text is within the limit. *)
Theorem getExcerptText_strips_tags :
  forall (pre : jsstring) (tags : list (jsstring * jsstring)) (maxLength : Z),
    bare pre = true -> forallb bare_after_tag tags = true ->
    Wordpress.getExcerptText (woven (str "<") (str ">") pre tags) maxLength
    = Wordpress.getExcerptText (pre ++ concat (map snd tags)) maxLength
    /\ ((Z.of_nat (length (trim (pre ++ concat (map snd tags)))) <= maxLength)%Z ->
        Wordpress.getExcerptText (woven (str "<") (str ">") pre tags) maxLength
        = trim (pre ++ concat (map snd tags))).
Proof.
  intros pre tags maxLength Hpre Hs.
  assert (B : bare (pre ++ concat (map snd tags)) = true).
  { apply bare_parts in Hpre as (H1 & H2 & H3 & H4 & H5 & H6).
    unfold bare.
    rewrite !texts_lack; auto; revert Hs; apply spans_impl; intros span H;
      apply tag_parts in H as (_ & H); now apply bare_parts in H. }
  unfold Wordpress.getExcerptText.
  rewrite (cleaned_tags pre tags Hpre Hs). split; [reflexivity|].
  rewrite (cleaned_bare _ B). intros H.
  apply Z.leb_le in H. now rewrite H.
Qed.

Lemma getExcerptText_strips_tags_witness :
  Wordpress.getExcerptText
    (woven (str "<") (str ">") []
       [(str "p", str "Hi "); (str "a href=x", str "there"); (str "/a", str "!");
        (str "/p", [nl])])
    Wordpress.default_maxLength
  = trim ([] ++ concat (map snd
       [(str "p", str "Hi "); (str "a href=x", str "there"); (str "/a", str "!");
        (str "/p", [nl])])).
Proof.
  apply (proj2 (getExcerptText_strips_tags []
                  [(str "p", str "Hi "); (str "a href=x", str "there");
                   (str "/a", str "!"); (str "/p", [nl])]
                  Wordpress.default_maxLength eq_refl eq_refl)).
  apply Z.leb_le. reflexivity.
Defined.

(** ** Excerpts: Markdown *)

(** One match, in text that lacks the character every match begins with. *)
Lemma replace_hit (a : ascii) (r : regex) (f : jsstring -> captures -> jsstring)
    (pre mt post : jsstring) (cs : captures) :
  nullable r = false -> (forall c, first r c = true -> N.eqb c (ch a) = true) ->
  lacks a pre = true -> lacks a post = true -> mt <> [] ->
  (forall sn, exists sn', exec r sn (mt ++ post) = Some (MState sn' post cs)) ->
  replace r f (pre ++ mt ++ post) = pre ++ f mt cs ++ post.
Proof.
  intros Hn Hf Hpre Hpost Hne He.
  destruct (He (rev pre)) as [sn' E].
  apply replace_one.
  apply (scan_one _ _ _ _ (MState sn' post cs)); auto.
  - now apply (no_match_in_lacks a).
  - now apply (no_match_in_lacks a).
  - now apply exec_blocked.
Qed.

Lemma excerpt_of_text (a b : jsstring) (maxLength : Z) :
  Wordpress.cleaned a = Wordpress.cleaned b ->
  Wordpress.getExcerptText a maxLength = Wordpress.getExcerptText b maxLength.
Proof. intros H. unfold Wordpress.getExcerptText. now rewrite H. Qed.

(** The replacements up to the Markdown ones, on text without ampersand,
    less-than sign and hash mark. *)
Lemma cleaned_markdown (s : jsstring) :
  lacks "&" s = true -> lacks "<" s = true -> lacks "#" s = true ->
  Wordpress.cleaned s
  = trim (replace Wordpress.re_md_link (Wordpress.wrap1 [] [])
            (replace Wordpress.re_inline_code (Wordpress.wrap1 [] [])
               (replace Wordpress.re_md_italic (Wordpress.wrap1 [] [])
                  (replace Wordpress.re_bold (Wordpress.wrap1 [] []) s)))).
Proof.
  intros H1 H2 H3. unfold Wordpress.cleaned.
  rewrite (replace_lacks "&" (Lit (str "&#8211;")) _ s); auto.
  rewrite (replace_lacks "&" (Lit (str "&#8212;")) _ s); auto.
  rewrite (replace_lacks "&" Wordpress.re_numeric_entity _ s); auto.
  2:{ intros c; cbn; now rewrite ?orb_false_r. }
  rewrite (replace_lacks "&" (Lit (str "&amp;")) _ s); auto.
  rewrite (replace_lacks "&" (Lit (str "&nbsp;")) _ s); auto.
  rewrite (replace_lacks "<" Wordpress.re_tag _ s); auto using first_tag.
  rewrite (replace_lacks "#" Wordpress.re_md_header _ s); auto.
  intros c; cbn; now rewrite ?orb_false_r.
Qed.

Lemma exec_md_italic (sn text post : jsstring) :
  text <> [] -> forallb dot text = true -> lacks "*" text = true ->
  exists sn',
    exec Wordpress.re_md_italic sn (str "*" ++ text ++ str "*" ++ post)
    = Some (MState sn' post [(1, text)]).
Proof.
  intros Hne Hdot Hs. eexists. unfold exec, Wordpress.re_md_italic.
  rewrite m_seq, m_lit, m_seq, m_group_rep.
  apply rep_lazy_first; [exact Hdot|now apply nonempty_length| |].
  - intros w1 [|c w2] E Hw2 _; [contradiction|].
    cbn [seen rest caps].
    apply (m_lit_other (ch "*") []).
    subst text. exact (lacks_inside "*" w1 c w2 Hs).
  - cbn [seen rest caps]. rewrite m_lit, consumed_app. reflexivity.
Qed.

Lemma exec_md_link (sn text url post : jsstring) :
  text <> [] -> lacks "]" text = true -> url <> [] -> lacks ")" url = true ->
  exists sn',
    exec Wordpress.re_md_link sn
      (str "[" ++ text ++ str "](" ++ url ++ str ")" ++ post)
    = Some (MState sn' post [(1, text)]).
Proof.
  intros Hne Ht Hune Hu. eexists. unfold exec, Wordpress.re_md_link.
  rewrite m_seq, m_lit, m_seq, m_group_rep.
  apply rep_greedy_all; [exact Ht|reflexivity|now apply nonempty_length|].
  cbn [seen rest caps].
  rewrite m_seq, m_lit, m_seq, m_rep.
  apply rep_greedy_all; [exact Hu|reflexivity|now apply nonempty_length|].
  rewrite m_lit, consumed_app. reflexivity.
Qed.

(** X12.  Markdown does not count: in text without ampersand, less-than
    sign, hash mark, asterisk, backtick or opening square bracket, a bold
    span, an italic span, an inline code span and a link each give the result
    of the same excerpt with the text of the span, or of the link, in its
    place. *)
Theorem getExcerptText_strips_markdown :
  forall (pre text post : jsstring) (maxLength : Z),
    bare pre = true -> bare post = true -> bare text = true -> text <> [] ->
    (forallb dot text = true ->
     Wordpress.getExcerptText (pre ++ (str "**" ++ text ++ str "**") ++ post) maxLength
     = Wordpress.getExcerptText (pre ++ text ++ post) maxLength
     /\ Wordpress.getExcerptText (pre ++ (str "*" ++ text ++ str "*") ++ post) maxLength
        = Wordpress.getExcerptText (pre ++ text ++ post) maxLength)
    /\ Wordpress.getExcerptText (pre ++ (str "`" ++ text ++ str "`") ++ post) maxLength
       = Wordpress.getExcerptText (pre ++ text ++ post) maxLength
    /\ forall url,
         url <> [] -> lacks ")" url = true -> bare url = true ->
         lacks "]" text = true ->
         Wordpress.getExcerptText
           (pre ++ (str "[" ++ text ++ str "](" ++ url ++ str ")") ++ post) maxLength
         = Wordpress.getExcerptText (pre ++ text ++ post) maxLength.
Proof.
  intros pre text post maxLength Hpre Hpost Ht Hne.
  assert (B : bare (pre ++ text ++ post) = true).
  { apply bare_parts in Hpre as (A1 & A2 & A3 & A4 & A5 & A6).
    apply bare_parts in Hpost as (B1 & B2 & B3 & B4 & B5 & B6).
    apply bare_parts in Ht as (C1 & C2 & C3 & C4 & C5 & C6).
    unfold bare.
    now rewrite !lacks_app, A1, A2, A3, A4, A5, A6, B1, B2, B3, B4, B5, B6,
      C1, C2, C3, C4, C5, C6. }
  pose proof (cleaned_bare _ B) as Eb.
  pose proof B as B'. apply bare_parts in B' as (T1 & T2 & T3 & T4 & T5 & T6).
  apply bare_parts in Hpre as (A1 & A2 & A3 & A4 & A5 & A6).
  apply bare_parts in Hpost as (B1 & B2 & B3 & B4 & B5 & B6).
  apply bare_parts in Ht as (C1 & C2 & C3 & C4 & C5 & C6).
  assert (L : forall (a : ascii) (open close : jsstring),
             lacks a pre = true -> lacks a post = true -> lacks a text = true ->
             lacks a open = true -> lacks a close = true ->
             lacks a (pre ++ (open ++ text ++ close) ++ post) = true).
  { intros a o c H1 H2 H3 H4 H5. now rewrite !lacks_app, H1, H2, H3, H4, H5. }
  assert (N : forall x : jsstring, [] ++ x ++ [] = x).
  { intros x. cbn [app]. apply app_nil_r. }
  assert (I9 : replace Wordpress.re_md_italic (Wordpress.wrap1 [] [])
                 (pre ++ text ++ post) = pre ++ text ++ post).
  { apply (replace_lacks "*"); auto. intros c; cbn; now rewrite ?orb_false_r. }
  assert (I10 : replace Wordpress.re_inline_code (Wordpress.wrap1 [] [])
                  (pre ++ text ++ post) = pre ++ text ++ post).
  { apply (replace_lacks "`"); auto using first_inline_code. }
  assert (I11 : replace Wordpress.re_md_link (Wordpress.wrap1 [] [])
                  (pre ++ text ++ post) = pre ++ text ++ post).
  { apply (replace_lacks "["); auto. intros c; cbn; now rewrite ?orb_false_r. }
  split; [intros Hdot; split|split].
  - apply excerpt_of_text. rewrite Eb, cleaned_markdown by (apply L; auto).
    rewrite (replace_hit "*" Wordpress.re_bold _ pre _ post [(1, text)]); auto.
    + unfold Wordpress.wrap1 at 4. change (cap 1 [(1, text)]) with text.
      now rewrite N, I9, I10, I11.
    + intros c; cbn; now rewrite ?orb_false_r.
    + discriminate.
    + intros sn. rewrite <- !app_assoc. now apply exec_bold.
  - apply excerpt_of_text. rewrite Eb, cleaned_markdown by (apply L; auto).
    unfold Wordpress.re_bold at 1.
    rewrite replace_absent by now apply single_stars.
    rewrite (replace_hit "*" Wordpress.re_md_italic _ pre _ post [(1, text)]); auto.
    + unfold Wordpress.wrap1 at 3. change (cap 1 [(1, text)]) with text.
      now rewrite N, I10, I11.
    + intros c; cbn; now rewrite ?orb_false_r.
    + discriminate.
    + intros sn. rewrite <- !app_assoc. now apply exec_md_italic.
  - apply excerpt_of_text. rewrite Eb, cleaned_markdown by (apply L; auto).
    set (s := pre ++ (str "`" ++ text ++ str "`") ++ post).
    assert (S : lacks "*" s = true) by (apply L; auto).
    rewrite (replace_lacks "*" Wordpress.re_bold _ s); auto.
    2:{ intros c; cbn; now rewrite ?orb_false_r. }
    rewrite (replace_lacks "*" Wordpress.re_md_italic _ s); auto.
    2:{ intros c; cbn; now rewrite ?orb_false_r. }
    unfold s.
    rewrite (replace_hit "`" Wordpress.re_inline_code _ pre _ post [(1, text)]);
      auto using first_inline_code.
    + unfold Wordpress.wrap1 at 2. change (cap 1 [(1, text)]) with text.
      now rewrite N, I11.
    + discriminate.
    + intros sn. exists (ch "`" :: rev text ++ ch "`" :: sn).
      rewrite <- !app_assoc. now apply exec_inline_code.
  - intros url Hune Hu Hub Hrb.
    apply bare_parts in Hub as (U1 & U2 & U3 & U4 & U5 & U6).
    set (s := pre ++ (str "[" ++ text ++ str "](" ++ url ++ str ")") ++ post).
    assert (S : forall a, lacks a pre = true -> lacks a post = true ->
                          lacks a text = true -> lacks a url = true ->
                          lacks a (str "[]()") = true -> lacks a s = true).
    { intros a H1 H2 H3 H4 H5. unfold s.
      rewrite !lacks_app, H1, H2, H3, H4.
      cbn in H5 |- *. repeat (apply andb_prop in H5 as [? H5]).
      repeat (apply andb_true_intro; split); auto. }
    apply excerpt_of_text. rewrite Eb, cleaned_markdown by (apply S; auto).
    rewrite (replace_lacks "*" Wordpress.re_bold _ s); auto.
    2:{ intros c; cbn; now rewrite ?orb_false_r. }
    rewrite (replace_lacks "*" Wordpress.re_md_italic _ s); auto.
    2:{ intros c; cbn; now rewrite ?orb_false_r. }
    rewrite (replace_lacks "`" Wordpress.re_inline_code _ s);
      auto using first_inline_code.
    unfold s.
    rewrite (replace_hit "[" Wordpress.re_md_link _ pre _ post [(1, text)]); auto.
    + unfold Wordpress.wrap1. change (cap 1 [(1, text)]) with text.
      now rewrite N.
    + intros c; cbn; now rewrite ?orb_false_r.
    + discriminate.
    + intros sn. rewrite <- !app_assoc. now apply exec_md_link.
Qed.

Lemma getExcerptText_strips_markdown_witness :
  Wordpress.getExcerptText
    (str "read " ++ (str "[" ++ str "the docs" ++ str "](" ++ str "http://x.y/z" ++ str ")")
     ++ str " first")
    Wordpress.default_maxLength
  = Wordpress.getExcerptText (str "read " ++ str "the docs" ++ str " first")
      Wordpress.default_maxLength.
Proof.
  apply (proj2 (proj2 (getExcerptText_strips_markdown (str "read ") (str "the docs")
                         (str " first") Wordpress.default_maxLength
                         eq_refl eq_refl eq_refl ltac:(discriminate))));
    try reflexivity.
  discriminate.
Defined.

(** ** Excerpts: entities *)

Lemma exec_lit_alone (l : jsstring) (sn s : jsstring) :
  exec (Lit l) sn s = exec (Seq (Lit l) (Lit [])) sn s.
Proof.
  unfold exec. cbn [m rest seen caps strip].
  now destruct (strip l s).
Qed.

Lemma replace_lit_absent (l : jsstring) (f : jsstring -> captures -> jsstring)
    (s : jsstring) :
  occurs l s = false -> replace (Lit l) f s = s.
Proof.
  intros H. rewrite <- (replace_absent l (Lit []) f s H) at 2.
  unfold replace, segments. f_equal. apply scan_ext. intros sn x.
  apply exec_lit_alone.
Qed.

(** An entity in text without ampersand is the only place a pattern that
    begins with an ampersand can match. *)
Lemma occurs_entity (l mt pre post : jsstring) :
  lacks "&" pre = true -> lacks "&" post = true -> lacks "&" mt = true ->
  strip (ch "&" :: l) (ch "&" :: mt ++ post) = None ->
  occurs (ch "&" :: l) (pre ++ (ch "&" :: mt) ++ post) = false.
Proof.
  intros Hpre Hpost Hmt Hs.
  rewrite (occurs_lacks_app (ch "&") _ _ _ Hpre).
  cbn [app]. unfold occurs at 1; fold occurs. rewrite Hs.
  rewrite (occurs_lacks_app (ch "&") _ _ _ Hmt).
  now apply (occurs_lacks_nil "&").
Qed.

Lemma strip_other_number (l : jsstring) (x : char) :
  forallb (fun c => negb (N.eqb c x)) l = true ->
  forall d post,
    forallb (fun c => negb (N.eqb c x)) d = true -> d <> l ->
    strip (l ++ [x]) (d ++ x :: post) = None.
Proof.
  induction l as [|y l IH]; intros Hl d post Hd Hne.
  - destruct d as [|c d]; [contradiction|].
    cbn [forallb] in Hd. apply andb_prop in Hd as [Hc _].
    apply negb_true_iff in Hc. cbn [app strip]. now rewrite Hc.
  - cbn [forallb] in Hl. apply andb_prop in Hl as [Hy Hl].
    apply negb_true_iff in Hy.
    destruct d as [|c d].
    + cbn [app strip]. rewrite N.eqb_sym. now rewrite Hy.
    + cbn [forallb] in Hd. apply andb_prop in Hd as [Hc Hd].
      cbn [app strip]. destruct (N.eqb_spec c y) as [->|]; [|reflexivity].
      apply IH; [exact Hl|exact Hd|intros E; apply Hne; now rewrite E].
Qed.

Lemma digits_not_semicolon (digits : jsstring) :
  forallb is_digit digits = true ->
  forallb (fun c => negb (N.eqb c (ch ";"))) digits = true.
Proof.
  apply forallb_impl. intros c Hc.
  destruct (N.eqb_spec c (ch ";")) as [->|]; [discriminate|reflexivity].
Qed.

Lemma exec_numeric_entity (sn digits post : jsstring) :
  digits <> [] -> forallb is_digit digits = true ->
  exists sn',
    exec Wordpress.re_numeric_entity sn (str "&#" ++ digits ++ str ";" ++ post)
    = Some (MState sn' post []).
Proof.
  intros Hne Hd. eexists. unfold exec, Wordpress.re_numeric_entity.
  rewrite m_seq, m_lit, m_seq, m_rep.
  apply rep_greedy_all; [exact Hd|reflexivity|now apply nonempty_length|].
  now rewrite m_lit.
Qed.

Lemma exec_entity (l : jsstring) (post : jsstring) :
  forall sn, exists sn', exec (Lit l) sn (l ++ post) = Some (MState sn' post []).
Proof. intros sn. eexists. unfold exec. now rewrite m_lit. Qed.

Lemma first_entity (l : jsstring) (c : char) :
  first (Lit (ch "&" :: l)) c = true -> N.eqb c (ch "&") = true.
Proof. auto. Qed.

(** The replacements that follow the entities, on text they leave. *)
Ltac bare_passes t :=
  repeat first
    [ rewrite (replace_lacks "&" _ _ t)
        by (auto; intros ?; cbn; now rewrite ?orb_false_r)
    | rewrite (replace_lacks "<" _ _ t)
        by (auto; intros ?; cbn; now rewrite ?orb_false_r)
    | rewrite (replace_lacks "#" _ _ t)
        by (auto; intros ?; cbn; now rewrite ?orb_false_r)
    | rewrite (replace_lacks "*" _ _ t)
        by (auto; intros ?; cbn; now rewrite ?orb_false_r)
    | rewrite (replace_lacks "`" _ _ t)
        by (auto; intros ?; cbn; now rewrite ?orb_false_r)
    | rewrite (replace_lacks "[" _ _ t)
        by (auto; intros ?; cbn; now rewrite ?orb_false_r) ].

(** X13.  The entities of an excerpt, each in text without ampersand,
    less-than sign, hash mark, asterisk, backtick or opening square bracket:
    the two dashes are decoded; any other numeric entity is dropped, not
    decoded; the no-break space becomes a space; the ampersand is decoded,
    and as its replacement comes before the one of the no-break space, the
    text nbsp; after an escaped ampersand is decoded a second time. *)
Theorem getExcerptText_entities :
  forall pre post : jsstring,
    bare pre = true -> bare post = true ->
    Wordpress.cleaned (pre ++ str "&#8211;" ++ post)
    = trim (pre ++ Wordpress.en_dash ++ post)
    /\ Wordpress.cleaned (pre ++ str "&#8212;" ++ post)
       = trim (pre ++ Wordpress.em_dash ++ post)
    /\ (forall digits,
          digits <> [] -> forallb is_digit digits = true ->
          digits <> str "8211" -> digits <> str "8212" ->
          Wordpress.cleaned (pre ++ (str "&#" ++ digits ++ str ";") ++ post)
          = trim (pre ++ post))
    /\ Wordpress.cleaned (pre ++ str "&nbsp;" ++ post) = trim (pre ++ str " " ++ post)
    /\ (strip (str "nbsp;") post = None ->
        Wordpress.cleaned (pre ++ str "&amp;" ++ post) = trim (pre ++ str "&" ++ post))
    /\ Wordpress.cleaned (pre ++ str "&amp;nbsp;" ++ post)
       = trim (pre ++ str " " ++ post).
Proof.
  intros pre post Hpre Hpost.
  apply bare_parts in Hpre as (A1 & A2 & A3 & A4 & A5 & A6).
  apply bare_parts in Hpost as (B1 & B2 & B3 & B4 & B5 & B6).
  assert (L : forall (a : ascii) (mid : jsstring),
             lacks a pre = true -> lacks a post = true -> lacks a mid = true ->
             lacks a (pre ++ mid ++ post) = true).
  { intros a mid H1 H2 H3. now rewrite !lacks_app, H1, H2, H3. }
  assert (O : forall l mt, lacks "&" mt = true ->
                           strip (ch "&" :: l) (ch "&" :: mt ++ post) = None ->
                           occurs (ch "&" :: l) (pre ++ (ch "&" :: mt) ++ post) = false).
  { intros l mt H1 H2. now apply occurs_entity. }
  assert (T : forall mid,
             lacks "&" mid = true -> lacks "<" mid = true -> lacks "#" mid = true ->
             lacks "*" mid = true -> lacks "`" mid = true -> lacks "[" mid = true ->
             lacks "&" (pre ++ mid ++ post) = true
             /\ lacks "<" (pre ++ mid ++ post) = true
             /\ lacks "#" (pre ++ mid ++ post) = true
             /\ lacks "*" (pre ++ mid ++ post) = true
             /\ lacks "`" (pre ++ mid ++ post) = true
             /\ lacks "[" (pre ++ mid ++ post) = true).
  { intros mid H1 H2 H3 H4 H5 H6. repeat split; now apply L. }
  split; [|split; [|split; [|split; [|split]]]].
  - unfold Wordpress.cleaned.
    rewrite (replace_hit "&" (Lit (str "&#8211;")) _ pre _ post []);
      auto using exec_entity; [|discriminate].
    unfold Wordpress.const.
    destruct (T Wordpress.en_dash) as (T1 & T2 & T3 & T4 & T5 & T6); try reflexivity.
    bare_passes (pre ++ Wordpress.en_dash ++ post). reflexivity.
  - unfold Wordpress.cleaned.
    rewrite (replace_lit_absent (str "&#8211;"))
      by (apply (O (str "#8211;") (str "#8212;")); reflexivity).
    rewrite (replace_hit "&" (Lit (str "&#8212;")) _ pre _ post []);
      auto using exec_entity; [|discriminate].
    unfold Wordpress.const.
    destruct (T Wordpress.em_dash) as (T1 & T2 & T3 & T4 & T5 & T6); try reflexivity.
    bare_passes (pre ++ Wordpress.em_dash ++ post). reflexivity.
  - intros digits Hne Hd H1 H2. unfold Wordpress.cleaned.
    assert (D : lacks "&" (str "#" ++ digits ++ str ";") = true).
    { now rewrite !lacks_app, (digits_lack "&" digits eq_refl Hd). }
    assert (S : forall l, digits <> l ->
                          forallb (fun c => negb (N.eqb c (ch ";"))) l = true ->
                          occurs (str "&#" ++ l ++ str ";")
                            (pre ++ (str "&#" ++ digits ++ str ";") ++ post) = false).
    { intros l Hl Hl'.
      apply (O (str "#" ++ l ++ str ";") (str "#" ++ digits ++ str ";") D).
      rewrite <- !app_assoc.
      change (strip (ch "&" :: str "#" ++ l ++ str ";")
                (ch "&" :: str "#" ++ digits ++ str ";" ++ post))
        with (strip (l ++ [ch ";"]) (digits ++ ch ";" :: post)).
      apply strip_other_number; auto using digits_not_semicolon. }
    rewrite (replace_lit_absent (str "&#8211;")) by (apply (S (str "8211")); auto).
    rewrite (replace_lit_absent (str "&#8212;")) by (apply (S (str "8212")); auto).
    rewrite (replace_hit "&" Wordpress.re_numeric_entity _ pre _ post []); auto.
    + unfold Wordpress.const. cbn [app].
      destruct (T []) as (T1 & T2 & T3 & T4 & T5 & T6); try reflexivity.
      cbn [app] in T1, T2, T3, T4, T5, T6.
      bare_passes (pre ++ post). reflexivity.
    + intros c; cbn; now rewrite ?orb_false_r.
    + discriminate.
    + intros sn. rewrite <- !app_assoc. now apply exec_numeric_entity.
  - unfold Wordpress.cleaned.
    rewrite (replace_lit_absent (str "&#8211;"))
      by (apply (O (str "#8211;") (str "nbsp;")); reflexivity).
    rewrite (replace_lit_absent (str "&#8212;"))
      by (apply (O (str "#8212;") (str "nbsp;")); reflexivity).
    unfold Wordpress.re_numeric_entity.
    rewrite (replace_absent (str "&#"))
      by (apply (O (str "#") (str "nbsp;")); reflexivity).
    rewrite (replace_lit_absent (str "&amp;"))
      by (apply (O (str "amp;") (str "nbsp;")); reflexivity).
    rewrite (replace_hit "&" (Lit (str "&nbsp;")) _ pre _ post []);
      auto using exec_entity; [|discriminate].
    unfold Wordpress.const.
    destruct (T (str " ")) as (T1 & T2 & T3 & T4 & T5 & T6); try reflexivity.
    bare_passes (pre ++ str " " ++ post). reflexivity.
  - intros Hs. unfold Wordpress.cleaned.
    rewrite (replace_lit_absent (str "&#8211;"))
      by (apply (O (str "#8211;") (str "amp;")); reflexivity).
    rewrite (replace_lit_absent (str "&#8212;"))
      by (apply (O (str "#8212;") (str "amp;")); reflexivity).
    unfold Wordpress.re_numeric_entity.
    rewrite (replace_absent (str "&#"))
      by (apply (O (str "#") (str "amp;")); reflexivity).
    rewrite (replace_hit "&" (Lit (str "&amp;")) _ pre _ post []);
      auto using exec_entity; [|discriminate].
    unfold Wordpress.const.
    rewrite (replace_lit_absent (str "&nbsp;"))
      by (apply (O (str "nbsp;") []); [reflexivity|exact Hs]).
    set (t := pre ++ str "&" ++ post).
    assert (T2 : lacks "<" t = true) by (apply L; auto).
    assert (T3 : lacks "#" t = true) by (apply L; auto).
    assert (T4 : lacks "*" t = true) by (apply L; auto).
    assert (T5 : lacks "`" t = true) by (apply L; auto).
    assert (T6 : lacks "[" t = true) by (apply L; auto).
    bare_passes t. reflexivity.
  - unfold Wordpress.cleaned.
    rewrite (replace_lit_absent (str "&#8211;"))
      by (apply (O (str "#8211;") (str "amp;nbsp;")); reflexivity).
    rewrite (replace_lit_absent (str "&#8212;"))
      by (apply (O (str "#8212;") (str "amp;nbsp;")); reflexivity).
    unfold Wordpress.re_numeric_entity.
    rewrite (replace_absent (str "&#"))
      by (apply (O (str "#") (str "amp;nbsp;")); reflexivity).
    change (pre ++ str "&amp;nbsp;" ++ post)
      with (pre ++ str "&amp;" ++ (str "nbsp;" ++ post)).
    rewrite (replace_hit "&" (Lit (str "&amp;")) _ pre _ (str "nbsp;" ++ post) []);
      auto using exec_entity; [|discriminate].
    unfold Wordpress.const.
    change (pre ++ str "&" ++ str "nbsp;" ++ post)
      with (pre ++ str "&nbsp;" ++ post).
    rewrite (replace_hit "&" (Lit (str "&nbsp;")) _ pre _ post []);
      auto using exec_entity; [|discriminate].
    unfold Wordpress.const.
    destruct (T (str " ")) as (T1 & T2 & T3 & T4 & T5 & T6); try reflexivity.
    bare_passes (pre ++ str " " ++ post). reflexivity.
Qed.

Lemma getExcerptText_entities_witness :
  Wordpress.cleaned (str "Tom " ++ str "&amp;" ++ str " Jerry")
  = trim (str "Tom " ++ str "&" ++ str " Jerry").
Proof.
  apply (proj1 (proj2 (proj2 (proj2 (proj2
           (getExcerptText_entities (str "Tom ") (str " Jerry") eq_refl eq_refl)))))).
  reflexivity.
Defined.

(** ** The accessors of the fetch client *)

Section AccessorFacts.

Variable API : jsstring.
Variable fetch_posts : Wordpress.Url -> Fetched (list Wordpress.WPPost).
Variable fetch_categories : Wordpress.Url -> Fetched (list Wordpress.WPCategory.t).

Lemma fetchAPI_fails (T : Type) (fetch : Wordpress.Url -> Fetched T)
    (endpoint : jsstring) (params : list (jsstring * jsstring)) (e : exn) :
  fails (fetch (Wordpress.url_for API endpoint params)) e ->
  Wordpress.fetchAPI API fetch endpoint params = Throw e.
Proof.
  unfold Wordpress.fetchAPI. intros [H|(response & H & Hok & ->)]; rewrite H.
  - reflexivity.
  - now rewrite Hok.
Qed.

(** X14.  The accessors other than [getAllPostSlugs] do not catch: when the
    request of [getPosts], [getPostBySlug], [getCategories] or
    [getCategoryBySlug] fails, the call throws the error of [fetchAPI], the
    reason of the rejection or the error with the status of the response. *)
Theorem accessors_rethrow :
  forall e : exn,
    (forall options,
        fails (fetch_posts (Wordpress.url_for API (str "posts")
                              (Wordpress.getPosts_params options))) e ->
        Wordpress.getPosts API fetch_posts options = Throw e)
    /\ (forall slug,
          fails (fetch_posts (Wordpress.url_for API (str "posts") [(str "slug", slug)])) e ->
          Wordpress.getPostBySlug API fetch_posts slug = Throw e)
    /\ (fails (fetch_categories
                 (Wordpress.url_for API (str "categories")
                    [(str "per_page", str "100"); (str "hide_empty", str "true")])) e ->
        Wordpress.getCategories API fetch_categories = Throw e)
    /\ (forall slug,
          fails (fetch_categories
                   (Wordpress.url_for API (str "categories") [(str "slug", slug)])) e ->
          Wordpress.getCategoryBySlug API fetch_categories slug = Throw e).
Proof.
  intros e. repeat split.
  - intros options H. unfold Wordpress.getPosts. now apply fetchAPI_fails.
  - intros slug H. unfold Wordpress.getPostBySlug. now rewrite (fetchAPI_fails _ _ _ _ _ H).
  - intros H. unfold Wordpress.getCategories. now apply fetchAPI_fails.
  - intros slug H. unfold Wordpress.getCategoryBySlug.
    now rewrite (fetchAPI_fails _ _ _ _ _ H).
Qed.

(** X15.  [getAllPostSlugs] never throws: it returns a list and writes at
    most one warning, and it writes one only beside the empty list; on an ok
    response it returns the slug of each post, in the order of the
    response, and writes nothing. *)
Theorem getAllPostSlugs_never_throws :
  (exists slugs,
      fst (Wordpress.getAllPostSlugs API fetch_posts) = Return slugs
      /\ (snd (Wordpress.getAllPostSlugs API fetch_posts) = []
          \/ slugs = []
             /\ exists error,
                 snd (Wordpress.getAllPostSlugs API fetch_posts)
                 = [Wordpress.Warn (str "Could not fetch post slugs from WordPress:")
                      error]))
  /\ (forall response posts,
        fetch_posts (Wordpress.url_for API (str "posts")
                       [(str "per_page", str "100"); (str "_fields", str "slug")])
          = Responded response ->
        ok response = true -> json response = Return posts ->
        Wordpress.getAllPostSlugs API fetch_posts
        = (Return (map Wordpress.slug posts), [])).
Proof.
  unfold Wordpress.getAllPostSlugs. split.
  - destruct (Wordpress.fetchAPI API fetch_posts (str "posts")
                [(str "per_page", str "100"); (str "_fields", str "slug")]) as [posts|e].
    + exists (map Wordpress.slug posts). split; [reflexivity|now left].
    + exists []. split; [reflexivity|right]. split; [reflexivity|now exists e].
  - intros response posts H Hok Hj. unfold Wordpress.fetchAPI.
    now rewrite H, Hok, Hj.
Qed.


End AccessorFacts.

Lemma accessors_rethrow_witness :
  Wordpress.getPosts site (rejecting _) Wordpress.GetPosts.none
  = Throw (Error (str "fetch failed"))
  /\ Wordpress.getCategoryBySlug site (fun _ => Responded (unavailable _)) (str "news")
     = Throw (Error (str "WordPress API error: 503 Service Unavailable")).
Proof.
  split.
  - apply (proj1 (accessors_rethrow site (rejecting _) (rejecting _)
                    (Error (str "fetch failed")))).
    left. reflexivity.
  - apply (proj2 (proj2 (proj2
             (accessors_rethrow site (rejecting _) (fun _ => Responded (unavailable _))
                (Error (str "WordPress API error: 503 Service Unavailable")))))).
    right. exists (unavailable _). repeat split.
Defined.

Lemma getAllPostSlugs_never_throws_witness :
  Wordpress.getAllPostSlugs site (fun _ => Responded (answer [hello_post]))
  = (Return [str "hello"], []).
Proof.
  apply (proj2 (getAllPostSlugs_never_throws site
                  (fun _ => Responded (answer [hello_post])))
           (answer [hello_post]) [hello_post]); reflexivity.
Defined.

(** ** The embedded objects of a post *)



(** ** The credentials *)

Lemma strip_spaces (s : jsstring) :
  replace (Cls is_space) (fun _ _ => []) s = filter (fun c => negb (is_space c)) s.
Proof.
  rewrite replace_cls. induction s as [|c s IH]; [reflexivity|].
  cbn [flat_map filter]. destruct (is_space c); cbn [negb app]; now rewrite IH.
Qed.

(** X19.  The application password goes into the credentials with every
    white-space character removed and the others in their order; white space
    inserted anywhere in the password leaves the header as it was. *)
Theorem getAuthHeader_ignores_white_space :
  forall (USER : jsstring) (base64 : jsstring -> jsstring)
         (before spaces after : jsstring),
    forallb is_space spaces = true ->
    Publish.getAuthHeader USER (before ++ spaces ++ after) base64
    = Publish.getAuthHeader USER (before ++ after) base64
    /\ Publish.getAuthHeader USER (before ++ after) base64
       = str "Basic "
         ++ base64 (USER ++ str ":"
                    ++ filter (fun c => negb (is_space c)) (before ++ after)).
Proof.
  intros USER base64 before spaces after Hs.
  unfold Publish.getAuthHeader. rewrite !strip_spaces. split; [|reflexivity].
  do 3 f_equal. rewrite !filter_app. f_equal.
  replace (filter (fun c => negb (is_space c)) spaces) with (@nil char); [reflexivity|].
  induction spaces as [|c l IH]; [reflexivity|].
  simpl in Hs. apply andb_prop in Hs as [Hc Hs]. cbn [filter]. rewrite Hc. cbn [negb].
  now apply IH.
Qed.

Lemma getAuthHeader_ignores_white_space_witness :
  Publish.getAuthHeader (str "admin") (str "abcd" ++ str " " ++ str "efgh") (fun s => s)
  = Publish.getAuthHeader (str "admin") (str "abcd" ++ str "efgh") (fun s => s)
  /\ Publish.getAuthHeader (str "admin") (str "abcd" ++ str "efgh") (fun s => s)
     = str "Basic "
       ++ (str "admin" ++ str ":"
           ++ filter (fun c => negb (is_space c)) (str "abcd" ++ str "efgh")).
Proof.
  apply (getAuthHeader_ignores_white_space (str "admin") (fun s => s)
           (str "abcd") (str " ") (str "efgh")).
  reflexivity.
Defined.

(** ** The requests of the publishing client *)

Section PublishRequests.

Variables API USER PASSWORD : jsstring.
Variables base64 toLowerCase : jsstring -> jsstring.
Variable backend : Publish.Backend.

Let listing : Publish.Request :=
  Publish.request_for API USER PASSWORD base64
    (str "categories?per_page=100") Publish.no_options.

Let creation (name : jsstring) : Publish.Request :=
  Publish.request_for API USER PASSWORD base64 (str "categories")
    {| Publish.method := Some (str "POST");
       Publish.body := Some (Publish.object [(str "name", Publish.quote name)]);
       Publish.headers := [] |}.

Lemma wpFetch_trace (T : Type) (api : Publish.Request -> Fetched T)
    (endpoint : jsstring) (options : Publish.RequestInit)
    (trace : list Publish.Request) :
  snd (Publish.wpFetch API USER PASSWORD base64 api endpoint options trace)
  = trace ++ [Publish.request_for API USER PASSWORD base64 endpoint options].
Proof.
  unfold Publish.wpFetch.
  destruct (api _) as [reason|response]; [reflexivity|].
  destruct (negb (ok response)); [destruct (text response)|]; reflexivity.
Qed.

(** X20.  Whatever the backend answers, [getOrCreateCategory] issues the
    listing request first and at most one more, the creation of the named
    category; and when the listing throws, it throws that error having
    issued the listing alone: nothing is created after a failed lookup. *)
Theorem getOrCreateCategory_requests :
  forall (name : jsstring) (trace : list Publish.Request),
    (exists more,
        snd (Publish.getOrCreateCategory API USER PASSWORD base64 toLowerCase backend
               name trace)
        = trace ++ listing :: more
        /\ (more = [] \/ more = [creation name]))
    /\ forall e,
         fst (Publish.getCategories API USER PASSWORD base64 backend trace) = Throw e ->
         Publish.getOrCreateCategory API USER PASSWORD base64 toLowerCase backend
           name trace
         = (Throw e, trace ++ [listing]).
Proof.
  intros name trace. unfold Publish.getOrCreateCategory, Publish.bind.
  pose proof (wpFetch_trace _ (Publish.categories_list_api backend)
                (str "categories?per_page=100") Publish.no_options trace) as Ht.
  fold listing in Ht. unfold Publish.getCategories.
  destruct (Publish.wpFetch API USER PASSWORD base64 (Publish.categories_list_api backend)
              (str "categories?per_page=100") Publish.no_options trace)
    as [[categories|e0] trace'] eqn:E.
  - cbn [snd] in Ht. subst trace'. split; [|intros e He; discriminate He].
    destruct (find _ categories) as [existing|].
    + exists []. split; [reflexivity|now left].
    + exists [creation name]. split; [|now right].
      unfold Publish.createCategory.
      pose proof (wpFetch_trace _ (Publish.categories_api backend) (str "categories")
                    {| Publish.method := Some (str "POST");
                       Publish.body :=
                         Some (Publish.object [(str "name", Publish.quote name)]);
                       Publish.headers := [] |} (trace ++ [listing])) as Hc.
      fold (creation name) in Hc.
      destruct (Publish.wpFetch API USER PASSWORD base64 (Publish.categories_api backend)
                  _ _ _) as [[newCategory|e1] trace''];
        cbn [snd] in Hc |- *; subst trace''; now rewrite <- app_assoc.
  - cbn [snd] in Ht. subst trace'. split.
    + exists []. split; [reflexivity|now left].
    + intros e He. cbn [fst] in He. now inversion He.
Qed.

(** X21.  A write the backend refuses: when the backend answers the posts
    endpoint with a response that is not ok, [createPost], [updatePost] and
    [publishPost] throw the error that carries the status and the text of
    the response body; when reading the body fails, they throw that
    failure instead. *)
Theorem refused_write_throws :
  forall response : Response Publish.WPPostResponse,
    (forall request, Publish.posts_api backend request = Responded response) ->
    ok response = false ->
    forall trace,
      let error :=
        match text response with
        | Return body =>
            Error (str "WordPress API error: " ++ dec (status response)
                   ++ str " - " ++ body)
        | Throw e => e
        end in
      (forall options,
          fst (Publish.createPost API USER PASSWORD base64 backend options trace)
          = Throw error)
      /\ (forall options,
            fst (Publish.updatePost API USER PASSWORD base64 backend options trace)
            = Throw error)
      /\ (forall id,
            fst (Publish.publishPost API USER PASSWORD base64 backend id trace)
            = Throw error).
Proof.
  intros response Hb Hok trace error.
  assert (W : forall endpoint options,
             fst (Publish.wpFetch API USER PASSWORD base64 (Publish.posts_api backend)
                    endpoint options trace) = Throw error).
  { intros endpoint options. unfold Publish.wpFetch. rewrite Hb, Hok. cbn [negb].
    unfold error. destruct (text response); reflexivity. }
  repeat split; intros; apply W.
Qed.

(** X22.  Whatever the backend answers, each of [createPost], [updatePost],
    [getCategories] and [createCategory] issues exactly one request, to its
    endpoint under the REST root of the site, with the JSON content type and
    the authorization header and no other header. *)
Theorem one_request_each :
  forall trace : list Publish.Request,
    let sent (request : Publish.Request) (endpoint : jsstring)
             (trace' : list Publish.Request) :=
      trace' = trace ++ [request]
      /\ Publish.url request = API ++ str "/wp-json/wp/v2/" ++ endpoint
      /\ Publish.headers (Publish.init request)
         = [(str "Content-Type", str "application/json");
            (str "Authorization", Publish.getAuthHeader USER PASSWORD base64)] in
    (forall options, exists request,
        sent request (str "posts")
          (snd (Publish.createPost API USER PASSWORD base64 backend options trace))
        /\ Publish.method (Publish.init request) = Some (str "POST"))
    /\ (forall options, exists request,
          sent request (str "posts/" ++ dec (Publish.id options))
            (snd (Publish.updatePost API USER PASSWORD base64 backend options trace))
          /\ Publish.method (Publish.init request) = Some (str "POST"))
    /\ (exists request,
          sent request (str "categories?per_page=100")
            (snd (Publish.getCategories API USER PASSWORD base64 backend trace))
          /\ Publish.method (Publish.init request) = None
          /\ Publish.body (Publish.init request) = None)
    /\ (forall name, exists request,
          sent request (str "categories")
            (snd (Publish.createCategory API USER PASSWORD base64 backend name trace))
          /\ Publish.method (Publish.init request) = Some (str "POST")).
Proof.
  intros trace sent. unfold sent.
  unfold Publish.createPost, Publish.updatePost, Publish.getCategories,
    Publish.createCategory.
  repeat split; intros; eexists; rewrite wpFetch_trace; repeat split.
Qed.

End PublishRequests.

Lemma getOrCreateCategory_requests_witness :
  Publish.getOrCreateCategory site (str "admin") (str "s3 cr3t") (fun s => s)
    ascii_lower down (str "News") []
  = (Throw (Error (str "WordPress API error: 503 - ")),
     [] ++ [Publish.request_for site (str "admin") (str "s3 cr3t") (fun s => s)
              (str "categories?per_page=100") Publish.no_options]).
Proof.
  apply (proj2 (getOrCreateCategory_requests site (str "admin") (str "s3 cr3t")
                  (fun s => s) ascii_lower down (str "News") [])).
  reflexivity.
Defined.

Lemma refused_write_throws_witness :
  fst (Publish.publishPost site (str "admin") (str "s3 cr3t") (fun s => s) down 12 [])
  = Throw (Error (str "WordPress API error: 503 - ")).
Proof.
  apply (proj2 (proj2
           (refused_write_throws site (str "admin") (str "s3 cr3t") (fun s => s) down
              (unavailable _) (fun _ => eq_refl) eq_refl []))).
Defined.

(** ** The feed *)

Section FeedFacts.

Variable API : jsstring.
Variable fetch : Wordpress.Url -> Fetched (list Wordpress.WPPost).
Variable site_url : jsstring.

Let feed_url : Wordpress.Url :=
  Wordpress.url_for API (str "posts")
    (Wordpress.getPosts_params
       {| Wordpress.GetPosts.perPage := Some 20%N;
          Wordpress.GetPosts.page := None;
          Wordpress.GetPosts.categories := None;
          Wordpress.GetPosts.tags := None;
          Wordpress.GetPosts.search := None |}).

(** X23.  The feed asks for the first page of 20 posts, newest first.  A
    request that fails fails the feed: [GET] throws the error of the
    request.  On an ok response the feed has one item for each post, in the
    order of the response, with the link [/blog/<slug>/] and the title of
    the post, and a description that neither begins nor ends with white
    space and has at most 163 code units. *)
Theorem feed_follows_the_posts :
  Wordpress.searchParams feed_url
  = [(str "_embed", str "true"); (str "per_page", str "20"); (str "page", str "1");
     (str "orderby", str "date"); (str "order", str "desc")]
  /\ (forall e, fails (fetch feed_url) e -> Rss.GET API fetch site_url = Throw e)
  /\ (forall response posts,
        fetch feed_url = Responded response ->
        ok response = true -> json response = Return posts ->
        exists feed,
          Rss.GET API fetch site_url = Return feed
          /\ Rss.Feed.site feed = site_url
          /\ map Rss.Item.link (Rss.Feed.items feed)
             = map (fun post => str "/blog/" ++ Wordpress.slug post ++ str "/") posts
          /\ map Rss.Item.title (Rss.Feed.items feed) = map Wordpress.title posts
          /\ Forall (fun item =>
                       begins_in_space (Rss.Item.description item) = false
                       /\ ends_in_space (Rss.Item.description item) = false
                       /\ length (Rss.Item.description item) <= 163)
               (Rss.Feed.items feed)).
Proof.
  split; [reflexivity|]. split.
  - intros e H. unfold Rss.GET, Wordpress.getPosts.
    now rewrite (fetchAPI_fails API _ fetch _ _ e H).
  - intros response posts H Hok Hj.
    unfold Rss.GET, Wordpress.getPosts, Wordpress.fetchAPI.
    fold feed_url. rewrite H, Hok, Hj. cbn [negb]. eexists. split; [reflexivity|].
    cbn [Rss.Feed.site Rss.Feed.items]. rewrite !map_map.
    repeat split.
    apply Forall_forall. intros item Hi. apply in_map_iff in Hi as (post & <- & _).
    cbn [Rss.item Rss.Item.description].
    destruct (excerpt_bounds (Wordpress.excerpt post) Wordpress.default_maxLength)
      as (B & E & L).
    repeat split; auto.
    change (Z.max 0 Wordpress.default_maxLength) with 160%Z in L. lia.
Qed.

End FeedFacts.

Lemma feed_follows_the_posts_witness :
  exists feed,
    Rss.GET site (fun _ => Responded (answer [hello_post])) site = Return feed
    /\ map Rss.Item.link (Rss.Feed.items feed) = [str "/blog/hello/"]
    /\ map Rss.Item.description (Rss.Feed.items feed) = [str "Hi & welcome"].
Proof.
  destruct (proj2 (proj2 (feed_follows_the_posts site
                            (fun _ => Responded (answer [hello_post])) site))
              (answer [hello_post]) [hello_post] eq_refl eq_refl eq_refl)
    as (feed & H & _).
  exists feed. split; [exact H|]. inversion H. split; reflexivity.
Defined.
